(** * Bayesian neural network notebook (Section7_6-Bayesian-Neural-Networks)

    A shallow embedding of the notebook's cells.  Arrays of floats are
    lists of rationals (every finite float is a rational); the elementary
    functions the libraries supply (cos, sin, sqrt, tanh, sigmoid on
    floats, the cast to floatX) are section variables, so that every
    statement holds for whatever the platform computes.  Where a result
    depends on how the arithmetic rounds (a mean compared with 0.5, the
    accuracy that is printed, a ceiling, the values of a grid) the
    arithmetic is the format's: each operation gives the exact result
    rounded to the nearest number of the format.  Operations that
    check shapes (reshape, boolean masks, dot) return an option, [None]
    being the error numpy or theano raises; elementwise operations are
    given on operands of equal shape. *)

From Stdlib Require Import Ascii String.
From Stdlib Require Import List Arith ZArith QArith Qround Qabs Qpower Lia Lqa Bool.
From Stdlib Require Import Permutation FinFun.
Import ListNotations.

Set Implicit Arguments.

(** ** State passing *)

Module State.

Definition State (S A : Type) : Type := S -> A * S.

Definition ret {S A} (a : A) : State S A := fun s => (a, s).

Definition bind {S A B} (c : State S A) (k : A -> State S B) : State S B :=
  fun s => let (a, s') := c s in k a s'.

Declare Scope state_scope.
Delimit Scope state_scope with state.
Notation "x <- c ;; k" := (bind c (fun x => k))
  (at level 61, c at next level, right associativity) : state_scope.

End State.

(** ** Floating point

    A finite float is a rational; an operation on floats gives the exact
    result rounded to the nearest float, ties to the even significand.
    Overflow to an infinity is left out: no quantity below comes near the
    largest float. *)

Module Float.

Open Scope Q_scope.

(** [x > y] on floats. *)
Definition Qgtb (x y : Q) : bool := negb (Qle_bool x y).

(** Nearest integer, ties to even. *)
Definition round_half_even (q : Q) : Z :=
  let f := Qfloor q in
  let r := q - inject_Z f in
  if Qgtb (1#2) r then f
  else if Qgtb r (1#2) then (f + 1)%Z
  else if Z.even f then f else (f + 1)%Z.

(** [floor (log2 x)] of a positive rational. *)
Definition ilog2 (x : Q) : Z :=
  let e := (Z.log2 (Qnum x) - Z.log2 (Zpos (Qden x)))%Z in
  if Qle_bool (2 ^ e) x then e else (e - 1)%Z.

(** The nearest number of the binary format with [prec] significant bits
    whose least positive number is [2 ^ emin]: a multiple of the unit in
    the last place of [x]. *)
Definition round_to (prec emin : Z) (x : Q) : Q :=
  if Qeq_bool x 0 then 0
  else
    let a := Qabs x in
    let q := Z.max (ilog2 a - (prec - 1)) emin in
    let r := inject_Z (round_half_even (a / 2 ^ q)) * 2 ^ q in
    if Qle_bool 0 x then r else - r.

(** IEEE 754 double and single precision. *)
Definition binary64 : Q -> Q := round_to 53 (-1074).
Definition binary32 : Q -> Q := round_to 24 (-149).

End Float.

(** ** Arrays *)

Module Arrays.

Import Float.
Open Scope Q_scope.

Definition vector := list Q.
(** A 2-d array, outer list = axis 0. *)
Definition matrix := list (list Q).

Definition nrows (a : matrix) : nat := length a.
Definition ncols (a : matrix) : nat :=
  match a with [] => O | r :: _ => length r end.

(** [a.shape == (r, c)] *)
Definition has_shape (r c : nat) (a : matrix) : Prop :=
  length a = r /\ Forall (fun row => length row = c) a.

Definition Qsum (v : vector) : Q := fold_right Qplus 0 v.

(** The mean of a non-empty array in exact arithmetic.  It stands for
    [mean] where only the shape or the range of the result is stated,
    which rounding keeps; where a value is compared or printed the float
    mean [fmean] below is used. *)
Definition mean (v : vector) : Q := Qsum v / inject_Z (Z.of_nat (length v)).

(** [a[:, i]] *)
Definition column (i : nat) (a : matrix) : vector := map (fun row => nth i row 0) a.

(** [a.mean(0)]: one mean per column, taken over axis 0. *)
Definition mean_axis0 (a : matrix) : vector :=
  map (fun i => mean (column i a)) (seq 0 (ncols a)).

(** [v > c], elementwise against a scalar. *)
Definition gt_scalar (v : vector) (c : Q) : list bool := map (fun x => Qgtb x c) v.

(** A bool cast to float, as numpy does when it compares or averages. *)
Definition bool_to_float (b : bool) : Q := if b then 1 else 0.

(** [y == p], a float array against a bool array of the same length. *)
Definition eq_float_bool (y : vector) (p : list bool) : list bool :=
  map (fun yp => Qeq_bool (fst yp) (bool_to_float (snd yp))) (combine y p).

Definition of_nat (n : nat) : Q := inject_Z (Z.of_nat n).

(** The sum of a float array in the format that rounds by [fl], the
    elements added one after the other: numpy reduces the first axis of
    a C-ordered array of several columns this way, row by row into the
    result.  (Along a contiguous axis it adds in pairs; the one such sum
    here is over zeros and ones, where every order is exact.) *)
Definition fsum (fl : Q -> Q) (v : vector) : Q :=
  match v with
  | [] => 0
  | x :: t => fold_left (fun acc y => fl (acc + y)) t x
  end.

(** [v.mean()] in floats: the sum divided by the count. *)
Definition fmean (fl : Q -> Q) (v : vector) : Q :=
  fl (fsum fl v / of_nat (length v)).

(** [a.mean(0)] in floats, one mean per column. *)
Definition fmean_axis0 (fl : Q -> Q) (a : matrix) : vector :=
  map (fun i => fmean fl (column i a)) (seq 0 (ncols a)).

(** [np.linspace(start, stop, n)] in double precision: the step is the
    rounded quotient, point [i] is [i * step + start] rounded after each
    operation, and the last point is set to [stop]. *)
Definition linspace (start stop : Q) (n : nat) : vector :=
  let step := binary64 ((stop - start) / of_nat (n - 1)) in
  map (fun i => if Nat.eqb (S i) n && Nat.ltb 1 n then stop
                else binary64 (binary64 (of_nat i * step) + start))
      (seq 0 n).

(** One axis of [np.mgrid[start:stop:nj]]: as [linspace], but the last
    point is computed like the others. *)
Definition mgrid_axis (start stop : Q) (n : nat) : vector :=
  let step := binary64 ((stop - start) / of_nat (n - 1)) in
  map (fun i => binary64 (binary64 (of_nat i * step) + start)) (seq 0 n).

(** Population variance, [ddof=0]. *)
Definition var (v : vector) : Q :=
  mean (map (fun x => (x - mean v) * (x - mean v)) v).

(** [a.std(axis=0)], given the float square root. *)
Definition std_axis0 (sqrt_f : Q -> Q) (a : matrix) : vector :=
  map (fun i => sqrt_f (var (column i a))) (seq 0 (ncols a)).

(** [a.T] *)
Definition transpose (a : matrix) : matrix :=
  map (fun j => column j a) (seq 0 (ncols a)).

(** Consecutive rows of [c] elements. *)
Fixpoint chunks (r c : nat) (flat : vector) : matrix :=
  match r with
  | O => []
  | S r' => firstn c flat :: chunks r' c (skipn c flat)
  end.

(** [v.reshape(r, c)]; numpy raises unless the sizes agree. *)
Definition reshape (r c : nat) (flat : vector) : option matrix :=
  if Nat.eqb (length flat) (r * c) then Some (chunks r c flat) else None.

(** [g.reshape(r, -1)] on the elements of [g] in row-major order: the
    second dimension is inferred, and the size must divide. *)
Definition reshape_infer (r : nat) (flat : vector) : option matrix :=
  if Nat.eqb r 0 || negb (Nat.eqb (length flat mod r) 0) then None
  else reshape r (length flat / r)%nat flat.

(** [a[mask, j]] with a boolean mask over the rows; numpy raises when the
    mask's length is not the number of rows or [j] is out of range. *)
Definition mask_index (mask : list bool) (j : nat) (a : matrix) : option vector :=
  if Nat.eqb (length mask) (nrows a) && forallb (fun row => Nat.ltb j (length row)) a
  then Some (map (fun rm => nth j (fst rm) 0)
                 (filter (fun rm => snd rm) (combine a mask)))
  else None.

(** [y == k] for an integer array and [p == k] for a bool array. *)
Definition eq_int (y : list Z) (k : Z) : list bool := map (fun v => Z.eqb v k) y.
Definition eq_bool_int (p : list bool) (k : Z) : list bool :=
  map (fun b : bool => Z.eqb (if b then 1%Z else 0%Z) k) p.

(** A class label. *)
Definition binary (v : Z) : Prop := v = 0%Z \/ v = 1%Z.

End Arrays.

(** ** numpy's global random stream

    The notebook never seeds the generator, so a run is determined by
    what the stream delivers.  The stream is modelled by its deliveries:
    the sequence of standard-normal variates and the sequence of raw
    integers it hands out, each with a read position. *)

Module NumpyRandom.

Import State Arrays.
Open Scope Q_scope.
Open Scope state_scope.

Record RandomState := mkRandomState {
  normal_tape : nat -> Q;
  int_tape : nat -> nat;
  normal_pos : nat;
  int_pos : nat
}.

(** Computations that consume the stream. *)
Definition Rand (A : Type) : Type := State RandomState A.

Definition standard_normal : Rand Q := fun g =>
  (normal_tape g (normal_pos g),
   mkRandomState (normal_tape g) (int_tape g) (S (normal_pos g)) (int_pos g)).

(** A uniform integer in [[0, max]]: the next raw integer, brought into
    range. *)
Definition random_interval (max : nat) : Rand nat := fun g =>
  (int_tape g (int_pos g) mod (S max),
   mkRandomState (normal_tape g) (int_tape g) (normal_pos g) (S (int_pos g))).

Fixpoint replicateM {A} (n : nat) (c : Rand A) : Rand (list A) :=
  match n with
  | O => ret []
  | S n' => a <- c ;; l <- replicateM n' c ;; ret (a :: l)
  end.

(** [randn(n)] and [randn(r, c)], filled in row-major order. *)
Definition randn (n : nat) : Rand vector := replicateM n standard_normal.
Definition randn2 (r c : nat) : Rand matrix := replicateM r (randn c).

(** [normal(scale=s, size=(r, c))] *)
Definition normal (s : Q) (r c : nat) : Rand matrix :=
  z <- randn2 r c ;; ret (map (map (Qmult s)) z).

Fixpoint set_nth {A} (i : nat) (v : A) (l : list A) : list A :=
  match l, i with
  | [], _ => []
  | _ :: t, O => v :: t
  | h :: t, S i' => h :: set_nth i' v t
  end.

(** [x[i], x[j] = x[j], x[i]] *)
Definition swap {A} (d : A) (i j : nat) (x : list A) : list A :=
  set_nth j (nth i x d) (set_nth i (nth j x d) x).

(** The exchange of two positions, as a map on positions. *)
Definition transposition (i j n : nat) : nat :=
  if Nat.eqb n j then i else if Nat.eqb n i then j else n.

(** The loop of [shuffle]:
    [for i in reversed(range(1, n)): j = random_interval(i); swap]. *)
Fixpoint shuffle_from {A} (d : A) (i : nat) (x : list A) : Rand (list A) :=
  match i with
  | O => ret x
  | S i' => j <- random_interval i ;; shuffle_from d i' (swap d i j x)
  end.

Definition shuffle {A} (d : A) (x : list A) : Rand (list A) :=
  shuffle_from d (length x - 1) x.

(** [permutation(n)]: a shuffled [arange(n)]. *)
Definition permutation (n : nat) : Rand (list nat) := shuffle O (seq 0 n).

(** [a[indices]] for indices in range; numpy raises on an index out of
    range, and the index arrays used here are rearrangements of the
    positions of [a]. *)
Definition take {A} (d : A) (a : list A) (indices : list nat) : list A :=
  map (fun i => nth i a d) indices.

(** The state after [k] more normal variates were read, whatever
    integers were read in between. *)
Definition advanced (k : nat) (g g' : RandomState) : Prop :=
  normal_tape g' = normal_tape g /\ normal_pos g' = (normal_pos g + k)%nat.

(** The variates the stream delivers from position [start] on, as [r]
    rows of [c]. *)
Definition tape_block (g : RandomState) (start r c : nat) : matrix :=
  map (fun k => map (normal_tape g) (seq (start + k * c) c)) (seq 0 r).

End NumpyRandom.

(** ** The scikit-learn routines the notebook calls

    Written after the library's documented behaviour, with the float
    routines it relies on left as variables. *)

Module Sklearn.

Import Float State Arrays NumpyRandom.
Open Scope Q_scope.
Open Scope state_scope.

Section Routines.

Variables cos_f sin_f sqrt_f : Q -> Q.
Variable pi_f : Q.

(** [np.vstack([xs, ys]).T]: one row [[x; y]] per point. *)
Definition vstack_T (xs ys : vector) : matrix :=
  map (fun p => [fst p; snd p]) (combine xs ys).

(** [a + b], elementwise on equal shapes. *)
Definition madd (a b : matrix) : matrix :=
  map (fun rs => map (fun p => fst p + snd p) (combine (fst rs) (snd rs))) (combine a b).

(** [datasets.make_moons(n_samples, noise)], with [shuffle=True] and
    [random_state=None] (the global stream) as the defaults have it. *)
Definition make_moons (n_samples : nat) (noise : Q) : Rand (matrix * list Z) :=
  let n_samples_out := (n_samples / 2)%nat in
  let n_samples_in := (n_samples - n_samples_out)%nat in
  let outer_circ_x := map cos_f (linspace 0 pi_f n_samples_out) in
  let outer_circ_y := map sin_f (linspace 0 pi_f n_samples_out) in
  let inner_circ_x := map (fun t => 1 - cos_f t) (linspace 0 pi_f n_samples_in) in
  let inner_circ_y := map (fun t => 1 - sin_f t - (1#2)) (linspace 0 pi_f n_samples_in) in
  let X := vstack_T (outer_circ_x ++ inner_circ_x) (outer_circ_y ++ inner_circ_y) in
  let y := repeat 0%Z n_samples_out ++ repeat 1%Z n_samples_in in
  indices <- shuffle O (seq 0 n_samples) ;;
  let X := take [] X indices in
  let y := take 0%Z y indices in
  e <- normal noise (nrows X) 2 ;;
  ret (madd X e, y).

(** A zero scale is replaced by one (later versions of the library
    replace every scale below ten machine epsilons). *)
Definition handle_zeros_in_scale (s : Q) : Q := if Qeq_bool s 0 then 1 else s.

(** [preprocessing.scale(X)]: each column centred and divided by its
    standard deviation, in exact arithmetic: only the shape of the result
    is stated below. *)
Definition scale (X : matrix) : matrix :=
  let mean_ := mean_axis0 X in
  let scale_ := map (fun i => handle_zeros_in_scale (sqrt_f (var (column i X))))
                    (seq 0 (ncols X)) in
  map (fun row =>
         map (fun p => (fst (fst p) - snd (fst p)) / snd p)
             (combine (combine row mean_) scale_)) X.

(** Sizes of the two parts for a float [test_size] and no [train_size]:
    [n_test = ceil(test_size * n_samples)], the product taken in double
    precision of the literal as a double, and
    [n_train = n_samples - n_test]. *)
Definition n_test_of (test_size : Q) (n_samples : nat) : nat :=
  Z.to_nat (Qceiling (binary64 (binary64 test_size * of_nat n_samples))).

Definition n_train_of (test_size : Q) (n_samples : nat) : nat :=
  (n_samples - n_test_of test_size n_samples)%nat.

(** One shuffle split: the test indices are the head of a random
    permutation, the train indices follow. *)
Definition shuffle_split (n_samples n_test n_train : nat) : Rand (list nat * list nat) :=
  perm <- permutation n_samples ;;
  let ind_test := firstn n_test perm in
  let ind_train := firstn n_train (skipn n_test perm) in
  ret (ind_train, ind_test).

Record Split := mkSplit {
  X_train : matrix;
  X_test : matrix;
  y_train : vector;
  y_test : vector
}.

(** [train_test_split(X, y, test_size=t)] *)
Definition train_test_split (X : matrix) (y : vector) (test_size : Q) : Rand Split :=
  let n_samples := length X in
  let n_test := n_test_of test_size n_samples in
  let n_train := n_train_of test_size n_samples in
  parts <- shuffle_split n_samples n_test n_train ;;
  let train := fst parts in
  let test := snd parts in
  ret (mkSplit (take [] X train) (take [] X test) (take 0 y train) (take 0 y test)).

End Routines.

End Sklearn.

(** ** Symbolic tensors and their evaluation

    The model's likelihood parameter is a symbolic graph over shared
    variables and random variables; compiling it gives a function that
    evaluates the graph.  Evaluation is generic in the scalar type, so the
    same graph is read over floats (as the notebook runs it) and over the
    reals. *)

Module Theano.

Inductive tensor : Type :=
| Shared (name : string)
| RandomVar (name : string)
| Dot (a b : tensor)
| Tanh (a : tensor)
| Sigmoid (a : tensor).

(** [theano.clone(node, replace={Shared old: new})] *)
Fixpoint replace (old : string) (new : tensor) (t : tensor) : tensor :=
  match t with
  | Shared name => if String.eqb name old then new else t
  | RandomVar _ => t
  | Dot a b => Dot (replace old new a) (replace old new b)
  | Tanh a => Tanh (replace old new a)
  | Sigmoid a => Sigmoid (replace old new a)
  end.

Inductive value (F : Type) : Type :=
| Scalar (x : F)
| Vec (v : list F)
| Mat (m : list (list F)).

Arguments Scalar {F} x.
Arguments Vec {F} v.
Arguments Mat {F} m.

Section Eval.

Variable F : Type.
Variable zero : F.
Variables add mul : F -> F -> F.
Variables tanh_f sigmoid_f : F -> F.

Definition width (m : list (list F)) : nat :=
  match m with [] => O | r :: _ => length r end.

(** A matrix of [r] rows and [c] columns. *)
Definition shaped (r c : nat) (m : list (list F)) : Prop :=
  length m = r /\ Forall (fun row => length row = c) m.

Definition all_entries (P : F -> Prop) (m : list (list F)) : Prop :=
  Forall (Forall P) m.

Definition rectangular (m : list (list F)) : bool :=
  forallb (fun r => length r =? width m) m.

(** Sum of the products of two vectors of equal length. *)
Definition dotv (u v : list F) : F :=
  fold_right add zero (map (fun p => mul (fst p) (snd p)) (combine u v)).

Definition columns (m : list (list F)) : list (list F) :=
  map (fun j => map (fun r => nth j r zero) m) (seq 0 (width m)).

(** [dot(a, b)]; [None] is the shape error the library raises. *)
Definition dot (a b : value F) : option (value F) :=
  match a, b with
  | Mat A, Mat B =>
      if rectangular B && forallb (fun r => length r =? length B) A
      then Some (Mat (map (fun r => map (dotv r) (columns B)) A))
      else None
  | Mat A, Vec v =>
      if forallb (fun r => length r =? length v) A
      then Some (Vec (map (fun r => dotv r v) A))
      else None
  | Vec u, Mat B =>
      if rectangular B && (length u =? length B)
      then Some (Vec (map (dotv u) (columns B)))
      else None
  | Vec u, Vec v =>
      if length u =? length v then Some (Scalar (dotv u v)) else None
  | Scalar x, Scalar y => Some (Scalar (mul x y))
  | Scalar x, Vec v => Some (Vec (map (mul x) v))
  | Vec v, Scalar x => Some (Vec (map (fun e => mul e x) v))
  | Scalar x, Mat m => Some (Mat (map (map (mul x)) m))
  | Mat m, Scalar x => Some (Mat (map (map (fun e => mul e x)) m))
  end.

(** An elementwise function. *)
Definition elementwise (f : F -> F) (a : value F) : value F :=
  match a with
  | Scalar x => Scalar (f x)
  | Vec v => Vec (map f v)
  | Mat m => Mat (map (map f) m)
  end.

Definition env := string -> option (value F).

(** Evaluation of a graph under the values of the shared variables and
    of the random variables; an unbound name is an error. *)
Fixpoint eval (shared rvs : env) (t : tensor) : option (value F) :=
  match t with
  | Shared name => shared name
  | RandomVar name => rvs name
  | Dot a b =>
      match eval shared rvs a, eval shared rvs b with
      | Some va, Some vb => dot va vb
      | _, _ => None
      end
  | Tanh a => option_map (elementwise tanh_f) (eval shared rvs a)
  | Sigmoid a => option_map (elementwise sigmoid_f) (eval shared rvs a)
  end.

Definition bind_var (name : string) (v : value F) (e : env) : env :=
  fun n => if String.eqb n name then Some v else e n.

Definition empty_env : env := fun _ => None.

End Eval.

End Theano.

(** ** Model declaration *)

Module PyMC.

Import State Arrays Theano.
Open Scope Q_scope.
Open Scope string_scope.

Inductive distribution : Type :=
| NormalDist (mu sd : Q)
| BernoulliDist (p : tensor).

Record random_variable := mkRV {
  rv_name : string;
  rv_distribution : distribution;
  rv_shape : list nat;
  rv_testval : option (value Q);
  rv_observed : option tensor;
  rv_total_size : option nat
}.

Record Model := mkModel {
  free_RVs : list random_variable;
  observed_RVs : list random_variable
}.

Definition empty_model : Model := mkModel [] [].

(** Declarations made inside [with pm.Model():] register with the model
    in context. *)
Definition Decl (A : Type) : Type := State Model A.

(** [pm.Normal(name, mu, sd=sd, shape=shape, testval=testval)] *)
Definition pm_Normal (name : string) (mu sd : Q) (shape : list nat)
    (testval : value Q) : Decl tensor := fun m =>
  (RandomVar name,
   mkModel (free_RVs m ++ [mkRV name (NormalDist mu sd) shape (Some testval) None None])
           (observed_RVs m)).

(** [pm.Bernoulli(name, p, observed=observed, total_size=total_size)] *)
Definition pm_Bernoulli (name : string) (p observed : tensor)
    (total_size : nat) : Decl random_variable := fun m =>
  let rv := mkRV name (BernoulliDist p) [] None (Some observed) (Some total_size) in
  (rv, mkModel (free_RVs m) (observed_RVs m ++ [rv])).

(** [model.<name>] *)
Definition named_var (name : string) (m : Model) : option random_variable :=
  find (fun rv => String.eqb (rv_name rv) name) (free_RVs m ++ observed_RVs m).

End PyMC.

(** ** The notebook's cells *)

Module Notebook.

Import Float State Arrays NumpyRandom Sklearn Theano PyMC.
Open Scope Q_scope.
Open Scope string_scope.
Open Scope state_scope.

Section Cells.

(** Float routines of the platform, and the cast to [theano.config.floatX]. *)
Variables cos_f sin_f sqrt_f tanh_f sigmoid_f floatX : Q -> Q.
Variable pi_f : Q.

(** The fitted approximation, with its random generator; [pm.fit] and the
    approximation's sampler are the library's. *)
Variable Approx : Type.
Variable fit : Model -> env Q -> N -> Rand Approx.
Variable posterior_draws : Approx -> nat -> list (env Q) * Approx.

Definition astype_floatX (a : matrix) : matrix := map (map floatX) a.

(** Cell 2: [X, y = datasets.make_moons(noise=0.2, n_samples=1000)];
    [X = scale(X)]. *)
Definition cell2 : Rand (matrix * list Z) :=
  Xy <- make_moons cos_f sin_f pi_f 1000 (1#5) ;;
  ret (scale sqrt_f (fst Xy), snd Xy).

(** The four coordinate arrays of a two-class scatter plot:
    [X[c0, 0]], [X[c0, 1]], [X[c1, 0]], [X[c1, 1]]. *)
Definition scatter_classes (X : matrix) (c0 c1 : list bool) : option (list vector) :=
  match mask_index c0 0 X, mask_index c0 1 X, mask_index c1 0 X, mask_index c1 1 X with
  | Some a, Some b, Some c, Some d => Some [a; b; c; d]
  | _, _, _, _ => None
  end.

Definition cell2_scatter (X : matrix) (y : list Z) : option (list vector) :=
  scatter_classes X (eq_int y 0) (eq_int y 1).

(** Cell 3: the casts and the split. *)
Definition cell3 (X : matrix) (y : list Z) : Rand (matrix * vector * Split) :=
  let X := astype_floatX X in
  let y := map (fun v => floatX (inject_Z v)) y in
  s <- train_test_split X y (3#10) ;;
  ret (X, y, s).

Definition ann_input : tensor := Shared "ann_input".
Definition ann_output : tensor := Shared "ann_output".

(** The values held by the two shared variables. *)
Definition shared_store (s : Split) : env Q :=
  bind_var "ann_output" (Vec (y_train s))
    (bind_var "ann_input" (Mat (X_train s)) (@empty_env Q)).

(** Cell 4: initial values. *)
Definition n_hidden : nat := 5.

Definition cell4 (X : matrix) : Rand (matrix * matrix * vector) :=
  init_1 <- randn2 (ncols X) n_hidden ;;
  init_2 <- randn2 n_hidden n_hidden ;;
  init_out <- randn n_hidden ;;
  ret (astype_floatX init_1, astype_floatX init_2, map floatX init_out).

(** Cell 5: the network built from the three weight tensors, and the
    model. *)
Definition act_1 (weights_in_1 : tensor) : tensor :=
  Tanh (Dot ann_input weights_in_1).

Definition act_2 (weights_in_1 weights_1_2 : tensor) : tensor :=
  Tanh (Dot (act_1 weights_in_1) weights_1_2).

Definition act_out (weights_in_1 weights_1_2 weights_2_out : tensor) : tensor :=
  Sigmoid (Dot (act_2 weights_in_1 weights_1_2) weights_2_out).

Definition neural_network_decl (X : matrix) (y_train : vector)
    (init_1 init_2 : matrix) (init_out : vector) : Decl random_variable :=
  weights_in_1 <- pm_Normal "w_in_1" 0 1 [ncols X; n_hidden] (Mat init_1) ;;
  weights_1_2 <- pm_Normal "w_1_2" 0 1 [n_hidden; n_hidden] (Mat init_2) ;;
  weights_2_out <- pm_Normal "w_2_out" 0 1 [n_hidden] (Vec init_out) ;;
  pm_Bernoulli "out" (act_out weights_in_1 weights_1_2 weights_2_out)
               ann_output (length y_train).

Definition neural_network (X : matrix) (y_train : vector)
    (init_1 init_2 : matrix) (init_out : vector) : Model :=
  snd (neural_network_decl X y_train init_1 init_2 init_out empty_model).

(** The three weights by name, prior and shape, for [c] input columns. *)
Definition declared_weights (c : nat) : list (string * distribution * list nat) :=
  [ ("w_in_1", NormalDist 0 1, [c; 5%nat]);
    ("w_1_2", NormalDist 0 1, [5%nat; 5%nat]);
    ("w_2_out", NormalDist 0 1, [5%nat]) ].

Definition declaration (rv : random_variable) : string * distribution * list nat :=
  (rv_name rv, rv_distribution rv, rv_shape rv).

Definition gaussian (rv : random_variable) : Prop :=
  exists mu sd, rv_distribution rv = NormalDist mu sd.

(** Cell 9: the node [approx.sample_node(neural_network.out.distribution.p,
    size=n, more_replacements={ann_input: x})] before sampling, and the
    compiled function. *)
Definition x : tensor := Shared "X".

Definition _sample_proba (m : Model) : option tensor :=
  match named_var "out" m with
  | Some rv =>
      match rv_distribution rv with
      | BernoulliDist p => Some (replace "ann_input" x p)
      | NormalDist _ _ => None
      end
  | None => None
  end.

(** The graph that function evaluates, for the model of cell 5. *)
Definition node : tensor :=
  Sigmoid (Dot (Tanh (Dot (Tanh (Dot x (RandomVar "w_in_1"))) (RandomVar "w_1_2")))
               (RandomVar "w_2_out")).

(** One row per posterior draw. *)
Fixpoint stack (rows : list (option (value Q))) : option matrix :=
  match rows with
  | [] => Some []
  | Some (Vec v) :: t => option_map (cons v) (stack t)
  | _ :: _ => None
  end.

(** The compiled function raises when asked for no sample; the
    approximation is then as it was. *)
Definition sample_proba (node : tensor) (shared : env Q) (approx : Approx)
    (X : matrix) (n : nat) : option matrix * Approx :=
  match n with
  | O => (None, approx)
  | S _ =>
      let (draws, approx') := posterior_draws approx n in
      (stack (map (fun rvs =>
                     eval 0 Qplus Qmult tanh_f sigmoid_f
                          (bind_var "X" (Mat X) shared) rvs node) draws),
       approx')
  end.

(** Cell 10: [pred = sample_proba(X_test, 500).mean(0) > 0.5].  The
    array is of dtype floatX and its mean is taken in that format, whose
    rounding is the cast [floatX]. *)
Definition pred_of (proba : matrix) : list bool :=
  gt_scalar (fmean_axis0 floatX proba) (1#2).

(** Cell 11: the number handed to the format,
    [(y_test == pred).mean() * 100]: the mean of a bool array is taken in
    double precision, and so is the product. *)
Definition accuracy (y_test : vector) (pred : list bool) : Q :=
  binary64 (fmean binary64 (map bool_to_float (eq_float_bool y_test pred)) * 100).

(** How many test labels equal the predicted label. *)
Definition agreements (y_test : vector) (pred : list bool) : nat :=
  length (filter (fun yp => Qeq_bool (fst yp) (bool_to_float (snd yp)))
                 (combine y_test pred)).

(** The format [{:0.1f}] shows the float's exact value rounded to one
    decimal, ties to even: the result is counted here in tenths. *)
Definition format_0_1f (v : Q) : Z := round_half_even (v * 10).

(** Cell 13: the evaluation grid. *)
Definition mgrid (start stop : Q) (n : nat) : list matrix :=
  let ax := mgrid_axis start stop n in
  [map (fun v => repeat v n) ax; repeat ax n].

Definition grid : list matrix := map astype_floatX (mgrid (-3) 3 100).

Definition grid_2d : option matrix :=
  option_map transpose (reshape_infer 2 (concat (concat grid))).

Definition dummy_out : list Z := repeat 1%Z (length (nth 0 grid [])).

(** Cells 15 and 16: the two surfaces handed to [contourf], in exact
    arithmetic: only their shape, their range and the position of each
    value are stated below. *)
Definition mean_surface (ppc : matrix) : option matrix :=
  reshape 100 100 (mean_axis0 ppc).

Definition std_surface (ppc : matrix) : option matrix :=
  reshape 100 100 (std_axis0 sqrt_f ppc).

(** What the cells that draw from the global stream leave in the
    kernel, cells 2 to 6: the scaled dataset of cell 2, its cast and split
    of cell 3, the initial values, the model and the fitted
    approximation. *)
Record Inputs := mkInputs {
  in_X_scaled : matrix;
  in_X : matrix;
  in_y_int : list Z;
  in_y : vector;
  in_split : Split;
  in_init_1 : matrix;
  in_init_2 : matrix;
  in_init_out : vector;
  in_neural_network : Model;
  in_approx : Approx
}.

Definition draw_inputs : Rand Inputs :=
  Xy <- cell2 ;;
  Xys <- cell3 (fst Xy) (snd Xy) ;;
  let X := fst (fst Xys) in
  let y := snd (fst Xys) in
  let s := snd Xys in
  inits <- cell4 X ;;
  let init_1 := fst (fst inits) in
  let init_2 := snd (fst inits) in
  let init_out := snd inits in
  let model := neural_network X (y_train s) init_1 init_2 init_out in
  approx <- fit model (shared_store s) 30000%N ;;
  ret (mkInputs (fst Xy) X (snd Xy) y s init_1 init_2 init_out model approx).

(** Cells 2 to 4 alone: what is drawn before the fit. *)
Definition draw_data : Rand (matrix * list Z * (matrix * vector * Split)
                             * (matrix * matrix * vector)) :=
  Xy <- cell2 ;;
  Xys <- cell3 (fst Xy) (snd Xy) ;;
  inits <- cell4 (fst (fst Xys)) ;;
  ret (Xy, Xys, inits).

(** [pm.fit] does not draw from numpy's global stream: the noise of the
    optimiser, like that of the approximation's sampler, comes from the
    generator PyMC3 keeps for theano, which is part of the approximation
    here.  The stream a fit is started on is left as it was, and the
    result does not depend on it. *)
Definition fit_contract : Prop :=
  forall (m : Model) (shared : env Q) (n : N) (g g' : RandomState),
    snd (fit m shared n g) = g /\
    fst (fit m shared n g) = fst (fit m shared n g').

(** The rest of the kernel after the last cell. *)
Record Outputs := mkOutputs {
  out_scatter_data : list vector;
  out_trace : list (env Q);
  out_proba : matrix;
  out_pred : list bool;
  out_accuracy : Q;
  out_scatter_pred : list vector;
  out_grid_2d : matrix;
  out_ppc : matrix;
  out_mean_surface : matrix;
  out_std_surface : matrix;
  out_approx : Approx
}.

(** The plot of cell 2, then cells 7 and 9 to 16, in order; [None] is a
    raised error.  Cells 15 and 16 draw the scatter of cell 12 again over
    their surfaces. *)
Definition predict_and_plot (i : Inputs) : option Outputs :=
  match cell2_scatter (in_X_scaled i) (in_y_int i) with
  | None => None
  | Some scatter_data =>
  let (trace, approx1) := posterior_draws (in_approx i) 5000 in
  match _sample_proba (in_neural_network i) with
  | None => None
  | Some node =>
  let X_test := X_test (in_split i) in
  let y_test := y_test (in_split i) in
  let shared := shared_store (in_split i) in
  match sample_proba node shared approx1 X_test 500 with
  | (None, _) => None
  | (Some proba, approx2) =>
  let pred := pred_of proba in
  let acc := accuracy y_test pred in
  match scatter_classes X_test (eq_bool_int pred 0) (eq_bool_int pred 1) with
  | None => None
  | Some scatter_pred =>
  match grid_2d with
  | None => None
  | Some g2 =>
  match sample_proba node shared approx2 g2 500 with
  | (None, _) => None
  | (Some ppc, approx3) =>
  match mean_surface ppc, std_surface ppc with
  | Some ms, Some ss =>
      Some (mkOutputs scatter_data trace proba pred acc scatter_pred g2 ppc ms ss approx3)
  | _, _ => None
  end end end end end end end.

(** A joint draw of the weights in their declared shapes. *)
Definition well_shaped_draw (rvs : env Q) : Prop :=
  exists (W1 W2 : matrix) (w : vector),
    rvs "w_in_1" = Some (Mat W1) /\ shaped 2 5 W1 /\
    rvs "w_1_2" = Some (Mat W2) /\ shaped 5 5 W2 /\
    rvs "w_2_out" = Some (Vec w) /\ length w = 5%nat.

(** What the approximation's sampler promises: as many draws as asked
    for, each of the declared shapes. *)
Definition sampler_contract : Prop :=
  forall (approx : Approx) (n : nat),
    length (fst (posterior_draws approx n)) = n /\
    Forall well_shaped_draw (fst (posterior_draws approx n)).

(** The same kernel with other test labels. *)
Definition with_y_test (i : Inputs) (y : vector) : Inputs :=
  mkInputs (in_X_scaled i) (in_X i) (in_y_int i) (in_y i)
    (mkSplit (X_train (in_split i)) (X_test (in_split i))
             (y_train (in_split i)) y)
    (in_init_1 i) (in_init_2 i) (in_init_out i)
    (in_neural_network i) (in_approx i).

(** Two results that differ at most in the accuracy. *)
Definition same_but_accuracy (o1 o2 : Outputs) : Prop :=
  out_scatter_data o1 = out_scatter_data o2 /\
  out_trace o1 = out_trace o2 /\
  out_proba o1 = out_proba o2 /\
  out_pred o1 = out_pred o2 /\
  out_scatter_pred o1 = out_scatter_pred o2 /\
  out_grid_2d o1 = out_grid_2d o2 /\
  out_ppc o1 = out_ppc o2 /\
  out_mean_surface o1 = out_mean_surface o2 /\
  out_std_surface o1 = out_std_surface o2 /\
  out_approx o1 = out_approx o2.

(** Running all cells on a global stream. *)
Definition run_all (g : RandomState) : option (Inputs * Outputs) :=
  let i := fst (draw_inputs g) in
  option_map (pair i) (predict_and_plot i).

End Cells.

End Notebook.

(** ** The notebook as a sequence of statements

    For the properties that are about which operations the notebook
    performs, each code cell is listed statement by statement, with the
    line it starts on in the notebook file, the calls it makes in the
    order they are evaluated, and the keyword arguments each call is
    given. *)

Module Source.

Open Scope string_scope.

Record call := mkCall { callee : string; kwargs : list string }.

Inductive kind : Type := Magic | Import | Assign | Expr.

Record simple := mkSimple { line : nat; what : kind; calls : list call }.

(** Python's compound statements that matter for control flow. *)
Inductive stmt : Type :=
| Simple (s : simple)
| With (header : simple) (body : list simple)
| TryExcept (body handler : list simple).

Definition cell := list stmt.

Definition import (l : nat) : stmt := Simple (mkSimple l Import []).
Definition assign (l : nat) (cs : list call) : stmt := Simple (mkSimple l Assign cs).
Definition expr (l : nat) (cs : list call) : stmt := Simple (mkSimple l Expr cs).
Definition c (f : string) (kw : list string) : call := mkCall f kw.

Definition cell1 : cell :=
  [ Simple (mkSimple 28 Magic []);
    import 29; import 30; import 31; import 32;
    expr 33 [c "sns.set" ["style"]];
    import 35; import 36; import 37; import 38; import 39; import 40;
    import 41; import 42; import 43;
    assign 45 []; assign 46 [] ].

Definition cell2 : cell :=
  [ assign 55 [c "datasets.make_moons" ["noise"; "n_samples"]];
    assign 56 [c "scale" []];
    assign 58 [c "plt.subplots" []];
    expr 59 [c "ax.scatter" ["label"]];
    expr 60 [c "ax.scatter" ["color"; "label"]];
    expr 61 [c "sns.despine" []];
    expr 61 [c "ax.legend" []];
    expr 62 [c "ax.set" ["xlabel"; "ylabel"; "title"]] ].

Definition cell3 : cell :=
  [ assign 80 [c "X.astype" []];
    assign 81 [c "y.astype" []];
    assign 82 [c "train_test_split" ["test_size"]];
    assign 84 [c "theano.shared" []];
    assign 85 [c "theano.shared" []] ].

Definition cell4 : cell :=
  [ assign 101 [];
    assign 103 [c "np.random.randn" []; c ".astype" []];
    assign 104 [c "np.random.randn" []; c ".astype" []];
    assign 105 [c "np.random.randn" []; c ".astype" []] ].

Definition cell5 : cell :=
  [ With (mkSimple 121 Expr [c "pm.Model" []])
      [ mkSimple 124 Assign [c "pm.Normal" ["sd"; "shape"; "testval"]];
        mkSimple 129 Assign [c "pm.Normal" ["sd"; "shape"; "testval"]];
        mkSimple 134 Assign [c "pm.Normal" ["sd"; "shape"; "testval"]];
        mkSimple 139 Assign [c "pm.math.dot" []; c "pm.math.tanh" []];
        mkSimple 141 Assign [c "pm.math.dot" []; c "pm.math.tanh" []];
        mkSimple 143 Assign [c "pm.math.dot" []; c "pm.math.sigmoid" []];
        mkSimple 147 Assign [c "pm.Bernoulli" ["observed"; "total_size"]] ] ].

Definition cell6 : cell :=
  [ With (mkSimple 169 Expr [])
      [ mkSimple 170 Assign [c "pm.fit" ["n"]] ] ].

Definition cell7 : cell := [ assign 186 [c "approx.sample" ["draws"]] ].

Definition cell8 : cell :=
  [ expr 202 [c "plt.plot" ["alpha"]];
    expr 203 [c "plt.legend" []];
    expr 204 [c "plt.ylabel" []];
    expr 205 [c "plt.xlabel" []] ].

Definition cell9 : cell :=
  [ assign 225 [c "tt.matrix" []];
    assign 227 [c "tt.iscalar" []];
    assign 229 [c "np.empty_like" []];
    assign 230 [];
    assign 231 [c "approx.sample_node" ["size"; "more_replacements"]];
    assign 237 [c "theano.function" []] ].

Definition cell10 : cell := [ assign 246 [c "sample_proba" []; c ".mean" []] ].

Definition cell11 : cell := [ expr 255 [c ".mean" []; c ".format" []; c "print" []] ].

Definition cell12 : cell :=
  [ assign 264 [c "plt.subplots" []];
    expr 265 [c "ax.scatter" []];
    expr 266 [c "ax.scatter" ["color"]];
    expr 267 [c "sns.despine" []];
    expr 268 [c "ax.set" ["title"; "xlabel"; "ylabel"]] ].

Definition cell13 : cell :=
  [ assign 286 [c "pm.floatX" []];
    assign 287 [c "grid.reshape" []];
    assign 288 [c "np.ones" ["dtype"]] ].

Definition cell14 : cell := [ assign 297 [c "sample_proba" []] ].

Definition cell15 : cell :=
  [ assign 313 [c "sns.diverging_palette" ["s"; "l"; "as_cmap"]];
    assign 314 [c "plt.subplots" ["figsize"]];
    assign 315 [c "ppc.mean" ["axis"]; c ".reshape" []; c "ax.contourf" ["cmap"]];
    expr 316 [c "ax.scatter" []];
    expr 317 [c "ax.scatter" ["color"]];
    assign 318 [c "plt.colorbar" ["ax"]];
    assign 319 [c "ax.set" ["xlim"; "ylim"; "xlabel"; "ylabel"]];
    expr 320 [c "cbar.ax.set_ylabel" []] ].

Definition cell16 : cell :=
  [ assign 336 [c "sns.cubehelix_palette" ["light"; "as_cmap"]];
    assign 337 [c "plt.subplots" ["figsize"]];
    assign 338 [c "ppc.std" ["axis"]; c ".reshape" []; c "ax.contourf" ["cmap"]];
    expr 339 [c "ax.scatter" []];
    expr 340 [c "ax.scatter" ["color"]];
    assign 341 [c "plt.colorbar" ["ax"]];
    assign 342 [c "ax.set" ["xlim"; "ylim"; "xlabel"; "ylabel"]];
    expr 343 [c "cbar.ax.set_ylabel" []] ].

Definition notebook : list cell :=
  [ cell1; cell2; cell3; cell4; cell5; cell6; cell7; cell8;
    cell9; cell10; cell11; cell12; cell13; cell14; cell15; cell16 ].

(** The simple statements of a statement, in program order. *)
Definition flatten (s : stmt) : list simple :=
  match s with
  | Simple s => [s]
  | With h body => h :: body
  | TryExcept body handler => body ++ handler
  end.

Definition statements (p : list stmt) : list simple := flat_map flatten p.

Definition all_calls (p : list stmt) : list call := flat_map calls (statements p).

Definition handler_free (s : stmt) : bool :=
  match s with TryExcept _ _ => false | _ => true end.

(** Calls and keyword arguments that fix the state of a random generator. *)
Definition seeding_apis : list string :=
  [ "np.random.seed"; "numpy.random.seed"; "random.seed"; "np.random.set_state";
    "np.random.RandomState"; "np.random.default_rng"; "pm.set_tt_rng";
    "approx.seed"; "tt_rng"; "set_tt_rng" ].

Definition seeding_kwargs : list string := [ "random_state"; "random_seed"; "seed" ].

Definition mem_string (x : string) (l : list string) : bool :=
  existsb (String.eqb x) l.

Definition seeds (k : call) : bool :=
  mem_string (callee k) seeding_apis
  || existsb (fun kw => mem_string kw seeding_kwargs) (kwargs k).

End Source.

(** ** Exceptions

    Python's rule for the statements above: a simple statement either
    completes or raises; a raised exception ends the enclosing block; a
    [with] block runs its context manager's exit and lets the exception
    through (the managers used here, a model context, do not suppress);
    only [try]/[except] catches.  Running all cells stops at the first
    cell that raises. *)

Module Exceptions.

Import Source.
Open Scope list_scope.

Section Run.

Variables St Exn : Type.

(** What the library calls of a statement do to the kernel state, and
    whether they raise. *)
Variable exec_simple : simple -> St -> St * option Exn.
Variable ctx_exit : simple -> St -> St.

(** A statement that was started, with the state it started in. *)
Definition event : Type := simple * St.

Record outcome := mkOutcome {
  executed : list event;
  final : St;
  raised : option Exn
}.

Fixpoint run_block (b : list simple) (log : list event) (st : St) : outcome :=
  match b with
  | [] => mkOutcome log st None
  | s :: b' =>
      match exec_simple s st with
      | (st', None) => run_block b' (log ++ [(s, st)]) st'
      | (st', Some e) => mkOutcome (log ++ [(s, st)]) st' (Some e)
      end
  end.

Definition run_stmt (s : stmt) (log : list event) (st : St) : outcome :=
  match s with
  | Simple s => run_block [s] log st
  | With h body =>
      let o := run_block [h] log st in
      match raised o with
      | Some _ => o
      | None =>
          let o' := run_block body (executed o) (final o) in
          mkOutcome (executed o') (ctx_exit h (final o')) (raised o')
      end
  | TryExcept body handler =>
      let o := run_block body log st in
      match raised o with
      | None => o
      | Some _ => run_block handler (executed o) (final o)
      end
  end.

Fixpoint run_stmts (p : list stmt) (log : list event) (st : St) : outcome :=
  match p with
  | [] => mkOutcome log st None
  | s :: p' =>
      let o := run_stmt s log st in
      match raised o with
      | Some _ => o
      | None => run_stmts p' (executed o) (final o)
      end
  end.

Definition run_cells (nb : list cell) (st : St) : outcome :=
  run_stmts (concat nb) [] st.

(** The statement of an event raises [e] in the state it started in. *)
Definition raises (ev : event) (e : Exn) : Prop :=
  snd (exec_simple (fst ev) (snd ev)) = Some e.

Definition completes (ev : event) : Prop :=
  snd (exec_simple (fst ev) (snd ev)) = None.

(** The events of a run of the block [b] that ended with [r]: without an
    exception every statement of [b] ran and completed; with an exception
    the statements up to one of [b] ran, all completed but the last, which
    raised it, and the rest of [b] did not run. *)
Definition trace_of (b : list simple) (evs : list event) (r : option Exn) : Prop :=
  match r with
  | None => Forall completes evs /\ map fst evs = b
  | Some e =>
      exists (before : list event) (ev : event) (rest : list simple),
        evs = before ++ [ev] /\ Forall completes before /\ raises ev e /\
        b = map fst before ++ fst ev :: rest
  end.

End Run.

End Exceptions.

(** ** What the statements name

    Besides its calls, a statement can reach outside the process through
    a name it reads or assigns by attribute or subscript
    ([os.environ['HOME']] is no call).  The tables below list, by line,
    the modules cell 1 imports with the names they are bound to, and the
    attributes the statements read or assign other than as the callee of
    a call. *)

Module Names.

Import Source.
Open Scope string_scope.

(** [import m as a] and [from m import a]: line, module, bound name. *)
Definition imports : list (nat * string * string) :=
  [ (29%nat, "numpy", "np"); (30%nat, "pandas", "pd");
    (31%nat, "matplotlib.pyplot", "plt"); (32%nat, "seaborn", "sns");
    (35%nat, "theano", "theano"); (36%nat, "theano.tensor", "tt");
    (37%nat, "pymc3", "pm"); (38%nat, "scipy", "optimize");
    (39%nat, "ipywidgets", "interact"); (40%nat, "IPython.display", "SVG");
    (41%nat, "sklearn", "datasets");
    (42%nat, "sklearn.model_selection", "train_test_split");
    (43%nat, "sklearn.preprocessing", "scale") ].

Definition attributes : list (nat * string) :=
  [ (45%nat, "theano.config.floatX"); (46%nat, "theano.config.compute_test_value");
    (103%nat, "X.shape"); (124%nat, "X.shape"); (147%nat, "y_train.shape");
    (202%nat, "approx.hist");
    (229%nat, "x.tag.test_value"); (230%nat, "n.tag.test_value");
    (231%nat, "neural_network.out.distribution.p");
    (286%nat, "np.mgrid"); (287%nat, ".T"); (288%nat, "grid.shape"); (288%nat, "np.int8") ].

(** The names the statements subscript, [X[y==0, 0]] and the like. *)
Definition subscripted : list (nat * string) :=
  [ (59%nat, "X"); (60%nat, "X"); (103%nat, "X.shape"); (124%nat, "X.shape");
    (147%nat, "y_train.shape"); (229%nat, "X_train");
    (265%nat, "X_test"); (266%nat, "X_test"); (286%nat, "np.mgrid");
    (288%nat, "grid.shape"); (315%nat, "grid"); (316%nat, "X_test");
    (317%nat, "X_test"); (338%nat, "grid"); (339%nat, "X_test");
    (340%nat, "X_test") ].

(** The names the statements assign. *)
Definition assigned : list string :=
  [ "floatX"; "X"; "y"; "fig"; "ax"; "X_train"; "X_test"; "y_train"; "y_test";
    "ann_input"; "ann_output"; "n_hidden"; "init_1"; "init_2"; "init_out";
    "neural_network"; "weights_in_1"; "weights_1_2"; "weights_2_out";
    "act_1"; "act_2"; "act_out"; "out"; "approx"; "trace"; "x"; "n";
    "_sample_proba"; "sample_proba"; "pred"; "grid"; "grid_2d"; "dummy_out";
    "ppc"; "cmap"; "contour"; "cbar"; "_" ].

(** The one builtin the statements call. *)
Definition builtins : list string := [ "print" ].

(** The part of a dotted name before its first dot; empty for the method
    or attribute of a value that has no name. *)
Fixpoint root (s : string) : string :=
  match s with
  | EmptyString => EmptyString
  | String ch t => if Ascii.eqb ch "."%char then EmptyString else String ch (root t)
  end.

(** Every dotted name of the notebook: the callees of its calls, the
    attributes and the subscripted names above. *)
Definition names : list string :=
  map callee (all_calls (concat notebook)) ++ map snd attributes
  ++ map snd subscripted.

(** A root the notebook has bound: an import, an assignment, or the
    builtin it calls. *)
Definition bound (r : string) : bool :=
  String.eqb r EmptyString
  || mem_string r (map snd imports) || mem_string r assigned
  || mem_string r builtins.

(** Names that reach the command line, the environment or the file
    system. *)
Definition argv_apis : list string :=
  [ "sys.argv"; "argparse.ArgumentParser"; "parser.parse_args" ].

Definition environ_apis : list string :=
  [ "os.getenv"; "os.environ.get"; "os.environ" ].

Definition read_file_apis : list string :=
  [ "open"; "np.load"; "np.loadtxt"; "np.genfromtxt"; "pd.read_csv";
    "pd.read_excel"; "pd.read_pickle"; "pickle.load"; "input" ].

Definition write_file_apis : list string :=
  [ "np.save"; "np.savetxt"; "pickle.dump"; "plt.savefig"; "fig.savefig";
    "df.to_csv"; "pm.save_trace"; "os.remove"; "os.mkdir" ].

Definition outside_modules : list string :=
  [ "os"; "sys"; "io"; "pathlib"; "shutil"; "subprocess"; "tempfile"; "glob";
    "pickle"; "argparse"; "json"; "csv"; "sqlite3"; "socket"; "urllib" ].

Definition outside_builtins : list string :=
  [ "open"; "input"; "exec"; "eval"; "compile"; "__import__" ].

(** The part of a dotted name after its last dot: the function or
    method called, the attribute read. *)
Fixpoint last_part (s : string) : string :=
  match s with
  | EmptyString => EmptyString
  | String ch t =>
      if Ascii.eqb ch "."%char then last_part t
      else if existsb (Ascii.eqb "."%char) (list_ascii_of_string t) then last_part t
      else s
  end.

(** How the libraries name what reads or writes outside the process:
    [np.load], [pd.read_csv], [df.to_csv], [fig.savefig],
    [datasets.fetch_openml], [a.tofile] and so on. *)
Definition outside_prefixes : list string :=
  [ "load"; "read"; "save"; "fetch"; "dump"; "write"; "open"; "to_"; "tofile";
    "fromfile"; "from_file"; "genfromtxt"; "memmap"; "imread"; "imsave";
    "getenv"; "putenv"; "environ"; "argv"; "input"; "download"; "pydotprint" ].

(** Keyword arguments that name a file or an address. *)
Definition outside_kwargs : list string :=
  [ "filename"; "fname"; "file"; "path"; "filepath"; "url" ].

(** The one magic of the notebook, [%matplotlib inline] of line 28, and
    the magics that run programs or touch files or the environment. *)
Definition magics : list (nat * string) := [ (28%nat, "matplotlib") ].

Definition outside_magics : list string :=
  [ "run"; "load"; "loadpy"; "save"; "store"; "writefile"; "cd"; "env";
    "set_env"; "sx"; "sc"; "system"; "bash"; "sh"; "script"; "pip"; "conda" ].

Definition outside (s : string) : bool :=
  mem_string s (argv_apis ++ environ_apis ++ read_file_apis ++ write_file_apis)
  || mem_string (root s) (outside_modules ++ outside_builtins)
  || existsb (fun p => String.prefix p (last_part s)) outside_prefixes.

Definition outside_call (k : call) : bool :=
  outside (callee k) || existsb (fun kw => mem_string kw outside_kwargs) (kwargs k).

End Names.

(** ** theano's configuration

    Modelled after theano's documentation: importing theano reads its
    flags from the environment variable THEANO_FLAGS, a comma separated
    list of [key=value], then from the [global] section of the
    configuration file, [~/.theanorc] unless THEANORC names another, and
    falls back on its defaults; [floatX] defaults to float64. *)

Module TheanoConfig.

Open Scope string_scope.

Fixpoint split_on (sep : ascii) (s : string) : list string :=
  match s with
  | EmptyString => [EmptyString]
  | String ch t =>
      if Ascii.eqb ch sep then EmptyString :: split_on sep t
      else match split_on sep t with
           | [] => [String ch EmptyString]
           | h :: r => String ch h :: r
           end
  end.

Definition key_value (s : string) : option (string * string) :=
  match split_on "="%char s with
  | k :: v :: _ => Some (k, v)
  | _ => None
  end.

Definition flags (s : string) : list (string * string) :=
  flat_map (fun kv => match key_value kv with Some p => [p] | None => [] end)
           (split_on ","%char s).

Fixpoint lookup (k : string) (l : list (string * string)) : option string :=
  match l with
  | [] => None
  | (k', v) :: t => if String.eqb k k' then Some v else lookup k t
  end.

Section Config.

(** The options of the [global] section of a configuration file, as
    Python's ConfigParser reads them from its text. *)
Variable global_options : string -> list (string * string).

Definition rc_path (environ : list (string * string)) : string :=
  match lookup "THEANORC" environ with Some p => p | None => "~/.theanorc" end.

Definition env_flags (environ : list (string * string)) : list (string * string) :=
  match lookup "THEANO_FLAGS" environ with Some s => flags s | None => [] end.

Definition rc_flags (environ files : list (string * string)) : list (string * string) :=
  match lookup (rc_path environ) files with
  | Some text => global_options text
  | None => []
  end.

(** [theano.config.floatX] once theano is imported, which line 45 binds
    to [floatX] and lines 80 and 81 cast the dataset to. *)
Definition floatX_of (environ files : list (string * string)) : string :=
  match lookup "floatX" (env_flags environ) with
  | Some v => v
  | None =>
      match lookup "floatX" (rc_flags environ files) with
      | Some v => v
      | None => "float64"
      end
  end.

End Config.

(** The cast [astype(floatX)] by the name of the type: rounding to
    nearest, ties to even, in the format of that name (for values within
    its range). *)
Definition cast (dtype : string) : Q -> Q :=
  if String.eqb dtype "float32" then Float.binary32
  else if String.eqb dtype "float16" then Float.round_to 11 (-24)
  else Float.binary64.

End TheanoConfig.

(** ** The float activations

    [pm.math.tanh] and [pm.math.sigmoid] on floats.  Both saturate: the C
    library's tanh is exactly 1 from 22 on and exactly -1 down from -22,
    and theano's sigmoid is exactly 0 below -709 and exactly 1 above 30
    in each of its implementations (its C code returns 1 already above 19
    in double and above 15 in single precision).  In between the value is
    the library's, [mid]. *)

Module FloatNetwork.

Import Float Arrays Theano.
Open Scope Q_scope.
Open Scope string_scope.

Definition tanh_float (mid : Q -> Q) (x : Q) : Q :=
  if Qle_bool 22 x then 1 else if Qle_bool x (-22) then -1 else mid x.

Definition sigmoid_float (mid : Q -> Q) (x : Q) : Q :=
  if Qgtb (-709) x then 0 else if Qgtb x 30 then 1 else mid x.

(** The values of the shared input and of the three weights. *)
Definition input_env (X : matrix) : env Q :=
  bind_var "ann_input" (Mat X) (@empty_env Q).

Definition weights_env (w_in_1 w_1_2 : matrix) (w_2_out : vector) : env Q :=
  bind_var "w_2_out" (Vec w_2_out)
    (bind_var "w_1_2" (Mat w_1_2)
       (bind_var "w_in_1" (Mat w_in_1) (@empty_env Q))).

End FloatNetwork.

(** ** Concrete instances

    Exact arithmetic in place of the float routines, a sampler that
    always returns zero weights, and two streams. *)

Module Examples.

Import State Arrays NumpyRandom Theano PyMC Notebook.
Open Scope Q_scope.
Open Scope string_scope.

Definition exact : Q -> Q := fun q => q.

Definition fit_unit (m : Model) (shared : env Q) (n : N) : Rand unit :=
  State.ret tt.

Definition zero_draw : env Q :=
  bind_var "w_2_out" (Vec (repeat 0 5))
    (bind_var "w_1_2" (Mat (repeat (repeat 0 5) 5))
       (bind_var "w_in_1" (Mat (repeat (repeat 0 5) 2)) (@empty_env Q))).

Definition zero_draws (a : unit) (n : nat) : list (env Q) * unit :=
  (repeat zero_draw n, tt).

(** A stream of zeros, and one whose integers count up. *)
Definition stream_zero : RandomState :=
  mkRandomState (fun _ => 0) (fun _ => O) O O.

Definition stream_count : RandomState :=
  mkRandomState (fun k => inject_Z (Z.of_nat k)) (fun k => k) O O.

(** The labels in the order the shuffle gives, and the first of them. *)
Definition shuffled_labels (n : nat) (g : RandomState) : list Z :=
  take 0%Z (repeat 0%Z (n / 2) ++ repeat 1%Z (n - n / 2))
       (fst (shuffle O (seq 0 n) g)).

Definition first_label (g : RandomState) : Z :=
  nth 0 (shuffled_labels 1000 g) 2%Z.

(** A kernel that counts the statements it completes, in which the fit
    of line 170 raises. *)
Definition exec_fit_fails (s : Source.simple) (st : nat) : nat * option string :=
  if Nat.eqb (Source.line s) 170 then (st, Some "FloatingPointError")
  else (S st, None).

Definition exit_keeps (h : Source.simple) (st : nat) : nat := st.

Definition fit_statement : Source.simple :=
  Source.mkSimple 170 Source.Assign [Source.c "pm.fit" ["n"]].

End Examples.

(** ** Further notions used by the properties of the cells *)

Module Measures.

Import State Arrays NumpyRandom.
Open Scope Q_scope.

(** [mask.sum()]: how many entries of a boolean mask are set. *)
Definition count_true (mask : list bool) : nat :=
  length (filter (fun b : bool => b) mask).

(** Every entry of a matrix satisfies [P]. *)
Definition all_in (P : Q -> Prop) (a : matrix) : Prop := Forall (Forall P) a.

(** [a[i, j]] *)
Definition entry (i j : nat) (a : matrix) : Q := nth j (nth i a []) 0.

(** The point a row of two coordinates stands for, as [scatter] is
    handed it: [(row[0], row[1])]. *)
Definition point (row : vector) : Q * Q := (nth 0 row 0, nth 1 row 0).

(** A probability. *)
Definition in_unit (p : Q) : Prop := 0 <= p /\ p <= 1.

(** An activation. *)
Definition in_symmetric_unit (a : Q) : Prop := -1 <= a /\ a <= 1.

End Measures.

Module ModelNotions.

Import State Arrays Theano PyMC.
Open Scope Q_scope.

(** The initial value of a random variable has the shape declared for it. *)
Definition testval_fits (rv : random_variable) : Prop :=
  match rv_testval rv, rv_shape rv with
  | Some (Mat m), [r; c] => has_shape r c m
  | Some (Vec v), [n] => length v = n
  | _, _ => False
  end.

(** [model.test_point]: the initial value of every free random variable. *)
Definition test_point (m : Model) : env Q := fun name =>
  match find (fun rv => String.eqb (rv_name rv) name) (free_RVs m) with
  | Some rv => rv_testval rv
  | None => None
  end.

End ModelNotions.

Module ForwardNotions.

Import State Arrays Theano.
Open Scope Q_scope.

Section Forward.

Variables tanh_f sigmoid_f : Q -> Q.

(** One dense layer on one input row: the products of the row with the
    columns of the weight matrix. *)
Definition layer (W : matrix) (row : vector) : vector :=
  map (dotv 0 Qplus Qmult row) (columns 0 W).

(** The network on one input row. *)
Definition forward (W1 W2 : matrix) (w : vector) (row : vector) : Q :=
  sigmoid_f
    (dotv 0 Qplus Qmult (map tanh_f (layer W2 (map tanh_f (layer W1 row)))) w).

End Forward.

End ForwardNotions.

Module Instances.

Import State Arrays NumpyRandom Theano PyMC.
Open Scope Q_scope.

(** A function with values in the unit interval, as the float sigmoid
    has: the identity cut off at 0 and at 1. *)
Definition clip (q : Q) : Q :=
  if Qle_bool q 0 then 0 else if Qle_bool 1 q then 1 else q.

(** A kernel in which every statement completes; the state counts the
    statements run. *)
Definition exec_counts (s : Source.simple) (st : nat) : nat * option string :=
  (S st, None).

(** Stand-ins for the two activations between their thresholds: the
    straight lines through the values at the thresholds. *)
Definition tanh_line (x : Q) : Q := x / 22.
Definition sigmoid_line (x : Q) : Q := (x + 709) / 739.

End Instances.

(** * Properties *)

Module FloatFacts.

Import Float.
Open Scope Q_scope.

#[local] Unset Implicit Arguments.

Lemma Qgtb_lt (x y : Q) : Qgtb x y = true <-> y < x.
Proof.
  unfold Qgtb. rewrite negb_true_iff.
  split; intros H.
  - apply Qnot_le_lt. intros Hle. apply Qle_bool_iff in Hle. congruence.
  - destruct (Qle_bool x y) eqn:E; [|reflexivity].
    apply Qle_bool_iff in E. exfalso. exact (Qlt_not_le _ _ H E).
Qed.

Lemma round_half_even_close (q : Q) :
  - (1#2) <= q - inject_Z (round_half_even q) <= 1#2.
Proof.
  unfold round_half_even.
  pose proof (Qfloor_le q) as Hlo.
  pose proof (Qlt_floor q) as Hhi.
  rewrite inject_Z_plus in Hhi.
  destruct (Qgtb (1#2) (q - inject_Z (Qfloor q))) eqn:E1;
    [|destruct (Qgtb (q - inject_Z (Qfloor q)) (1#2)) eqn:E2;
      [|destruct (Z.even (Qfloor q))]];
    try rewrite inject_Z_plus;
    change (inject_Z 1) with 1 in *;
    try (apply Qgtb_lt in E1); try (apply Qgtb_lt in E2);
    try (assert (H1 : ~ q - inject_Z (Qfloor q) < 1#2)
           by (rewrite <- Qgtb_lt; congruence);
         apply Qnot_lt_le in H1);
    try (assert (H2 : ~ 1#2 < q - inject_Z (Qfloor q))
           by (rewrite <- Qgtb_lt; congruence);
         apply Qnot_lt_le in H2);
    set (f := inject_Z (Qfloor q)) in *; clearbody f;
    split; Lqa.lra.
Qed.

#[export] Instance round_half_even_comp : Proper (Qeq ==> eq) round_half_even.
Proof.
  intros x y H. unfold round_half_even, Qgtb.
  rewrite (Qfloor_comp _ _ H).
  assert (E : x - inject_Z (Qfloor y) == y - inject_Z (Qfloor y))
    by (rewrite H; reflexivity).
  rewrite (Qleb_comp _ _ (Qeq_refl (1#2)) _ _ E).
  rewrite (Qleb_comp _ _ E _ _ (Qeq_refl (1#2))).
  reflexivity.
Qed.

(** Rounding does not cross an integer. *)
Lemma round_half_even_ge (n : Z) (x : Q) :
  inject_Z n <= x -> (n <= round_half_even x)%Z.
Proof.
  intros H. destruct (round_half_even_close x) as [_ Hhi].
  destruct (Z_lt_le_dec (round_half_even x) n) as [Hlt|Hge]; [|exact Hge].
  exfalso.
  assert (Hr : inject_Z (round_half_even x) <= inject_Z (n - 1))
    by (rewrite <- Zle_Qle; lia).
  replace (n - 1)%Z with (n + (-1))%Z in Hr by lia.
  rewrite inject_Z_plus in Hr.
  change (inject_Z (-1)) with (-1#1) in Hr.
  set (r := inject_Z (round_half_even x)) in *. clearbody r.
  set (m := inject_Z n) in *. clearbody m. Lqa.lra.
Qed.

Lemma round_half_even_le (n : Z) (x : Q) :
  x <= inject_Z n -> (round_half_even x <= n)%Z.
Proof.
  intros H. destruct (round_half_even_close x) as [Hlo _].
  destruct (Z_lt_le_dec n (round_half_even x)) as [Hlt|Hge]; [|exact Hge].
  exfalso.
  assert (Hr : inject_Z (n + 1) <= inject_Z (round_half_even x))
    by (rewrite <- Zle_Qle; lia).
  rewrite inject_Z_plus in Hr.
  change (inject_Z 1) with 1 in Hr.
  set (r := inject_Z (round_half_even x)) in *. clearbody r.
  set (m := inject_Z n) in *. clearbody m. Lqa.lra.
Qed.

Lemma round_half_even_Z (n : Z) : round_half_even (inject_Z n) = n.
Proof.
  apply Z.le_antisymm.
  - apply round_half_even_le. apply Qle_refl.
  - apply round_half_even_ge. apply Qle_refl.
Qed.

Lemma round_half_even_mono (x y : Q) :
  x <= y -> (round_half_even x <= round_half_even y)%Z.
Proof.
  intros H.
  destruct (Z_lt_le_dec (round_half_even y) (round_half_even x)) as [Hlt|Hge];
    [|exact Hge].
  exfalso.
  destruct (round_half_even_close x) as [Hx _].
  destruct (round_half_even_close y) as [_ Hy].
  assert (Hr : inject_Z (round_half_even y + 1) <= inject_Z (round_half_even x))
    by (rewrite <- Zle_Qle; lia).
  rewrite inject_Z_plus in Hr. change (inject_Z 1) with 1 in Hr.
  assert (E : x == y).
  { set (a := inject_Z (round_half_even x)) in *. clearbody a.
    set (b := inject_Z (round_half_even y)) in *. clearbody b.
    apply Qle_antisym; Lqa.lra. }
  rewrite E in Hlt. lia.
Qed.

Lemma pow2_pos (k : Z) : 0 < 2 ^ k.
Proof. apply Qpower_0_lt. reflexivity. Qed.

Lemma pow2_add (a b : Z) : 2 ^ (a + b) == 2 ^ a * 2 ^ b.
Proof. apply Qpower_plus. discriminate. Qed.

Lemma pow2_Z (k : Z) : (0 <= k)%Z -> 2 ^ k == inject_Z (2 ^ k).
Proof. intros H. rewrite Zpower_Qpower by exact H. reflexivity. Qed.

Lemma pow2_le (a b : Z) : (a <= b)%Z -> 2 ^ a <= 2 ^ b.
Proof. intros H. apply Qpower_le_compat_l; [exact H | discriminate]. Qed.

Lemma pow2_div (k q : Z) : 2 ^ k / 2 ^ q == 2 ^ (k - q).
Proof.
  unfold Zminus. rewrite pow2_add, Qpower_opp. reflexivity.
Qed.

(** A rounded multiple of [2 ^ q] does not cross a power of two
    [2 ^ k] with [k >= q]. *)
Lemma scaled_le (q k : Z) (x : Q) :
  (q <= k)%Z -> x <= 2 ^ k ->
  inject_Z (round_half_even (x / 2 ^ q)) * 2 ^ q <= 2 ^ k.
Proof.
  intros Hq Hx.
  assert (Hd : x / 2 ^ q <= inject_Z (2 ^ (k - q))).
  { rewrite <- pow2_Z by lia. rewrite <- pow2_div.
    apply Qmult_le_compat_r; [exact Hx|].
    apply Qlt_le_weak, Qinv_lt_0_compat, pow2_pos. }
  apply round_half_even_le in Hd. rewrite Zle_Qle in Hd.
  rewrite <- pow2_Z in Hd by lia.
  setoid_replace (2 ^ k) with (2 ^ (k - q) * 2 ^ q)
    by (rewrite <- pow2_add; f_equiv; lia).
  apply Qmult_le_compat_r; [exact Hd | apply Qlt_le_weak, pow2_pos].
Qed.

Lemma scaled_ge (q k : Z) (x : Q) :
  (q <= k)%Z -> 2 ^ k <= x ->
  2 ^ k <= inject_Z (round_half_even (x / 2 ^ q)) * 2 ^ q.
Proof.
  intros Hq Hx.
  assert (Hd : inject_Z (2 ^ (k - q)) <= x / 2 ^ q).
  { rewrite <- pow2_Z by lia. rewrite <- pow2_div.
    apply Qmult_le_compat_r; [exact Hx|].
    apply Qlt_le_weak, Qinv_lt_0_compat, pow2_pos. }
  apply round_half_even_ge in Hd. rewrite Zle_Qle in Hd.
  rewrite <- pow2_Z in Hd by lia.
  setoid_replace (2 ^ k) with (2 ^ (k - q) * 2 ^ q)
    by (rewrite <- pow2_add; f_equiv; lia).
  apply Qmult_le_compat_r; [exact Hd | apply Qlt_le_weak, pow2_pos].
Qed.

Lemma ilog2_spec (x : Q) :
  0 < x -> 2 ^ ilog2 x <= x /\ x < 2 ^ (ilog2 x + 1).
Proof.
  intros Hx. unfold ilog2. destruct x as [n d].
  cbn [Qnum Qden].
  assert (Hn : (0 < n)%Z) by (unfold Qlt in Hx; simpl in Hx; lia).
  destruct (Z.log2_spec n Hn) as [Hn1 Hn2].
  destruct (Z.log2_spec (Zpos d) (Pos2Z.is_pos d)) as [Hd1 Hd2].
  pose proof (Z.log2_nonneg n) as Ln. pose proof (Z.log2_nonneg (Zpos d)) as Ld.
  set (ln := Z.log2 n) in *. set (ld := Z.log2 (Zpos d)) in *.
  assert (Hdpos : 0 < inject_Z (Zpos d)) by reflexivity.
  assert (Ex : n # d == inject_Z n / inject_Z (Zpos d)) by apply Qmake_Qdiv.
  assert (Hup : n # d < 2 ^ (ln - ld + 1)).
  { rewrite Ex. apply Qlt_shift_div_r; [exact Hdpos|].
    apply Qlt_le_trans with (2 ^ (ln + 1)).
    - rewrite pow2_Z by lia. rewrite <- Zlt_Qlt. exact Hn2.
    - replace (ln + 1)%Z with ((ln - ld + 1) + ld)%Z by lia.
      rewrite pow2_add. apply Qmult_le_l; [apply pow2_pos|].
      rewrite pow2_Z by lia. rewrite <- Zle_Qle. exact Hd1. }
  assert (Hlo : 2 ^ (ln - ld - 1) <= n # d).
  { rewrite Ex. apply Qle_shift_div_l; [exact Hdpos|].
    apply Qle_trans with (2 ^ ln).
    - replace ln with ((ln - ld - 1) + (ld + 1))%Z at 2 by lia.
      rewrite pow2_add. apply Qmult_le_l; [apply pow2_pos|].
      rewrite pow2_Z by lia. rewrite <- Zle_Qle. lia.
    - rewrite pow2_Z by lia. rewrite <- Zle_Qle. exact Hn1. }
  destruct (Qle_bool (2 ^ (ln - ld)) (n # d)) eqn:E.
  - apply Qle_bool_iff in E. split; assumption.
  - assert (Hlt : n # d < 2 ^ (ln - ld)).
    { apply Qnot_le_lt. intros H. apply Qle_bool_iff in H. congruence. }
    replace (ln - ld - 1 + 1)%Z with (ln - ld)%Z by lia.
    split; assumption.
Qed.

(** Two powers of two that bracket the same number are the same. *)
Lemma ilog2_unique (x : Q) (a : Z) :
  2 ^ a <= x -> x < 2 ^ (a + 1) -> ilog2 x = a.
Proof.
  intros H1 H2.
  assert (Hx : 0 < x) by (apply Qlt_le_trans with (2 ^ a); [apply pow2_pos | exact H1]).
  destruct (ilog2_spec x Hx) as [S1 S2].
  assert (A : (a < ilog2 x + 1)%Z).
  { apply Qpower_lt_compat_l_inv with (q := 2); [|reflexivity].
    apply Qle_lt_trans with x; assumption. }
  assert (B : (ilog2 x < a + 1)%Z).
  { apply Qpower_lt_compat_l_inv with (q := 2); [|reflexivity].
    apply Qle_lt_trans with x; assumption. }
  lia.
Qed.

Lemma ilog2_mono (x y : Q) : 0 < x -> x <= y -> (ilog2 x <= ilog2 y)%Z.
Proof.
  intros Hx Hxy.
  assert (Hy : 0 < y) by (apply Qlt_le_trans with x; assumption).
  destruct (ilog2_spec x Hx) as [S1 _]. destruct (ilog2_spec y Hy) as [_ T2].
  assert (A : (ilog2 x < ilog2 y + 1)%Z).
  { apply Qpower_lt_compat_l_inv with (q := 2); [|reflexivity].
    apply Qle_lt_trans with x; [exact S1|].
    apply Qle_lt_trans with y; assumption. }
  lia.
Qed.

Section Format.

Variables prec emin : Z.
Hypothesis prec_pos : (1 <= prec)%Z.

(** The rounding of a positive number. *)
Lemma round_to_pos (x : Q) :
  0 < x ->
  round_to prec emin x
  = inject_Z (round_half_even
                (x / 2 ^ Z.max (ilog2 x - (prec - 1)) emin))
    * 2 ^ Z.max (ilog2 x - (prec - 1)) emin.
Proof.
  intros Hx. unfold round_to.
  assert (E0 : Qeq_bool x 0 = false).
  { destruct (Qeq_bool x 0) eqn:E; [|reflexivity].
    apply Qeq_bool_iff in E. rewrite E in Hx. discriminate Hx. }
  assert (E1 : Qle_bool 0 x = true) by (apply Qle_bool_iff, Qlt_le_weak, Hx).
  assert (Ea : Qabs x = x).
  { destruct x as [n d]. unfold Qlt in Hx. simpl in Hx. simpl.
    rewrite Z.abs_eq by lia. reflexivity. }
  rewrite E0, E1, Ea. reflexivity.
Qed.

Lemma round_to_neg (x : Q) :
  x < 0 -> round_to prec emin x = - round_to prec emin (- x).
Proof.
  intros Hx.
  assert (Hn : 0 < - x) by Lqa.lra.
  rewrite (round_to_pos (- x) Hn). unfold round_to.
  assert (E0 : Qeq_bool x 0 = false).
  { destruct (Qeq_bool x 0) eqn:E; [|reflexivity].
    apply Qeq_bool_iff in E. rewrite E in Hx. discriminate Hx. }
  assert (E1 : Qle_bool 0 x = false).
  { destruct (Qle_bool 0 x) eqn:E; [|reflexivity].
    apply Qle_bool_iff in E. exfalso. exact (Qlt_not_le _ _ Hx E). }
  assert (Ea : Qabs x = - x).
  { destruct x as [n d]. unfold Qlt in Hx. simpl in Hx. simpl.
    rewrite Z.abs_neq by lia. reflexivity. }
  rewrite E0, E1, Ea. reflexivity.
Qed.

Lemma round_to_zero (x : Q) : x == 0 -> round_to prec emin x = 0.
Proof.
  intros Hx. unfold round_to.
  rewrite (proj2 (Qeq_bool_iff x 0) Hx). reflexivity.
Qed.

Lemma round_to_pos_nonneg (x : Q) : 0 < x -> 0 <= round_to prec emin x.
Proof.
  intros Hx. rewrite (round_to_pos _ Hx).
  apply Qmult_le_0_compat; [|apply Qlt_le_weak, pow2_pos].
  change 0 with (inject_Z 0). rewrite <- Zle_Qle.
  apply round_half_even_ge. change (inject_Z 0) with 0.
  apply Qle_shift_div_l; [apply pow2_pos|]. Lqa.lra.
Qed.

Lemma round_to_pos_mono (x y : Q) :
  0 < x -> x <= y -> round_to prec emin x <= round_to prec emin y.
Proof.
  intros Hx Hxy.
  assert (Hy : 0 < y) by (apply Qlt_le_trans with x; assumption).
  rewrite (round_to_pos x Hx), (round_to_pos y Hy).
  pose proof (ilog2_mono x y Hx Hxy) as He.
  destruct (ilog2_spec x Hx) as [_ X2]. destruct (ilog2_spec y Hy) as [Y1 _].
  set (ex := ilog2 x) in *. set (ey := ilog2 y) in *.
  destruct (Z.eq_dec (Z.max (ex - (prec - 1)) emin) (Z.max (ey - (prec - 1)) emin))
    as [Eq|Neq].
  - rewrite Eq. set (q := Z.max (ey - (prec - 1)) emin).
    apply Qmult_le_compat_r; [|apply Qlt_le_weak, pow2_pos].
    rewrite <- Zle_Qle. apply round_half_even_mono.
    apply Qmult_le_compat_r; [exact Hxy|].
    apply Qlt_le_weak, Qinv_lt_0_compat, pow2_pos.
  - apply Qle_trans with (2 ^ ey).
    + apply scaled_le; [lia|].
      apply Qle_trans with (2 ^ (ex + 1)); [apply Qlt_le_weak, X2|].
      apply pow2_le. lia.
    + apply scaled_ge; [lia | exact Y1].
Qed.

(** Rounding is monotone. *)
Lemma round_to_mono (x y : Q) :
  x <= y -> round_to prec emin x <= round_to prec emin y.
Proof.
  intros Hxy.
  destruct (Q_dec x 0) as [[Hx|Hx]|Hx]; destruct (Q_dec y 0) as [[Hy|Hy]|Hy].
  - rewrite (round_to_neg x Hx), (round_to_neg y Hy).
    apply Qopp_le_compat. apply round_to_pos_mono; Lqa.lra.
  - rewrite (round_to_neg x Hx).
    assert (0 <= round_to prec emin (- x)) by (apply round_to_pos_nonneg; Lqa.lra).
    assert (0 <= round_to prec emin y) by (apply round_to_pos_nonneg; exact Hy).
    Lqa.lra.
  - rewrite (round_to_neg x Hx), (round_to_zero y Hy).
    assert (0 <= round_to prec emin (- x)) by (apply round_to_pos_nonneg; Lqa.lra).
    Lqa.lra.
  - exfalso. Lqa.lra.
  - apply round_to_pos_mono; assumption.
  - exfalso. Lqa.lra.
  - exfalso. Lqa.lra.
  - rewrite (round_to_zero x Hx). apply round_to_pos_nonneg. exact Hy.
  - rewrite (round_to_zero x Hx), (round_to_zero y Hy). apply Qle_refl.
Qed.

#[export] Instance round_to_comp : Proper (Qeq ==> Qeq) (round_to prec emin).
Proof.
  intros x y H. apply Qle_antisym; apply round_to_mono; rewrite H; apply Qle_refl.
Qed.

Hypothesis emin_neg : (emin <= 0)%Z.

(** Integers of at most [prec] bits are representable. *)
Lemma round_to_Z (m : Z) :
  (Z.abs m < 2 ^ prec)%Z -> round_to prec emin (inject_Z m) == inject_Z m.
Proof.
  assert (Hpos : forall k, (0 < k < 2 ^ prec)%Z ->
                 round_to prec emin (inject_Z k) == inject_Z k).
  { intros k [Hk0 Hk1].
    assert (Hx : 0 < inject_Z k) by (change 0 with (inject_Z 0); rewrite <- Zlt_Qlt; exact Hk0).
    rewrite (round_to_pos _ Hx).
    destruct (ilog2_spec _ Hx) as [S1 _].
    assert (He : (ilog2 (inject_Z k) < prec)%Z).
    { apply Qpower_lt_compat_l_inv with (q := 2); [|reflexivity].
      apply Qle_lt_trans with (inject_Z k); [exact S1|].
      rewrite pow2_Z by lia. rewrite <- Zlt_Qlt. exact Hk1. }
    set (q := Z.max (ilog2 (inject_Z k) - (prec - 1)) emin).
    assert (Hq : (q <= 0)%Z) by (unfold q; lia).
    assert (E : inject_Z k / 2 ^ q == inject_Z (k * 2 ^ (- q))).
    { rewrite inject_Z_mult, <- pow2_Z by lia. rewrite Qpower_opp. reflexivity. }
    rewrite E, round_half_even_Z, inject_Z_mult, <- pow2_Z by lia.
    rewrite <- Qmult_assoc, <- pow2_add.
    replace (- q + q)%Z with 0%Z by lia. apply Qmult_1_r. }
  intros Hm. destruct (Z.lt_trichotomy m 0) as [Hneg|[Hz|Hp]].
  - assert (Hx : inject_Z m < 0) by (change 0 with (inject_Z 0); rewrite <- Zlt_Qlt; exact Hneg).
    rewrite (round_to_neg _ Hx).
    rewrite <- inject_Z_opp, Hpos by lia. rewrite inject_Z_opp. ring.
  - subst m. reflexivity.
  - apply Hpos. lia.
Qed.

End Format.

Lemma binary64_mono (x y : Q) : x <= y -> binary64 x <= binary64 y.
Proof. apply round_to_mono. lia. Qed.

#[export] Instance binary64_comp : Proper (Qeq ==> Qeq) binary64.
Proof. apply round_to_comp. lia. Qed.

Lemma binary64_Z (m : Z) :
  (Z.abs m < 2 ^ 53)%Z -> binary64 (inject_Z m) == inject_Z m.
Proof. apply round_to_Z; lia. Qed.

End FloatFacts.


Module ArraysFacts.

Import Float FloatFacts Arrays.
Open Scope Q_scope.

Lemma of_nat_pos (n : nat) : (0 < n)%nat -> 0 < of_nat n.
Proof.
  intros H. unfold of_nat. change 0 with (inject_Z 0).
  rewrite <- Zlt_Qlt. lia.
Qed.

Lemma of_nat_le (m n : nat) : (m <= n)%nat -> of_nat m <= of_nat n.
Proof.
  intros H. unfold of_nat. rewrite <- Zle_Qle. lia.
Qed.

Lemma length_column (i : nat) (a : matrix) : length (column i a) = length a.
Proof. unfold column. apply length_map. Qed.

Lemma ncols_shape (r c : nat) (a : matrix) :
  has_shape r c a -> (0 < r)%nat -> ncols a = c.
Proof.
  intros [Hr Hc] Hpos. destruct a as [|row a]; simpl in *.
  - lia.
  - inversion Hc; assumption.
Qed.

Lemma nth_map_lt {A B} (f : A -> B) (l : list A) (i : nat) (d : B) (d' : A) :
  (i < length l)%nat -> nth i (map f l) d = f (nth i l d').
Proof.
  revert i. induction l as [|a l IH]; intros [|i] Hi; simpl in *; try lia.
  - reflexivity.
  - apply IH. lia.
Qed.

Lemma length_mean_axis0 (a : matrix) : length (mean_axis0 a) = ncols a.
Proof. unfold mean_axis0. rewrite length_map, length_seq. reflexivity. Qed.

Lemma nth_mean_axis0 (a : matrix) (i : nat) :
  (i < ncols a)%nat -> nth i (mean_axis0 a) 0 = mean (column i a).
Proof.
  intros Hi. unfold mean_axis0.
  rewrite (nth_map_lt _ _ 0 O) by (rewrite length_seq; exact Hi).
  rewrite seq_nth by exact Hi. reflexivity.
Qed.

Lemma nth_gt_scalar (v : vector) (k : Q) (i : nat) :
  (i < length v)%nat -> nth i (gt_scalar v k) false = Qgtb (nth i v 0) k.
Proof.
  intros Hi. unfold gt_scalar.
  exact (nth_map_lt (fun x => Qgtb x k) v false 0 Hi).
Qed.

Lemma filter_map_length {A} (f : A -> bool) (l : list A) :
  length (filter (fun v => v) (map f l)) = length (filter f l).
Proof.
  induction l as [|a l IH]; simpl; [reflexivity|].
  destruct (f a); simpl; rewrite IH; reflexivity.
Qed.

Lemma length_fmean_axis0 (fl : Q -> Q) (a : matrix) :
  length (fmean_axis0 fl a) = ncols a.
Proof. unfold fmean_axis0. rewrite length_map, length_seq. reflexivity. Qed.

Lemma nth_fmean_axis0 (fl : Q -> Q) (a : matrix) (i : nat) :
  (i < ncols a)%nat -> nth i (fmean_axis0 fl a) 0 = fmean fl (column i a).
Proof.
  intros Hi. unfold fmean_axis0.
  rewrite (nth_map_lt _ _ 0 O) by (rewrite length_seq; exact Hi).
  rewrite seq_nth by exact Hi. reflexivity.
Qed.

(** A column is the list of the entries of its index, row by row. *)
Lemma column_ext (i : nat) (a : matrix) (v : vector) :
  length v = length a ->
  (forall j, (j < length a)%nat -> nth j v 0 = nth i (nth j a []) 0) ->
  column i a = v.
Proof.
  intros Hlen Hnth. apply (nth_ext _ _ 0 0).
  - rewrite length_column. symmetry. exact Hlen.
  - intros j Hj. rewrite length_column in Hj. rewrite (Hnth j Hj).
    unfold column. apply (nth_map_lt (fun row => nth i row 0) a 0 [] Hj).
Qed.

(** Counting in double precision is exact: a running sum of zeros and
    ones stays a whole number below [2 ^ 53]. *)
Lemma fold_bools (b : list bool) :
  forall (acc : Q) (k : nat),
    acc == of_nat k -> (Z.of_nat (k + length b) < 2 ^ 53)%Z ->
    fold_left (fun a y => binary64 (a + y)) (map bool_to_float b) acc
    == of_nat (k + length (filter (fun v => v) b)).
Proof.
  induction b as [|v b IH]; intros acc k Hacc Hk; simpl.
  - rewrite Nat.add_0_r. exact Hacc.
  - assert (Hle : (length (filter (fun v => v) b) <= length b)%nat)
      by apply filter_length_le.
    assert (Hstep : binary64 (acc + bool_to_float v)
                    == of_nat (k + (if v then 1 else 0))).
    { assert (E : acc + bool_to_float v == of_nat (k + (if v then 1 else 0))).
      { rewrite Hacc. unfold of_nat, bool_to_float.
        rewrite Nat2Z.inj_add, inject_Z_plus. destruct v; reflexivity. }
      rewrite E. unfold of_nat. apply binary64_Z.
      simpl length in Hk. destruct v; lia. }
    rewrite (IH _ (k + (if v then 1 else 0))%nat Hstep)
      by (simpl length in Hk; destruct v; lia).
    destruct v; simpl length; unfold of_nat; f_equiv; f_equal; lia.
Qed.

Lemma fsum_bools (b : list bool) :
  (Z.of_nat (length b) < 2 ^ 53)%Z ->
  fsum binary64 (map bool_to_float b)
  == of_nat (length (filter (fun v => v) b)).
Proof.
  intros Hb. destruct b as [|v b]; [reflexivity|].
  cbn [map fsum].
  rewrite (@fold_bools b (bool_to_float v) (if v then 1 else 0)%nat).
  - destruct v; reflexivity.
  - destruct v; reflexivity.
  - simpl length in Hb. destruct v; lia.
Qed.

End ArraysFacts.

Module PredictionFacts.

Import Float FloatFacts Arrays ArraysFacts Notebook.
Open Scope Q_scope.
Open Scope list_scope.

#[local] Unset Implicit Arguments.

Lemma format_0_1f_close (v : Q) :
  - (1#20) <= v - inject_Z (format_0_1f v) / 10 <= 1#20.
Proof.
  unfold format_0_1f.
  pose proof (round_half_even_close (v * 10)) as [Hlo Hhi].
  set (t := inject_Z (round_half_even (v * 10))) in *. clearbody t.
  split.
  - apply Qle_minus_iff. apply Qle_minus_iff in Hlo.
    setoid_replace (v - t / 10 + - - (1#20)) with ((v * 10 - t + - - (1#2)) / 10) by field.
    apply Qle_shift_div_l; [reflexivity | Lqa.lra].
  - apply Qle_minus_iff. apply Qle_minus_iff in Hhi.
    setoid_replace ((1#20) + - (v - t / 10)) with (((1#2) + - (v * 10 - t)) / 10) by field.
    apply Qle_shift_div_l; [reflexivity | Lqa.lra].
Qed.

Lemma format_0_1f_range (v : Q) :
  0 <= v <= 100 -> (0 <= format_0_1f v <= 1000)%Z.
Proof.
  intros [Hlo Hhi]. unfold format_0_1f. split.
  - apply round_half_even_ge. change (inject_Z 0) with 0. Lqa.lra.
  - apply round_half_even_le. change (inject_Z 1000) with (1000#1). Lqa.lra.
Qed.

Lemma length_filter_map {A B} (g : B -> bool) (h : A -> B) (l : list A) :
  length (filter g (map h l)) = length (filter (fun x => g (h x)) l).
Proof.
  induction l as [|a l IH]; simpl; [reflexivity|].
  destruct (g (h a)); simpl; rewrite IH; reflexivity.
Qed.

(** Counting the pairs of two lists of equal length that pass a test is
    counting the positions whose two entries pass it. *)
Lemma count_pairs {A B} (f : A * B -> bool) (dA : A) (dB : B) (l1 : list A) :
  forall l2 : list B,
    length l2 = length l1 ->
    length (filter f (combine l1 l2))
    = length (filter (fun i => f (nth i l1 dA, nth i l2 dB)) (seq 0 (length l1))).
Proof.
  induction l1 as [|a l1 IH]; intros [|b l2] Hlen; try discriminate Hlen;
    [reflexivity|].
  injection Hlen as Hlen. specialize (IH l2 Hlen).
  cbn [combine filter length seq nth]. rewrite <- seq_shift.
  destruct (f (a, b)); cbn [length]; rewrite length_filter_map, IH; reflexivity.
Qed.

Lemma agreements_positions (y_test : vector) (pred : list bool) :
  length pred = length y_test ->
  agreements y_test pred
  = length (filter (fun i => Qeq_bool (nth i y_test 0)
                                      (bool_to_float (nth i pred false)))
                   (seq 0 (length y_test))).
Proof.
  intros Hlen. unfold agreements.
  exact (count_pairs (fun yp => Qeq_bool (fst yp) (bool_to_float (snd yp)))
           0 false y_test pred Hlen).
Qed.

(** The accuracy is the count of agreements divided by the number of
    labels and multiplied by 100, each operation rounded. *)
Lemma accuracy_value (y_test : vector) (pred : list bool) :
  (Z.of_nat (length (combine y_test pred)) < 2 ^ 53)%Z ->
  accuracy y_test pred ==
  binary64 (binary64 (of_nat (agreements y_test pred)
                      / of_nat (length (combine y_test pred))) * 100).
Proof.
  intros Hn. unfold accuracy, fmean, agreements, eq_float_bool.
  rewrite fsum_bools by (rewrite !length_map; exact Hn).
  rewrite !length_map, filter_map_length. reflexivity.
Qed.

Lemma binary64_unit (q : Q) : 0 <= q <= 1 -> 0 <= binary64 q <= 1.
Proof.
  intros [H0 H1]. split.
  - rewrite <- (binary64_Z 0) by reflexivity. apply binary64_mono. exact H0.
  - rewrite <- (binary64_Z 1) by reflexivity. apply binary64_mono. exact H1.
Qed.

Lemma binary64_percent (q : Q) : 0 <= q <= 1 -> 0 <= binary64 (q * 100) <= 100.
Proof.
  intros [H0 H1]. split.
  - rewrite <- (binary64_Z 0) by reflexivity. apply binary64_mono.
    change (inject_Z 0) with 0. Lqa.lra.
  - apply Qle_trans with (binary64 (inject_Z 100)).
    + apply binary64_mono. change (inject_Z 100) with (100#1). Lqa.lra.
    + rewrite binary64_Z by reflexivity. apply Qle_refl.
Qed.

Lemma accuracy_bounds (y_test : vector) (pred : list bool) :
  (0 < length (combine y_test pred))%nat ->
  (Z.of_nat (length (combine y_test pred)) < 2 ^ 53)%Z ->
  0 <= accuracy y_test pred <= 100.
Proof.
  intros Hn Hb. rewrite (accuracy_value y_test pred Hb).
  apply binary64_percent. apply binary64_unit.
  pose proof (of_nat_pos Hn) as Hpos.
  assert (Hle : (agreements y_test pred <= length (combine y_test pred))%nat)
    by (unfold agreements; apply filter_length_le).
  apply of_nat_le in Hle.
  assert (H0 : 0 <= of_nat (agreements y_test pred))
    by (change 0 with (of_nat 0); apply of_nat_le; lia).
  split.
  - apply Qle_shift_div_l; [exact Hpos | Lqa.lra].
  - apply Qle_shift_div_r; [exact Hpos | Lqa.lra].
Qed.

Lemma length_pred_of (fl : Q -> Q) (proba : matrix) :
  length (pred_of fl proba) = ncols proba.
Proof.
  unfold pred_of, gt_scalar. rewrite length_map. apply length_fmean_axis0.
Qed.

Lemma nth_pred_of (fl : Q -> Q) (proba : matrix) (i : nat) :
  (i < ncols proba)%nat ->
  nth i (pred_of fl proba) false = Qgtb (fmean fl (column i proba)) (1#2).
Proof.
  intros Hi. unfold pred_of.
  rewrite nth_gt_scalar by (rewrite length_fmean_axis0; exact Hi).
  rewrite nth_fmean_axis0 by exact Hi. reflexivity.
Qed.

(** C1.  For a sampled probability array of shape (500, n) in a float
    format that rounds by [fl], and n test labels, 1 < n < 2^53 (the
    notebook has n = 300): row [i] of the test set gets label 1 exactly
    when the mean of its 500 sampled probabilities exceeds 1/2, and a
    mean of exactly 1/2 gives label 0.  The mean is the one the code
    computes, the 500 values added one after the other (the rows of an
    array of several columns are added into the result in turn) and the
    sum divided by 500, each operation rounded; the 500 values of row
    [i] are entry [i] of each sample.  The accuracy
    handed to the format is the number of test labels equal to the
    predicted labels divided by n and multiplied by 100, in double
    precision, a value between 0 and 100.  The format shows it to one
    decimal: the tenths shown lie between 0 and 1000 and differ from the
    value by at most 1/20. *)
Theorem prediction_and_accuracy (fl : Q -> Q) (proba : matrix)
    (y_test : vector) (n : nat) :
  has_shape 500 n proba -> length y_test = n -> (1 < n)%nat ->
  (Z.of_nat n < 2 ^ 53)%Z ->
  let pred := pred_of fl proba in
  let agree := fun i => Qeq_bool (nth i y_test 0)
                                 (bool_to_float (nth i pred false)) in
  length pred = n /\
  (forall (i : nat) (samples : vector),
     (i < n)%nat -> length samples = 500%nat ->
     (forall j, (j < 500)%nat -> nth j samples 0 = nth i (nth j proba []) 0) ->
     fmean fl samples
     = fl (fold_left (fun acc v => fl (acc + v)) (tl samples) (hd 0 samples)
           / of_nat 500) /\
     (nth i pred false = true <-> 1#2 < fmean fl samples) /\
     (fmean fl samples == 1#2 -> nth i pred false = false)) /\
  accuracy y_test pred
  == binary64 (binary64 (of_nat (length (filter agree (seq 0 n))) / of_nat n)
               * 100) /\
  0 <= accuracy y_test pred <= 100 /\
  (0 <= format_0_1f (accuracy y_test pred) <= 1000)%Z /\
  - (1#20) <= accuracy y_test pred
              - inject_Z (format_0_1f (accuracy y_test pred)) / 10 <= 1#20.
Proof.
  intros Hshape Hy Hcols Hb pred agree.
  assert (Hn : (0 < n)%nat) by lia.
  assert (Hc : ncols proba = n) by (apply (ncols_shape Hshape); lia).
  assert (Hlen : length pred = n)
    by (unfold pred; rewrite length_pred_of; exact Hc).
  assert (Hzip : length (combine y_test pred) = n)
    by (rewrite length_combine, Hy, Hlen; apply Nat.min_id).
  assert (Hacc : 0 <= accuracy y_test pred <= 100)
    by (apply accuracy_bounds; rewrite Hzip; assumption).
  split; [exact Hlen|].
  split.
  { intros i samples Hi Hs Hnth.
    assert (Ecol : column i proba = samples).
    { destruct Hshape as [Hr _]. apply column_ext.
      - rewrite Hr. exact Hs.
      - rewrite Hr. exact Hnth. }
    assert (Hpred : nth i pred false = Qgtb (fmean fl samples) (1#2))
      by (unfold pred; rewrite nth_pred_of by (rewrite Hc; exact Hi);
          rewrite Ecol; reflexivity).
    split; [|split].
    - unfold fmean. rewrite Hs.
      destruct samples as [|s0 samples]; [discriminate Hs | reflexivity].
    - rewrite Hpred. apply Qgtb_lt.
    - intros Heq. rewrite Hpred.
      destruct (Qgtb (fmean fl samples) (1#2)) eqn:E; [|reflexivity].
      apply Qgtb_lt in E. rewrite Heq in E.
      exfalso. exact (Qlt_irrefl _ E). }
  split.
  { rewrite accuracy_value by (rewrite Hzip; exact Hb).
    rewrite Hzip, agreements_positions by (rewrite Hlen, Hy; reflexivity).
    rewrite Hy. reflexivity. }
  split; [exact Hacc|].
  split; [apply format_0_1f_range; exact Hacc | apply format_0_1f_close].
Qed.

Lemma prediction_and_accuracy_witness :
  has_shape 500 2 (repeat [1#2; 3#4] 499 ++ [[(1#2) + 1 / 2 ^ 53; 3#4]]) /\
  length [0; 1] = 2%nat /\ (1 < 2)%nat /\ (Z.of_nat 2 < 2 ^ 53)%Z /\
  length (pred_of binary64 (repeat [1#2; 3#4] 499 ++ [[(1#2) + 1 / 2 ^ 53; 3#4]]))
  = 2%nat /\
  0 <= accuracy [0; 1]
         (pred_of binary64 (repeat [1#2; 3#4] 499 ++ [[(1#2) + 1 / 2 ^ 53; 3#4]]))
    <= 100.
Proof.
  assert (Hshape : has_shape 500 2
                     (repeat [1#2; 3#4] 499 ++ [[(1#2) + 1 / 2 ^ 53; 3#4]])).
  { split; [rewrite length_app, repeat_length; reflexivity|].
    apply Forall_app. split; [|repeat constructor].
    apply Forall_forall. intros r Hr. apply repeat_spec in Hr.
    subst r. reflexivity. }
  assert (Hb : (Z.of_nat 2 < 2 ^ 53)%Z) by reflexivity.
  split; [exact Hshape|]. split; [reflexivity|]. split; [lia|].
  split; [exact Hb|].
  pose proof (prediction_and_accuracy binary64
                (repeat [1#2; 3#4] 499 ++ [[(1#2) + 1 / 2 ^ 53; 3#4]]) [0; 1] 2%nat
                Hshape eq_refl (Nat.lt_succ_diag_r 1) Hb) as H.
  cbv zeta in H. split; [exact (proj1 H)|].
  exact (proj1 (proj2 (proj2 (proj2 H)))).
Defined.

End PredictionFacts.

Module RandomFacts.

Import State Arrays NumpyRandom.
Open Scope nat_scope.

Lemma length_set_nth {A} (i : nat) (v : A) (l : list A) :
  length (set_nth i v l) = length l.
Proof.
  revert i. induction l as [|h t IH]; intros [|i]; simpl; auto.
Qed.

Lemma nth_error_set_nth {A} (i : nat) (v : A) (l : list A) (n : nat) :
  i < length l ->
  nth_error (set_nth i v l) n = if n =? i then Some v else nth_error l n.
Proof.
  revert i n. induction l as [|h t IH]; intros [|i] [|n] Hi; simpl in *;
    try lia; try reflexivity.
  apply IH. lia.
Qed.

Lemma length_swap {A} (d : A) (i j : nat) (x : list A) :
  length (swap d i j x) = length x.
Proof. unfold swap. rewrite !length_set_nth. reflexivity. Qed.

Lemma transposition_injective (i j : nat) : Injective (transposition i j).
Proof.
  intros a b. unfold transposition.
  destruct (a =? j) eqn:Ea, (a =? i) eqn:Ea', (b =? j) eqn:Eb, (b =? i) eqn:Eb';
    rewrite ?Nat.eqb_eq, ?Nat.eqb_neq in *; lia.
Qed.

Lemma swap_permutation {A} (d : A) (i j : nat) (x : list A) :
  i < length x -> j < length x -> Permutation x (swap d i j x).
Proof.
  intros Hi Hj. apply Permutation_nth_error. split.
  - symmetry. apply length_swap.
  - exists (transposition i j). split; [apply transposition_injective|].
    intros n. unfold swap, transposition.
    rewrite nth_error_set_nth by (rewrite length_set_nth; exact Hj).
    rewrite nth_error_set_nth by exact Hi.
    destruct (n =? j) eqn:Ej.
    + symmetry. apply nth_error_nth'. exact Hi.
    + destruct (n =? i) eqn:Ei; [|reflexivity].
      symmetry. apply nth_error_nth'. exact Hj.
Qed.

Lemma random_interval_le (max : nat) (g : RandomState) :
  fst (random_interval max g) <= max.
Proof.
  unfold random_interval. simpl.
  pose proof (Nat.mod_upper_bound (int_tape g (int_pos g)) (S max)). lia.
Qed.

Lemma shuffle_from_permutation {A} (d : A) (i : nat) :
  forall (x : list A) (g : RandomState),
    i < length x -> Permutation x (fst (shuffle_from d i x g)).
Proof.
  induction i as [|i IH]; intros x g Hi; simpl.
  - apply Permutation_refl.
  - unfold bind.
    pose proof (random_interval_le (S i) g) as Hj.
    destruct (random_interval (S i) g) as [j g']. simpl in Hj.
    eapply perm_trans.
    + apply (swap_permutation d (i := S i) (j := j)); lia.
    + apply IH. rewrite length_swap. lia.
Qed.

Lemma shuffle_permutation {A} (d : A) (x : list A) (g : RandomState) :
  Permutation x (fst (shuffle d x g)).
Proof.
  unfold shuffle. destruct x as [|a x].
  - simpl. apply Permutation_refl.
  - apply shuffle_from_permutation. simpl. lia.
Qed.

Lemma permutation_spec (n : nat) (g : RandomState) :
  Permutation (seq 0 n) (fst (permutation n g)).
Proof. apply shuffle_permutation. Qed.

Lemma shuffled_indices_in_range (n : nat) (g : RandomState) :
  Forall (fun i => i < n) (fst (shuffle O (seq 0 n) g)).
Proof.
  apply Forall_forall. intros i Hi.
  apply (Permutation_in _ (Permutation_sym (shuffle_permutation O (seq 0 n) g))) in Hi.
  apply in_seq in Hi. lia.
Qed.

Lemma length_shuffled_indices (n : nat) (g : RandomState) :
  length (fst (shuffle O (seq 0 n) g)) = n.
Proof.
  rewrite <- (Permutation_length (shuffle_permutation O (seq 0 n) g)).
  apply length_seq.
Qed.

Lemma length_take {A} (d : A) (a : list A) (indices : list nat) :
  length (take d a indices) = length indices.
Proof. apply length_map. Qed.

Lemma Forall_take {A} (P : A -> Prop) (d : A) (a : list A) (indices : list nat) :
  Forall P a -> Forall (fun i => i < length a) indices ->
  Forall P (take d a indices).
Proof.
  intros Ha Hi. unfold take. apply Forall_map.
  eapply Forall_impl; [|exact Hi].
  intros i Hlt. rewrite Forall_forall in Ha. apply Ha. apply nth_In. exact Hlt.
Qed.

Lemma length_replicateM {A} (n : nat) (c : Rand A) (g : RandomState) :
  length (fst (replicateM n c g)) = n.
Proof.
  revert g. induction n as [|n IH]; intros g; simpl; [reflexivity|].
  unfold bind. destruct (c g) as [a g1].
  specialize (IH g1). destruct (replicateM n c g1) as [l g2].
  simpl in *. congruence.
Qed.

Lemma Forall_replicateM {A} (P : A -> Prop) (n : nat) (c : Rand A) :
  (forall g, P (fst (c g))) ->
  forall g, Forall P (fst (replicateM n c g)).
Proof.
  intros Hc. induction n as [|n IH]; intros g; simpl; [constructor|].
  unfold bind. specialize (Hc g). destruct (c g) as [a g1].
  specialize (IH g1). destruct (replicateM n c g1) as [l g2].
  simpl in *. constructor; assumption.
Qed.

Lemma randn2_shape (r c : nat) (g : RandomState) :
  has_shape r c (fst (randn2 r c g)).
Proof.
  split.
  - apply length_replicateM.
  - apply Forall_replicateM. intros g'. apply length_replicateM.
Qed.

Lemma normal_shape (s : Q) (r c : nat) (g : RandomState) :
  has_shape r c (fst (normal s r c g)).
Proof.
  unfold normal, bind. pose proof (randn2_shape r c g) as [Hr Hc].
  destruct (randn2 r c g) as [z g']. simpl in *. split.
  - rewrite length_map. exact Hr.
  - apply Forall_map. eapply Forall_impl; [|exact Hc].
    intros row Hrow. simpl. rewrite length_map. exact Hrow.
Qed.

End RandomFacts.

Module SklearnFacts.

Import State Arrays ArraysFacts NumpyRandom RandomFacts Sklearn.
Open Scope nat_scope.

Lemma length_linspace (a b : Q) (n : nat) : length (linspace a b n) = n.
Proof. unfold linspace. rewrite length_map. apply length_seq. Qed.

Lemma vstack_T_shape (xs ys : vector) :
  has_shape (Nat.min (length xs) (length ys)) 2 (vstack_T xs ys).
Proof.
  unfold vstack_T. split.
  - rewrite length_map. apply length_combine.
  - apply Forall_map. apply Forall_forall. intros p _. reflexivity.
Qed.

Lemma madd_shape (r c : nat) (a b : matrix) :
  has_shape r c a -> has_shape r c b -> has_shape r c (madd a b).
Proof.
  intros [Ha Hca] [Hb Hcb]. unfold madd. split.
  - rewrite length_map, length_combine. lia.
  - apply Forall_map. apply Forall_forall. intros [ra rb] Hin. simpl.
    rewrite length_map, length_combine.
    rewrite Forall_forall in Hca, Hcb.
    rewrite (Hca ra (in_combine_l _ _ _ _ Hin)).
    rewrite (Hcb rb (in_combine_r _ _ _ _ Hin)).
    apply Nat.min_id.
Qed.

Lemma take_shape (c : nat) (a : matrix) (indices : list nat) :
  Forall (fun row => length row = c) a ->
  Forall (fun i => i < length a) indices ->
  has_shape (length indices) c (take [] a indices).
Proof.
  intros Ha Hi. split.
  - apply length_take.
  - apply Forall_take; assumption.
Qed.

Section Routines.

Variables cos_f sin_f sqrt_f : Q -> Q.
Variable pi_f : Q.

Lemma make_moons_shape (n : nat) (noise : Q) (g : RandomState) :
  let Xy := fst (make_moons cos_f sin_f pi_f n noise g) in
  has_shape n 2 (fst Xy) /\ length (snd Xy) = n /\ Forall binary (snd Xy).
Proof.
  unfold make_moons, bind, ret.
  pose proof (shuffled_indices_in_range n g) as Hrange.
  pose proof (length_shuffled_indices n g) as Hlen.
  destruct (shuffle O (seq 0 n) g) as [indices g1]. simpl in Hrange, Hlen.
  set (n_out := n / 2) in *.
  assert (Hout : n_out + (n - n_out) = n).
  { assert (n_out <= n) by (apply Nat.Div0.div_le_upper_bound; lia). lia. }
  set (X0 := vstack_T _ _).
  assert (HX0 : has_shape n 2 X0).
  { pose proof (vstack_T_shape
      (map cos_f (linspace 0 pi_f n_out)
       ++ map (fun t => (1 - cos_f t)%Q) (linspace 0 pi_f (n - n_out)))
      (map sin_f (linspace 0 pi_f n_out)
       ++ map (fun t => (1 - sin_f t - (1#2))%Q) (linspace 0 pi_f (n - n_out)))) as H.
    rewrite !length_app, !length_map, !length_linspace, Hout, Nat.min_id in H.
    exact H. }
  destruct HX0 as [HX0r HX0c].
  assert (Htake : has_shape n 2 (take [] X0 indices)).
  { rewrite <- Hlen at 1. apply take_shape; [exact HX0c|].
    rewrite HX0r. exact Hrange. }
  pose proof (normal_shape noise (nrows (take [] X0 indices)) 2 g1) as He.
  destruct (normal noise (nrows (take [] X0 indices)) 2 g1) as [e g2].
  simpl in *.
  assert (Hn : nrows (take [] X0 indices) = n) by (apply Htake).
  rewrite Hn in He.
  split; [apply madd_shape; assumption|].
  split; [rewrite length_take; exact Hlen|].
  apply Forall_take.
  - apply Forall_app. split; apply Forall_forall; intros v Hv;
      apply repeat_spec in Hv; subst v; [left|right]; reflexivity.
  - rewrite length_app, !repeat_length, Hout. exact Hrange.
Qed.

Lemma scale_shape (r c : nat) (X : matrix) :
  has_shape r c X -> has_shape r c (scale sqrt_f X).
Proof.
  intros [Hr Hc]. unfold scale. split.
  - rewrite length_map. exact Hr.
  - apply Forall_map.
    destruct X as [|row0 X']; [constructor|].
    assert (Hcols : ncols (row0 :: X') = c) by (inversion Hc; assumption).
    eapply Forall_impl; [|exact Hc].
    intros row Hrow. cbv beta.
    rewrite length_map, !length_combine, length_mean_axis0, length_map, length_seq.
    rewrite Hcols, Hrow. lia.
Qed.

End Routines.

Lemma n_test_1000 : n_test_of (3#10) 1000 = 300.
Proof. reflexivity. Qed.

Lemma n_train_1000 : n_train_of (3#10) 1000 = 700.
Proof. reflexivity. Qed.

Lemma shuffle_split_partition (n n_test n_train : nat) (g : RandomState) :
  n_test + n_train = n ->
  let parts := fst (shuffle_split n n_test n_train g) in
  Permutation (seq 0 n) (snd parts ++ fst parts) /\
  length (snd parts) = n_test /\ length (fst parts) = n_train.
Proof.
  intros Hsum. unfold shuffle_split, bind, ret.
  pose proof (permutation_spec n g) as Hperm.
  destruct (permutation n g) as [perm g1]. simpl in *.
  assert (Hlen : length perm = n)
    by (rewrite <- (Permutation_length Hperm); apply length_seq).
  assert (Hall : firstn n_train (skipn n_test perm) = skipn n_test perm)
    by (apply firstn_all2; rewrite length_skipn; lia).
  rewrite Hall, firstn_skipn.
  split; [exact Hperm|].
  split; [rewrite length_firstn | rewrite length_skipn]; lia.
Qed.

Lemma take_combine {A B} (dA : A) (dB : B) (a : list A) (b : list B) (idx : list nat) :
  length a = length b ->
  combine (take dA a idx) (take dB b idx) = take (dA, dB) (combine a b) idx.
Proof.
  intros Hab. unfold take. induction idx as [|i idx IH]; simpl; [reflexivity|].
  rewrite IH, combine_nth by exact Hab. reflexivity.
Qed.

Lemma take_seq {A} (d : A) (a : list A) : take d a (seq 0 (length a)) = a.
Proof.
  unfold take. apply nth_ext with (d := d) (d' := d).
  - rewrite length_map, length_seq. reflexivity.
  - intros i Hi. rewrite length_map, length_seq in Hi.
    rewrite (nth_map_lt _ _ d O) by (rewrite length_seq; exact Hi).
    rewrite seq_nth by exact Hi. reflexivity.
Qed.

Lemma take_app {A} (d : A) (a : list A) (i1 i2 : list nat) :
  take d a (i1 ++ i2) = take d a i1 ++ take d a i2.
Proof. apply map_app. Qed.

Lemma take_permutation {A} (d : A) (a : list A) (idx : list nat) :
  Permutation (seq 0 (length a)) idx -> Permutation a (take d a idx).
Proof.
  intros H. rewrite <- (take_seq d a) at 1. unfold take.
  apply Permutation_map. exact H.
Qed.

End SklearnFacts.

Module SplitFacts.

Import State Arrays ArraysFacts NumpyRandom RandomFacts Sklearn SklearnFacts.
Open Scope nat_scope.

Lemma train_test_split_spec (X : matrix) (y : vector) (test_size : Q) (g : RandomState) :
  length y = length X ->
  n_test_of test_size (length X) <= length X ->
  let s := fst (train_test_split X y test_size g) in
  exists train test : list nat,
    Permutation (seq 0 (length X)) (test ++ train) /\
    length test = n_test_of test_size (length X) /\
    length train = n_train_of test_size (length X) /\
    X_train s = take [] X train /\ y_train s = take 0%Q y train /\
    X_test s = take [] X test /\ y_test s = take 0%Q y test.
Proof.
  intros Hy Hle. unfold train_test_split, bind, ret.
  pose proof (@shuffle_split_partition (length X)
                (n_test_of test_size (length X))
                (n_train_of test_size (length X)) g) as Hparts.
  destruct (shuffle_split _ _ _ g) as [[train test] g1]. simpl in *.
  destruct Hparts as (Hperm & Htest & Htrain); [unfold n_train_of; lia|].
  exists train, test. repeat split; assumption.
Qed.

Lemma split_pairs (X : matrix) (y : vector) (train test : list nat) :
  length y = length X ->
  Permutation (seq 0 (length X)) (test ++ train) ->
  Permutation (combine X y)
    (combine (take [] X train) (take 0%Q y train)
     ++ combine (take [] X test) (take 0%Q y test)).
Proof.
  intros Hy Hperm.
  rewrite !take_combine by (symmetry; exact Hy).
  rewrite <- take_app.
  apply take_permutation.
  rewrite length_combine, Hy, Nat.min_id.
  eapply perm_trans; [exact Hperm | apply Permutation_app_comm].
Qed.

End SplitFacts.

Module NotebookFacts.

Import State Arrays ArraysFacts NumpyRandom RandomFacts Sklearn SklearnFacts.
Import SplitFacts Theano PyMC Notebook.
Open Scope nat_scope.
Open Scope string_scope.

Section Cells.

Variables cos_f sin_f sqrt_f tanh_f sigmoid_f floatX : Q -> Q.
Variable pi_f : Q.
Variable Approx : Type.
Variable fit : Model -> env Q -> N -> Rand Approx.
Variable posterior_draws : Approx -> nat -> list (env Q) * Approx.

Lemma cell2_shape (g : RandomState) :
  let Xy := fst (cell2 cos_f sin_f sqrt_f pi_f g) in
  has_shape 1000 2 (fst Xy) /\ length (snd Xy) = 1000 /\ Forall binary (snd Xy).
Proof.
  unfold cell2, bind, ret.
  pose proof (make_moons_shape cos_f sin_f pi_f 1000 (1#5) g) as H.
  destruct (make_moons cos_f sin_f pi_f 1000 (1#5) g) as [[X y] g1].
  simpl in *. destruct H as (HX & Hy & Hb).
  repeat split; try assumption; apply (scale_shape sqrt_f HX).
Qed.

Lemma astype_floatX_shape (r c : nat) (a : matrix) :
  has_shape r c a -> has_shape r c (astype_floatX floatX a).
Proof.
  intros [Hr Hc]. unfold astype_floatX. split.
  - rewrite length_map. exact Hr.
  - apply Forall_map. eapply Forall_impl; [|exact Hc].
    intros row Hrow. simpl. rewrite length_map. exact Hrow.
Qed.

(** What cell 3 leaves, for a dataset of 1000 rows. *)
Lemma cell3_spec (X0 : matrix) (y0 : list Z) (g : RandomState) :
  has_shape 1000 2 X0 -> length y0 = 1000 ->
  let r := fst (cell3 floatX X0 y0 g) in
  let X := fst (fst r) in
  let y := snd (fst r) in
  let s := snd r in
  X = astype_floatX floatX X0 /\
  y = map (fun v => floatX (inject_Z v)) y0 /\
  has_shape 1000 2 X /\ length y = 1000 /\
  exists train test : list nat,
    Permutation (seq 0 1000) (test ++ train) /\
    length test = 300 /\ length train = 700 /\
    X_train s = take [] X train /\ y_train s = take 0%Q y train /\
    X_test s = take [] X test /\ y_test s = take 0%Q y test.
Proof.
  intros HX0 Hy0. unfold cell3, bind, ret.
  set (X := astype_floatX floatX X0).
  set (y := map (fun v => floatX (inject_Z v)) y0).
  assert (HX : has_shape 1000 2 X) by (apply astype_floatX_shape; exact HX0).
  assert (Hy : length y = 1000) by (unfold y; rewrite length_map; exact Hy0).
  assert (HlenX : length X = 1000) by (apply HX).
  assert (Hle : 300 <= 1000) by (apply Nat.leb_le; reflexivity).
  pose proof (@train_test_split_spec X y (3#10) g) as Hspec.
  cbv zeta in Hspec.
  rewrite HlenX, n_test_1000, n_train_1000 in Hspec.
  specialize (Hspec Hy Hle).
  destruct (train_test_split X y (3#10) g) as [s g1].
  cbn [fst snd] in *.
  split; [reflexivity|]. split; [reflexivity|].
  split; [exact HX|]. split; [exact Hy | exact Hspec].
Qed.

(** C3.  On every stream, the dataset [make_moons] returns, and the
    dataset after scaling, is a feature matrix of exactly 1000 rows and 2
    columns with a vector of 1000 labels, each 0 or 1. *)
Theorem dataset_shape (g : RandomState) :
  let moons := fst (make_moons cos_f sin_f pi_f 1000 (1#5) g) in
  let Xy := fst (cell2 cos_f sin_f sqrt_f pi_f g) in
  (has_shape 1000 2 (fst moons) /\ length (snd moons) = 1000
   /\ Forall binary (snd moons)) /\
  (has_shape 1000 2 (fst Xy) /\ length (snd Xy) = 1000
   /\ Forall binary (snd Xy)).
Proof.
  split.
  - apply make_moons_shape.
  - apply cell2_shape.
Qed.

(** C4.  On every stream, splitting the scaled, cast dataset of 1000
    rows with [test_size=.3] gives 300 test rows and 700 training rows,
    with as many labels; the two sets are the rows at two index lists that
    together hold every index below 1000 exactly once, rows and labels
    taken at the same indices; so the (row, label) pairs of the two sets
    together are a rearrangement of the pairs of the dataset. *)
Theorem split_is_partition (g : RandomState) :
  let c2 := cell2 cos_f sin_f sqrt_f pi_f g in
  let r := fst (cell3 floatX (fst (fst c2)) (snd (fst c2)) (snd c2)) in
  let X := fst (fst r) in
  let y := snd (fst r) in
  let s := snd r in
  has_shape 1000 2 X /\ length y = 1000 /\
  length (X_test s) = 300 /\ length (y_test s) = 300 /\
  length (X_train s) = 700 /\ length (y_train s) = 700 /\
  Permutation (combine X y)
    (combine (X_train s) (y_train s) ++ combine (X_test s) (y_test s)) /\
  exists train test : list nat,
    Permutation (seq 0 1000) (test ++ train) /\ NoDup (test ++ train) /\
    X_train s = take [] X train /\ y_train s = take 0%Q y train /\
    X_test s = take [] X test /\ y_test s = take 0%Q y test.
Proof.
  intros c2.
  pose proof (cell2_shape g) as (HX0 & Hy0 & _). fold c2 in HX0, Hy0.
  pose proof (@cell3_spec (fst (fst c2)) (snd (fst c2)) (snd c2) HX0 Hy0) as H.
  cbv zeta in H. cbv zeta.
  destruct H as (_ & _ & HX & Hy & train & test & Hperm & Hte & Htr & E1 & E2 & E3 & E4).
  split; [exact HX|]. split; [exact Hy|].
  rewrite E1, E2, E3, E4, !length_take.
  repeat (split; [assumption|]).
  assert (HlenX : length (fst (fst (fst (cell3 floatX (fst (fst c2)) (snd (fst c2)) (snd c2))))) = 1000)
    by (apply HX).
  split.
  - apply split_pairs; [rewrite Hy, HlenX; reflexivity | rewrite HlenX; exact Hperm].
  - exists train, test. repeat split; try reflexivity; try assumption.
    apply (Permutation_NoDup Hperm). apply seq_NoDup.
Qed.

End Cells.

End NotebookFacts.

Module ModelFacts.

Import State Arrays ArraysFacts NumpyRandom RandomFacts Sklearn SklearnFacts.
Import SplitFacts Theano PyMC Notebook NotebookFacts.
Open Scope nat_scope.
Open Scope string_scope.

Lemma neural_network_weights (X : matrix) (y_train : vector)
    (init_1 init_2 : matrix) (init_out : vector) :
  let m := neural_network X y_train init_1 init_2 init_out in
  map declaration (free_RVs m) = declared_weights (ncols X) /\
  Forall gaussian (free_RVs m) /\
  map rv_name (observed_RVs m) = ["out"] /\
  map rv_distribution (observed_RVs m)
  = [BernoulliDist (act_out (RandomVar "w_in_1") (RandomVar "w_1_2") (RandomVar "w_2_out"))].
Proof.
  cbv zeta. repeat split.
  repeat constructor; eexists; eexists; reflexivity.
Qed.

Section Cells.

Variables cos_f sin_f sqrt_f floatX : Q -> Q.
Variable pi_f : Q.
Variable Approx : Type.
Variable fit : Model -> env Q -> N -> Rand Approx.

(** The kernel after cell 6, cell by cell. *)
Lemma draw_inputs_stages (g : RandomState) :
  let i := fst (draw_inputs cos_f sin_f sqrt_f floatX pi_f fit g) in
  let c2 := cell2 cos_f sin_f sqrt_f pi_f g in
  let c3 := cell3 floatX (fst (fst c2)) (snd (fst c2)) (snd c2) in
  let c4 := cell4 floatX (fst (fst (fst c3))) (snd c3) in
  in_X i = fst (fst (fst c3)) /\
  in_y_int i = snd (fst c2) /\
  in_y i = snd (fst (fst c3)) /\
  in_split i = snd (fst c3) /\
  in_init_1 i = fst (fst (fst c4)) /\
  in_init_2 i = snd (fst (fst c4)) /\
  in_init_out i = snd (fst c4) /\
  in_neural_network i
  = neural_network (in_X i) (y_train (in_split i))
      (in_init_1 i) (in_init_2 i) (in_init_out i).
Proof.
  unfold draw_inputs, bind, ret.
  destruct (cell2 cos_f sin_f sqrt_f pi_f g) as [Xy g1]. simpl.
  destruct (cell3 floatX (fst Xy) (snd Xy) g1) as [Xys g2]. simpl.
  destruct (cell4 floatX (fst (fst Xys)) g2) as [inits g3]. simpl.
  destruct (fit _ _ _ g3) as [approx g4]. simpl.
  repeat split.
Qed.

Lemma draw_inputs_scaled (g : RandomState) :
  in_X_scaled (fst (draw_inputs cos_f sin_f sqrt_f floatX pi_f fit g))
  = fst (fst (cell2 cos_f sin_f sqrt_f pi_f g)).
Proof.
  unfold draw_inputs, bind, ret.
  destruct (cell2 cos_f sin_f sqrt_f pi_f g) as [Xy g1]. simpl.
  destruct (cell3 floatX (fst Xy) (snd Xy) g1) as [Xys g2]. simpl.
  destruct (cell4 floatX (fst (fst Xys)) g2) as [inits g3]. simpl.
  destruct (fit _ _ _ g3) as [approx g4]. reflexivity.
Qed.

Lemma draw_inputs_scaled_shape (g : RandomState) :
  has_shape 1000 2
    (in_X_scaled (fst (draw_inputs cos_f sin_f sqrt_f floatX pi_f fit g))).
Proof.
  rewrite draw_inputs_scaled. apply cell2_shape.
Qed.

Lemma draw_inputs_shapes (g : RandomState) :
  let i := fst (draw_inputs cos_f sin_f sqrt_f floatX pi_f fit g) in
  has_shape 1000 2 (in_X i) /\ length (in_y_int i) = 1000 /\
  Forall binary (in_y_int i) /\ length (in_y i) = 1000 /\
  has_shape 300 2 (X_test (in_split i)) /\ length (y_test (in_split i)) = 300 /\
  has_shape 700 2 (X_train (in_split i)) /\ length (y_train (in_split i)) = 700.
Proof.
  cbv zeta.
  pose proof (draw_inputs_stages g) as H. cbv zeta in H.
  destruct H as (EX & Eyi & Ey & Es & _).
  pose proof (cell2_shape cos_f sin_f sqrt_f pi_f g) as (HX0 & Hy0 & Hb).
  pose proof (@cell3_spec floatX _ _ (snd (cell2 cos_f sin_f sqrt_f pi_f g)) HX0 Hy0) as H3.
  cbv zeta in H3.
  destruct H3 as (_ & _ & HX & Hy & train & test & Hperm & Hte & Htr & E1 & E2 & E3 & E4).
  rewrite EX, Eyi, Ey, Es.
  assert (Hin : forall idx, Permutation (seq 0 1000) (test ++ train) ->
                 (idx = test \/ idx = train) ->
                 Forall (fun k => k < 1000) idx).
  { intros idx Hp Hidx. apply Forall_forall. intros k Hk.
    assert (Hk' : In k (test ++ train))
      by (apply in_or_app; destruct Hidx; subst idx; auto).
    apply (Permutation_in _ (Permutation_sym Hp)) in Hk'.
    apply in_seq in Hk'. lia. }
  destruct HX as [HXr HXc].
  repeat split; try assumption.
  - rewrite E3, length_take. exact Hte.
  - rewrite E3. apply Forall_take; [exact HXc|]. rewrite HXr. apply Hin; auto.
  - rewrite E4, length_take. exact Hte.
  - rewrite E1, length_take. exact Htr.
  - rewrite E1. apply Forall_take; [exact HXc|]. rewrite HXr. apply Hin; auto.
  - rewrite E2, length_take. exact Htr.
Qed.

(** C2.  On every stream, the weights of the model the notebook declares
    are exactly [w_in_1] of shape (2, 5), [w_1_2] of shape (5, 5) and
    [w_2_out] of shape (5), each with a Normal prior of mean 0 and
    standard deviation 1; every free random variable of the model has a
    Normal prior, and the only other variable is the observed Bernoulli
    output. *)
Theorem weights_have_standard_normal_priors (g : RandomState) :
  let m := in_neural_network (fst (draw_inputs cos_f sin_f sqrt_f floatX pi_f fit g)) in
  map declaration (free_RVs m) = declared_weights 2 /\
  Forall gaussian (free_RVs m) /\
  map rv_name (observed_RVs m) = ["out"] /\
  map rv_distribution (observed_RVs m)
  = [BernoulliDist (act_out (RandomVar "w_in_1") (RandomVar "w_1_2") (RandomVar "w_2_out"))].
Proof.
  cbv zeta.
  pose proof (draw_inputs_stages g) as H. cbv zeta in H.
  destruct H as (_ & _ & _ & _ & _ & _ & _ & Em).
  pose proof (draw_inputs_shapes g) as (HX & _). cbv zeta in HX.
  rewrite Em.
  pose proof (neural_network_weights
    (in_X (fst (draw_inputs cos_f sin_f sqrt_f floatX pi_f fit g)))
    (y_train (in_split (fst (draw_inputs cos_f sin_f sqrt_f floatX pi_f fit g))))
    (in_init_1 (fst (draw_inputs cos_f sin_f sqrt_f floatX pi_f fit g)))
    (in_init_2 (fst (draw_inputs cos_f sin_f sqrt_f floatX pi_f fit g)))
    (in_init_out (fst (draw_inputs cos_f sin_f sqrt_f floatX pi_f fit g)))) as Hw.
  cbv zeta in Hw.
  rewrite (ncols_shape HX) in Hw by lia.
  exact Hw.
Qed.

End Cells.

End ModelFacts.

Module TheanoFacts.

Import Theano.
Open Scope nat_scope.

Section Eval.

Variable F : Type.
Variable zero : F.
Variables add mul : F -> F -> F.
Variables tanh_f sigmoid_f : F -> F.

Lemma forallb_length (k : nat) (m : list (list F)) :
  Forall (fun row => length row = k) m ->
  forallb (fun row => length row =? k) m = true.
Proof.
  intros H. apply forallb_forall. intros row Hrow.
  rewrite Forall_forall in H. apply Nat.eqb_eq. apply H. exact Hrow.
Qed.

Lemma width_shaped (r c : nat) (m : list (list F)) :
  shaped r c m -> 0 < r -> width m = c.
Proof.
  intros [Hr Hc] Hpos. destruct m as [|row m]; simpl in *; [lia|].
  inversion Hc; assumption.
Qed.

Lemma rectangular_shaped (r c : nat) (m : list (list F)) :
  shaped r c m -> 0 < r -> rectangular m = true.
Proof.
  intros H Hpos. unfold rectangular.
  rewrite (width_shaped H Hpos). apply forallb_length. apply H.
Qed.

Lemma length_columns (m : list (list F)) : length (columns zero m) = width m.
Proof. unfold columns. rewrite length_map. apply length_seq. Qed.

(** The product of an (n, k) matrix and a (k, c) matrix, k > 0, is an
    (n, c) matrix. *)
Lemma dot_mat_mat (n k c : nat) (A B : list (list F)) :
  shaped n k A -> shaped k c B -> 0 < k ->
  exists C, dot zero add mul (Mat A) (Mat B) = Some (Mat C) /\ shaped n c C.
Proof.
  intros HA HB Hk. simpl.
  rewrite (rectangular_shaped HB Hk).
  destruct HA as [HAr HAc]. destruct HB as [HBr HBc].
  rewrite HBr, (forallb_length HAc). simpl.
  eexists. split; [reflexivity|]. split.
  - rewrite length_map. exact HAr.
  - apply Forall_map. apply Forall_forall. intros row _. simpl.
    rewrite length_map, length_columns.
    apply (@width_shaped k c B); [split; assumption | exact Hk].
Qed.

(** The product of an (n, k) matrix and a vector of length k is a vector
    of length n. *)
Lemma dot_mat_vec (n k : nat) (A : list (list F)) (v : list F) :
  shaped n k A -> length v = k ->
  exists u, dot zero add mul (Mat A) (Vec v) = Some (Vec u) /\ length u = n.
Proof.
  intros [HAr HAc] Hv. simpl. rewrite Hv, (forallb_length HAc).
  eexists. split; [reflexivity|]. rewrite length_map. exact HAr.
Qed.

Lemma map_map_shaped (f : F -> F) (r c : nat) (m : list (list F)) :
  shaped r c m -> shaped r c (map (map f) m).
Proof.
  intros [Hr Hc]. split.
  - rewrite length_map. exact Hr.
  - apply Forall_map. eapply Forall_impl; [|exact Hc].
    intros row Hrow. simpl. rewrite length_map. exact Hrow.
Qed.

Lemma map_map_all (f : F -> F) (P : F -> Prop) (m : list (list F)) :
  (forall v, P (f v)) -> all_entries P (map (map f) m).
Proof.
  intros Hf. apply Forall_map. apply Forall_forall. intros row _.
  apply Forall_map. apply Forall_forall. intros v _. apply Hf.
Qed.

Lemma map_all (f : F -> F) (P : F -> Prop) (v : list F) :
  (forall e, P (f e)) -> Forall P (map f v).
Proof.
  intros Hf. apply Forall_map. apply Forall_forall. intros e _. apply Hf.
Qed.

(** A network of two tanh layers and a sigmoid output evaluates, on
    operands of fitting shapes, to one output per input row; each
    activation satisfies what tanh guarantees and each output what the
    sigmoid guarantees. *)
Lemma eval_layers (Pt Ps : F -> Prop) (shared rvs : env F)
    (inp w1 w2 w3 : tensor) (X W1 W2 : list (list F)) (w : list F) (n k h : nat) :
  (forall v, Pt (tanh_f v)) -> (forall v, Ps (sigmoid_f v)) ->
  eval zero add mul tanh_f sigmoid_f shared rvs inp = Some (Mat X) ->
  eval zero add mul tanh_f sigmoid_f shared rvs w1 = Some (Mat W1) ->
  eval zero add mul tanh_f sigmoid_f shared rvs w2 = Some (Mat W2) ->
  eval zero add mul tanh_f sigmoid_f shared rvs w3 = Some (Vec w) ->
  shaped n k X -> shaped k h W1 -> shaped h h W2 -> length w = h ->
  0 < k -> 0 < h ->
  exists (A1 A2 : list (list F)) (p : list F),
    eval zero add mul tanh_f sigmoid_f shared rvs (Tanh (Dot inp w1)) = Some (Mat A1)
    /\ shaped n h A1 /\ all_entries Pt A1 /\
    eval zero add mul tanh_f sigmoid_f shared rvs
         (Tanh (Dot (Tanh (Dot inp w1)) w2)) = Some (Mat A2)
    /\ shaped n h A2 /\ all_entries Pt A2 /\
    eval zero add mul tanh_f sigmoid_f shared rvs
         (Sigmoid (Dot (Tanh (Dot (Tanh (Dot inp w1)) w2)) w3)) = Some (Vec p)
    /\ length p = n /\ Forall Ps p.
Proof.
  intros HPt HPs Einp Ew1 Ew2 Ew3 HX HW1 HW2 Hw Hk Hh.
  destruct (dot_mat_mat HX HW1 Hk) as (M1 & EM1 & HM1).
  assert (E1 : eval zero add mul tanh_f sigmoid_f shared rvs (Tanh (Dot inp w1))
               = Some (Mat (map (map tanh_f) M1))).
  { simpl. rewrite Einp, Ew1, EM1. reflexivity. }
  pose proof (map_map_shaped tanh_f HM1) as HA1.
  destruct (dot_mat_mat HA1 HW2 Hh) as (M2 & EM2 & HM2).
  assert (E2 : eval zero add mul tanh_f sigmoid_f shared rvs
                    (Tanh (Dot (Tanh (Dot inp w1)) w2))
               = Some (Mat (map (map tanh_f) M2))).
  { change (eval zero add mul tanh_f sigmoid_f shared rvs
              (Tanh (Dot (Tanh (Dot inp w1)) w2)))
      with (option_map (elementwise tanh_f)
              match eval zero add mul tanh_f sigmoid_f shared rvs (Tanh (Dot inp w1)),
                    eval zero add mul tanh_f sigmoid_f shared rvs w2 with
              | Some va, Some vb => dot zero add mul va vb
              | _, _ => None
              end).
    rewrite E1, Ew2, EM2. reflexivity. }
  pose proof (map_map_shaped tanh_f HM2) as HA2.
  destruct (@dot_mat_vec n h _ w HA2 Hw) as (u & Eu & Hu).
  exists (map (map tanh_f) M1), (map (map tanh_f) M2), (map sigmoid_f u).
  split; [exact E1|]. split; [exact HA1|].
  split; [apply map_map_all; exact HPt|].
  split; [exact E2|]. split; [exact HA2|].
  split; [apply map_map_all; exact HPt|].
  split.
  - change (eval zero add mul tanh_f sigmoid_f shared rvs
              (Sigmoid (Dot (Tanh (Dot (Tanh (Dot inp w1)) w2)) w3)))
      with (option_map (elementwise sigmoid_f)
              match eval zero add mul tanh_f sigmoid_f shared rvs
                         (Tanh (Dot (Tanh (Dot inp w1)) w2)),
                    eval zero add mul tanh_f sigmoid_f shared rvs w3 with
              | Some va, Some vb => dot zero add mul va vb
              | _, _ => None
              end).
    rewrite E2, Ew3, Eu. reflexivity.
  - split; [rewrite length_map; exact Hu | apply map_all; exact HPs].
Qed.

End Eval.

End TheanoFacts.

Module FloatNetworkFacts.

Import Float FloatFacts Arrays Theano TheanoFacts Notebook FloatNetwork.
Import Measures Instances.
Open Scope Q_scope.
Open Scope list_scope.

#[local] Unset Implicit Arguments.

Lemma Qle_bool_false (x y : Q) : Qle_bool x y = false -> y < x.
Proof.
  intros E. apply Qnot_le_lt. intros H. apply Qle_bool_iff in H. congruence.
Qed.

Lemma Qgtb_false (x y : Q) : Qgtb x y = false -> x <= y.
Proof.
  unfold Qgtb. intros E. apply negb_false_iff in E.
  apply Qle_bool_iff. exact E.
Qed.

(** A float tanh that stays between -1 and 1 between its thresholds
    does so everywhere, and likewise a float sigmoid between 0 and 1. *)
Lemma tanh_float_in_range (mid : Q -> Q) :
  (forall v, -22 < v -> v < 22 -> in_symmetric_unit (mid v)) ->
  forall v, in_symmetric_unit (tanh_float mid v).
Proof.
  intros Hmid v. unfold tanh_float.
  destruct (Qle_bool 22 v) eqn:E1; [split; discriminate|].
  destruct (Qle_bool v (-22)) eqn:E2; [split; discriminate|].
  apply Qle_bool_false in E1. apply Qle_bool_false in E2.
  apply Hmid; assumption.
Qed.

Lemma sigmoid_float_in_range (mid : Q -> Q) :
  (forall v, -709 <= v -> v <= 30 -> in_unit (mid v)) ->
  forall v, in_unit (sigmoid_float mid v).
Proof.
  intros Hmid v. unfold sigmoid_float.
  destruct (Qgtb (-709) v) eqn:E1; [split; discriminate|].
  destruct (Qgtb v 30) eqn:E2; [split; discriminate|].
  apply Qgtb_false in E1. apply Qgtb_false in E2.
  apply Hmid; assumption.
Qed.

Lemma tanh_float_range (v : Q) : in_symmetric_unit (tanh_float tanh_line v).
Proof.
  apply tanh_float_in_range. clear v. intros v Hlo Hhi.
  unfold tanh_line, in_symmetric_unit. split.
  - apply Qle_shift_div_l; [reflexivity | Lqa.lra].
  - apply Qle_shift_div_r; [reflexivity | Lqa.lra].
Qed.

Lemma sigmoid_float_range (v : Q) : in_unit (sigmoid_float sigmoid_line v).
Proof.
  apply sigmoid_float_in_range. clear v. intros v Hlo Hhi.
  unfold sigmoid_line, in_unit. split.
  - apply Qle_shift_div_l; [reflexivity | Lqa.lra].
  - apply Qle_shift_div_r; [reflexivity | Lqa.lra].
Qed.




End FloatNetworkFacts.

Module PipelineFacts.

Import State Arrays ArraysFacts NumpyRandom RandomFacts Sklearn SklearnFacts.
Import SplitFacts Theano TheanoFacts PyMC Notebook NotebookFacts ModelFacts.
Import PredictionFacts.
Open Scope nat_scope.
Open Scope string_scope.

Lemma length_concat_shape (r c : nat) (a : matrix) :
  has_shape r c a -> length (concat a) = r * c.
Proof.
  intros [Hr Hc]. subst r. induction a as [|row a IH]; simpl; [reflexivity|].
  inversion Hc as [|? ? Hrow Hrest]; subst.
  rewrite length_app, IH by exact Hrest. reflexivity.
Qed.

Lemma chunks_shape (r c : nat) :
  forall flat : vector, length flat = r * c -> has_shape r c (chunks r c flat).
Proof.
  induction r as [|r IH]; intros flat Hlen; simpl.
  - split; [reflexivity | constructor].
  - simpl in Hlen.
    destruct (IH (skipn c flat)) as [Hr Hc]; [rewrite length_skipn; lia|].
    split; [simpl; rewrite Hr; reflexivity|].
    constructor; [rewrite length_firstn; lia | exact Hc].
Qed.

Lemma reshape_ok (r c : nat) (flat : vector) :
  length flat = r * c ->
  exists m, reshape r c flat = Some m /\ has_shape r c m.
Proof.
  intros Hlen. unfold reshape.
  rewrite (proj2 (Nat.eqb_eq _ _) Hlen).
  eexists. split; [reflexivity | apply chunks_shape; exact Hlen].
Qed.

Lemma reshape_infer_ok (r c : nat) (flat : vector) :
  0 < r -> length flat = r * c ->
  exists m, reshape_infer r flat = Some m /\ has_shape r c m.
Proof.
  intros Hr Hlen. unfold reshape_infer.
  assert (E0 : Nat.eqb r 0 = false) by (apply Nat.eqb_neq; lia).
  assert (Emod : length flat mod r = 0)
    by (rewrite Hlen, Nat.mul_comm; apply Nat.Div0.mod_mul).
  assert (Ediv : length flat / r = c)
    by (rewrite Hlen, Nat.mul_comm; apply Nat.div_mul; lia).
  rewrite E0, Emod, Ediv. simpl. apply reshape_ok. exact Hlen.
Qed.

Lemma transpose_shape (a : matrix) :
  has_shape (ncols a) (nrows a) (transpose a).
Proof.
  unfold transpose. split.
  - rewrite length_map. apply length_seq.
  - apply Forall_map. apply Forall_forall. intros j _. apply length_column.
Qed.

Lemma mask_index_ok (mask : list bool) (j c : nat) (a : matrix) :
  length mask = nrows a -> Forall (fun row => length row = c) a -> j < c ->
  exists v, mask_index mask j a = Some v.
Proof.
  intros Hm Hc Hj. unfold mask_index.
  rewrite (proj2 (Nat.eqb_eq _ _) Hm).
  assert (E : forallb (fun row => Nat.ltb j (length row)) a = true).
  { apply forallb_forall. intros row Hrow. rewrite Forall_forall in Hc.
    apply Nat.ltb_lt. rewrite (Hc row Hrow). exact Hj. }
  rewrite E. simpl. eexists. reflexivity.
Qed.

Lemma scatter_classes_ok (X : matrix) (c0 c1 : list bool) (r : nat) :
  has_shape r 2 X -> length c0 = r -> length c1 = r ->
  exists plots, scatter_classes X c0 c1 = Some plots.
Proof.
  intros [Hr Hc] H0 H1. unfold scatter_classes.
  destruct (@mask_index_ok c0 0 2 X) as [a Ea]; [unfold nrows; lia | exact Hc | lia |].
  destruct (@mask_index_ok c0 1 2 X) as [b Eb]; [unfold nrows; lia | exact Hc | lia |].
  destruct (@mask_index_ok c1 0 2 X) as [c Ec]; [unfold nrows; lia | exact Hc | lia |].
  destruct (@mask_index_ok c1 1 2 X) as [d Ed]; [unfold nrows; lia | exact Hc | lia |].
  rewrite Ea, Eb, Ec, Ed. eexists. reflexivity.
Qed.

Lemma length_mgrid_axis (a b : Q) (n : nat) : length (mgrid_axis a b n) = n.
Proof. unfold mgrid_axis. rewrite length_map. apply length_seq. Qed.

Lemma mgrid_shape (a b : Q) (n : nat) :
  exists M0 M1, mgrid a b n = [M0; M1] /\ has_shape n n M0 /\ has_shape n n M1.
Proof.
  unfold mgrid. eexists. eexists. split; [reflexivity|]. split; split.
  - rewrite length_map. apply length_mgrid_axis.
  - apply Forall_map. apply Forall_forall. intros v _. apply repeat_length.
  - apply repeat_length.
  - apply Forall_forall. intros row Hrow. apply repeat_spec in Hrow.
    subst row. apply length_mgrid_axis.
Qed.

Lemma stack_shape (r : nat) (rows : list (option (value Q))) :
  Forall (fun o => exists v, o = Some (Vec v) /\ length v = r) rows ->
  exists P, stack rows = Some P /\ has_shape (length rows) r P.
Proof.
  induction rows as [|o rows IH]; intros H; simpl.
  - exists []. split; [reflexivity|]. split; [reflexivity | constructor].
  - apply Forall_cons_iff in H. destruct H as [(v & Ev & Hv) Hrest].
    destruct (IH Hrest) as (P & EP & HPr & HPc).
    rewrite Ev, EP. simpl. exists (v :: P). split; [reflexivity|].
    split; [simpl; rewrite HPr; reflexivity | constructor; assumption].
Qed.

Section Cells.

Variables cos_f sin_f sqrt_f tanh_f sigmoid_f floatX : Q -> Q.
Variable pi_f : Q.
Variable Approx : Type.
Variable fit : Model -> env Q -> N -> Rand Approx.
Variable posterior_draws : Approx -> nat -> list (env Q) * Approx.

(** The graph the compiled function evaluates. *)
Lemma sample_proba_node (X : matrix) (y_train : vector)
    (init_1 init_2 : matrix) (init_out : vector) :
  _sample_proba (neural_network X y_train init_1 init_2 init_out)
  = Some node.
Proof. reflexivity. Qed.

Lemma eval_node (shared rvs : env Q) (X : matrix) (r : nat) :
  well_shaped_draw rvs -> has_shape r 2 X ->
  exists p, eval 0%Q Qplus Qmult tanh_f sigmoid_f
                 (bind_var "X" (Mat X) shared) rvs node = Some (Vec p)
            /\ length p = r.
Proof.
  intros (W1 & W2 & w & E1 & H1 & E2 & H2 & E3 & H3) HX.
  destruct (@eval_layers Q 0%Q Qplus Qmult tanh_f sigmoid_f
              (fun _ => True) (fun _ => True)
              (bind_var "X" (Mat X) shared) rvs
              x (RandomVar "w_in_1") (RandomVar "w_1_2") (RandomVar "w_2_out")
              X W1 W2 w r 2 5)
    as (A1 & A2 & p & _ & _ & _ & _ & _ & _ & Ep & Hp & _);
    try assumption; try reflexivity; try lia; try (intros; exact I).
  exists p. split; [exact Ep | exact Hp].
Qed.

Hypothesis sampler : sampler_contract posterior_draws.

Lemma sample_proba_shape (shared : env Q) (approx : Approx) (X : matrix) (r n : nat) :
  has_shape r 2 X -> 0 < n ->
  exists P, fst (sample_proba tanh_f sigmoid_f posterior_draws node shared approx X n)
            = Some P /\ has_shape n r P.
Proof.
  intros HX Hn. unfold sample_proba.
  destruct n as [|k]; [inversion Hn|]. remember (S k) as n eqn:En. clear Hn.
  destruct (sampler approx n) as [Hlen Hdraws].
  destruct (posterior_draws approx n) as [draws approx']. simpl in *.
  destruct (@stack_shape r
              (map (fun rvs => eval 0%Q Qplus Qmult tanh_f sigmoid_f
                                    (bind_var "X" (Mat X) shared) rvs node) draws))
    as (P & EP & HP).
  - apply Forall_map. eapply Forall_impl; [|exact Hdraws].
    intros rvs Hrvs. apply eval_node; assumption.
  - exists P. split; [exact EP|]. rewrite length_map, Hlen in HP. exact HP.
Qed.

Lemma grid_2d_shape :
  exists g2, grid_2d floatX = Some g2 /\ has_shape (100 * 100) 2 g2.
Proof.
  unfold grid_2d, grid.
  destruct (mgrid_shape (-3) 3 100) as (M0 & M1 & E & H0 & H1).
  rewrite E. simpl map. simpl concat at 2. rewrite app_nil_r.
  pose proof (astype_floatX_shape floatX H0) as H0'.
  pose proof (astype_floatX_shape floatX H1) as H1'.
  assert (Hlen : length (concat (astype_floatX floatX M0 ++ astype_floatX floatX M1))
                 = 2 * (100 * 100)).
  { rewrite concat_app, length_app.
    rewrite (length_concat_shape H0'), (length_concat_shape H1'). lia. }
  destruct (@reshape_infer_ok 2 (100 * 100) _ (Nat.lt_0_succ 1) Hlen) as (m & Em & Hm).
  rewrite Em. simpl option_map. eexists. split; [reflexivity|].
  pose proof (transpose_shape m) as Ht.
  rewrite (ncols_shape Hm) in Ht by lia.
  destruct Hm as [Hmr _]. unfold nrows in Ht. rewrite Hmr in Ht. exact Ht.
Qed.

Lemma grid_blocks :
  exists G0 G1, grid floatX = [G0; G1] /\ has_shape 100 100 G0 /\ has_shape 100 100 G1.
Proof.
  unfold grid. destruct (mgrid_shape (-3) 3 100) as (M0 & M1 & E & H0 & H1).
  rewrite E. exists (astype_floatX floatX M0), (astype_floatX floatX M1).
  split; [reflexivity|]. split; apply astype_floatX_shape; assumption.
Qed.

Lemma length_std_axis0 (a : matrix) : length (std_axis0 sqrt_f a) = ncols a.
Proof. unfold std_axis0. rewrite length_map. apply length_seq. Qed.

(** The cells after the fit run through on inputs of consistent shapes. *)
Lemma predict_and_plot_ok (i : Inputs Approx) (rX rt : nat) :
  has_shape rX 2 (in_X_scaled i) -> length (in_y_int i) = rX ->
  has_shape rt 2 (X_test (in_split i)) ->
  in_neural_network i
  = neural_network (in_X i) (y_train (in_split i))
      (in_init_1 i) (in_init_2 i) (in_init_out i) ->
  exists o,
    predict_and_plot sqrt_f tanh_f sigmoid_f floatX posterior_draws i = Some o /\
    has_shape 500 rt (out_proba o) /\
    out_pred o = pred_of floatX (out_proba o) /\
    length (out_pred o) = rt /\
    out_accuracy o = accuracy (y_test (in_split i)) (out_pred o) /\
    has_shape (100 * 100) 2 (out_grid_2d o) /\
    has_shape 500 (100 * 100) (out_ppc o) /\
    has_shape 100 100 (out_mean_surface o) /\
    has_shape 100 100 (out_std_surface o).
Proof.
  intros HX Hy Ht Hm. unfold predict_and_plot.
  destruct (@scatter_classes_ok (in_X_scaled i) (eq_int (in_y_int i) 0)
              (eq_int (in_y_int i) 1) rX HX) as [sd Esd];
    try (unfold eq_int; rewrite length_map; exact Hy).
  unfold cell2_scatter. rewrite Esd.
  destruct (posterior_draws (in_approx i) 5000) as [trace approx1].
  rewrite Hm, sample_proba_node.
  destruct (@sample_proba_shape (shared_store (in_split i)) approx1
              (X_test (in_split i)) rt 500 Ht ltac:(lia)) as (P & EP & HP).
  destruct (sample_proba tanh_f sigmoid_f posterior_draws node
              (shared_store (in_split i)) approx1 (X_test (in_split i)) 500)
    as [[proba|] approx2]; simpl in EP; [|discriminate].
  injection EP as EP. subst proba.
  assert (Hpred : length (pred_of floatX P) = rt)
    by (rewrite length_pred_of; apply (ncols_shape HP); lia).
  destruct (@scatter_classes_ok (X_test (in_split i)) (eq_bool_int (pred_of floatX P) 0)
              (eq_bool_int (pred_of floatX P) 1) rt Ht) as [sp Esp];
    try (unfold eq_bool_int; rewrite length_map; exact Hpred).
  rewrite Esp.
  destruct grid_2d_shape as (g2 & Eg & Hg). rewrite Eg.
  destruct (@sample_proba_shape (shared_store (in_split i)) approx2
              g2 (100 * 100) 500 Hg ltac:(lia)) as (C & EC & HC).
  destruct (sample_proba tanh_f sigmoid_f posterior_draws node
              (shared_store (in_split i)) approx2 g2 500)
    as [[ppc|] approx3]; simpl in EC; [|discriminate].
  injection EC as EC. subst ppc.
  assert (Hcols : ncols C = 100 * 100) by (apply (ncols_shape HC); lia).
  destruct (@reshape_ok 100 100 (mean_axis0 C)) as (ms & Ems & Hms);
    [rewrite length_mean_axis0; exact Hcols|].
  destruct (@reshape_ok 100 100 (std_axis0 sqrt_f C)) as (ss & Ess & Hss);
    [rewrite length_std_axis0; exact Hcols|].
  unfold mean_surface, std_surface. rewrite Ems, Ess.
  eexists. split; [reflexivity|].
  split; [exact HP|]. split; [reflexivity|]. split; [exact Hpred|].
  split; [reflexivity|]. split; [exact Hg|]. split; [exact HC|].
  split; [exact Hms | exact Hss].
Qed.

Lemma run_all_ok (g : RandomState) :
  exists i o,
    run_all cos_f sin_f sqrt_f tanh_f sigmoid_f floatX pi_f fit posterior_draws g
    = Some (i, o) /\
    i = fst (draw_inputs cos_f sin_f sqrt_f floatX pi_f fit g) /\
    has_shape 500 300 (out_proba o) /\
    out_pred o = pred_of floatX (out_proba o) /\
    length (out_pred o) = 300 /\
    out_accuracy o = accuracy (y_test (in_split i)) (out_pred o) /\
    has_shape (100 * 100) 2 (out_grid_2d o) /\
    has_shape 500 (100 * 100) (out_ppc o) /\
    has_shape 100 100 (out_mean_surface o) /\
    has_shape 100 100 (out_std_surface o).
Proof.
  unfold run_all.
  pose proof (draw_inputs_stages cos_f sin_f sqrt_f floatX pi_f fit g) as Hs.
  pose proof (draw_inputs_shapes cos_f sin_f sqrt_f floatX pi_f fit g) as Hsh.
  cbv zeta in Hs, Hsh.
  destruct Hs as (_ & _ & _ & _ & _ & _ & _ & Em).
  destruct Hsh as (_ & Hy & _ & _ & Ht & _).
  pose proof (draw_inputs_scaled_shape cos_f sin_f sqrt_f floatX pi_f fit g) as HX.
  destruct (@predict_and_plot_ok _ 1000 300 HX Hy Ht Em) as (o & Eo & Ho).
  rewrite Eo. unfold option_map.
  exists (fst (draw_inputs cos_f sin_f sqrt_f floatX pi_f fit g)), o.
  split; [reflexivity|]. split; [reflexivity | exact Ho].
Qed.

(** C8.  When the sampler returns draws of the declared shapes, running
    all cells on any stream raises no error in the array operations: the
    grid has exactly 100 * 100 points of 2 coordinates, the sampled array
    over it has one column per point, its mean and standard deviation over
    the samples reshape to (100, 100), and the prediction vector has
    length 300, the number of test rows and of test labels, as the boolean
    masks need; the two coordinate blocks of the grid are (100, 100)
    as well. *)
Theorem all_cells_run (g : RandomState) :
  exists i o,
    run_all cos_f sin_f sqrt_f tanh_f sigmoid_f floatX pi_f fit posterior_draws g
    = Some (i, o) /\
    (exists G0 G1, grid floatX = [G0; G1]
                   /\ has_shape 100 100 G0 /\ has_shape 100 100 G1) /\
    has_shape (100 * 100) 2 (out_grid_2d o) /\
    has_shape 500 (100 * 100) (out_ppc o) /\
    has_shape 100 100 (out_mean_surface o) /\
    has_shape 100 100 (out_std_surface o) /\
    length (out_pred o) = 300 /\
    nrows (X_test (in_split i)) = 300 /\
    length (y_test (in_split i)) = 300.
Proof.
  destruct (run_all_ok g)
    as (i & o & E & Ei & _ & _ & Hp & _ & Hg & Hc & Hm & Hs).
  exists i, o. split; [exact E|]. split; [exact grid_blocks|].
  repeat (split; [assumption|]).
  pose proof (draw_inputs_shapes cos_f sin_f sqrt_f floatX pi_f fit g) as Hsh.
  cbv zeta in Hsh. rewrite <- Ei in Hsh.
  destruct Hsh as (_ & _ & _ & _ & Ht & Hyt & _).
  split; [apply Ht | exact Hyt].
Qed.

End Cells.

End PipelineFacts.

Module NoninterferenceFacts.

Import State Arrays ArraysFacts NumpyRandom Sklearn Theano PyMC Notebook.
Open Scope nat_scope.
Open Scope string_scope.

Section Cells.

Variables sqrt_f tanh_f sigmoid_f floatX : Q -> Q.
Variable Approx : Type.
Variable posterior_draws : Approx -> nat -> list (env Q) * Approx.

(** The compiled graph reads its argument and the draws, and no other
    shared variable. *)
Lemma eval_node_shared (shared1 shared2 rvs : env Q) (X : matrix) :
  eval 0%Q Qplus Qmult tanh_f sigmoid_f (bind_var "X" (Mat X) shared1) rvs node
  = eval 0%Q Qplus Qmult tanh_f sigmoid_f (bind_var "X" (Mat X) shared2) rvs node.
Proof. reflexivity. Qed.

Lemma sample_proba_shared (shared1 shared2 : env Q) (approx : Approx)
    (X : matrix) (n : nat) :
  sample_proba tanh_f sigmoid_f posterior_draws node shared1 approx X n
  = sample_proba tanh_f sigmoid_f posterior_draws node shared2 approx X n.
Proof.
  unfold sample_proba. destruct (posterior_draws approx n) as [draws approx'].
  reflexivity.
Qed.

Lemma predict_and_plot_y_test (i : Inputs Approx) (y' : vector) :
  match predict_and_plot sqrt_f tanh_f sigmoid_f floatX posterior_draws i,
        predict_and_plot sqrt_f tanh_f sigmoid_f floatX posterior_draws
                         (with_y_test i y') with
  | Some o1, Some o2 =>
      same_but_accuracy o1 o2 /\
      out_accuracy o1 = accuracy (y_test (in_split i)) (out_pred o1) /\
      out_accuracy o2 = accuracy y' (out_pred o2)
  | None, None => True
  | _, _ => False
  end.
Proof.
  unfold predict_and_plot, with_y_test, shared_store.
  cbn [in_X_scaled in_X in_y_int in_y in_split in_init_1 in_init_2 in_init_out
       in_neural_network in_approx X_train X_test y_train y_test].
  destruct (cell2_scatter (in_X_scaled i) (in_y_int i)); [|exact I].
  destruct (posterior_draws (in_approx i) 5000) as [trace approx1].
  destruct (_sample_proba (in_neural_network i)) as [nd|]; [|exact I].
  destruct (sample_proba tanh_f sigmoid_f posterior_draws nd _ approx1
              (X_test (in_split i)) 500) as [[proba|] approx2]; [|exact I].
  destruct (scatter_classes (X_test (in_split i)) _ _); [|exact I].
  destruct (grid_2d floatX) as [g2|]; [|exact I].
  destruct (sample_proba tanh_f sigmoid_f posterior_draws nd _ approx2 g2 500)
    as [[ppc|] approx3]; [|exact I].
  destruct (mean_surface ppc); [|exact I].
  destruct (std_surface sqrt_f ppc); [|exact I].
  unfold same_but_accuracy. cbn. repeat split.
Qed.

(** C10.  The sampled probabilities are a function of the input matrix,
    the sample count and the approximation alone: the compiled function
    gives the same result whatever the shared variables hold; and two
    kernels that differ only in the test labels give, through all the
    cells after the fit, the same sampled probabilities, predicted
    labels, plots and approximation state, or fail alike; the accuracy is
    computed from the respective test labels, and does depend on them. *)
Theorem predictions_ignore_test_labels :
  (forall (shared1 shared2 : env Q) (approx : Approx) (X : matrix) (n : nat),
      sample_proba tanh_f sigmoid_f posterior_draws node shared1 approx X n
      = sample_proba tanh_f sigmoid_f posterior_draws node shared2 approx X n) /\
  (forall (i : Inputs Approx) (y' : vector),
      match predict_and_plot sqrt_f tanh_f sigmoid_f floatX posterior_draws i,
            predict_and_plot sqrt_f tanh_f sigmoid_f floatX posterior_draws
                             (with_y_test i y') with
      | Some o1, Some o2 =>
          same_but_accuracy o1 o2 /\
          out_accuracy o1 = accuracy (y_test (in_split i)) (out_pred o1) /\
          out_accuracy o2 = accuracy y' (out_pred o2)
      | None, None => True
      | _, _ => False
      end) /\
  (exists (y1 y2 : vector) (pred : list bool),
      ~ (accuracy y1 pred == accuracy y2 pred)%Q).
Proof.
  split; [exact sample_proba_shared|].
  split; [exact predict_and_plot_y_test|].
  exists [1%Q], [0%Q], [true]. intros H. vm_compute in H. discriminate H.
Qed.

End Cells.

End NoninterferenceFacts.

Module StreamFacts.

Import State Arrays ArraysFacts NumpyRandom RandomFacts Sklearn SklearnFacts.
Import Theano PyMC Notebook NotebookFacts ModelFacts.
Open Scope nat_scope.

#[local] Unset Implicit Arguments.

Lemma advanced_refl (g : RandomState) : advanced 0 g g.
Proof. split; [reflexivity | lia]. Qed.

Lemma advanced_trans (j k : nat) (g1 g2 g3 : RandomState) :
  advanced j g1 g2 -> advanced k g2 g3 -> advanced (j + k) g1 g3.
Proof.
  intros [T1 P1] [T2 P2]. split; [congruence | lia].
Qed.

Lemma randn_reads (n : nat) :
  forall g : RandomState,
    fst (randn n g) = map (normal_tape g) (seq (normal_pos g) n) /\
    advanced n g (snd (randn n g)).
Proof.
  unfold randn. induction n as [|n IH]; intros g; simpl.
  - split; [reflexivity | apply advanced_refl].
  - unfold bind, ret.
    destruct (IH (snd (standard_normal g))) as [Ev [Et Ep]].
    unfold standard_normal in *. cbn [fst snd normal_tape normal_pos] in *.
    destruct (replicateM n _ _) as [l g2]. cbn [fst snd] in *.
    split; [rewrite Ev; reflexivity|]. split; [exact Et | lia].
Qed.

Lemma randn2_reads (r c : nat) :
  forall g : RandomState,
    fst (randn2 r c g) = tape_block g (normal_pos g) r c /\
    advanced (r * c) g (snd (randn2 r c g)).
Proof.
  unfold randn2, tape_block. induction r as [|r IH]; intros g.
  - split; [reflexivity | apply advanced_refl].
  - cbn [replicateM]. unfold bind, ret.
    destruct (randn_reads c g) as [Ev Ea].
    destruct (randn c g) as [row g1]. cbn [fst snd] in *.
    destruct (IH g1) as [Ev' Ea'].
    destruct (replicateM r (randn c) g1) as [rows g2]. cbn [fst snd] in *.
    split.
    + rewrite Ev, Ev'. destruct Ea as [Et Ep]. rewrite Et, Ep.
      cbn [seq map]. rewrite Nat.add_0_r. f_equal.
      rewrite <- seq_shift, map_map. apply map_ext. intros k.
      f_equal. f_equal. simpl. lia.
    + apply (advanced_trans _ _ _ _ _ Ea Ea').
Qed.

Lemma shuffle_from_reads {A} (d : A) (i : nat) :
  forall (x : list A) (g : RandomState), advanced 0 g (snd (shuffle_from d i x g)).
Proof.
  induction i as [|i IH]; intros x g.
  - apply advanced_refl.
  - cbn [shuffle_from]. unfold bind.
    destruct (random_interval (S i) g) as [j g1] eqn:E.
    assert (H1 : advanced 0 g g1).
    { unfold random_interval in E. injection E as _ E. subst g1.
      split; simpl; [reflexivity | lia]. }
    apply (advanced_trans _ _ _ _ _ H1 (IH _ g1)).
Qed.

Section Cells.

Variables cos_f sin_f sqrt_f floatX : Q -> Q.
Variable pi_f : Q.

Lemma make_moons_reads (n : nat) (noise : Q) (g : RandomState) :
  advanced (n * 2) g (snd (make_moons cos_f sin_f pi_f n noise g)).
Proof.
  unfold make_moons, bind, ret.
  pose proof (shuffle_from_reads O (length (seq 0 n) - 1) (seq 0 n) g) as Hs.
  pose proof (length_shuffled_indices n g) as Hlen.
  unfold shuffle in *.
  destruct (shuffle_from O (length (seq 0 n) - 1) (seq 0 n) g) as [indices g1].
  cbn [fst snd] in *.
  unfold normal, bind, ret.
  set (X0 := take [] _ indices).
  assert (Hn : nrows X0 = n) by (unfold X0, nrows; rewrite length_take; exact Hlen).
  rewrite Hn.
  destruct (randn2_reads n 2 g1) as [_ Ha].
  destruct (randn2 n 2 g1) as [z g2]. cbn [fst snd] in *.
  exact (advanced_trans _ _ _ _ _ Hs Ha).
Qed.

Lemma train_test_split_reads (X : matrix) (y : vector) (t : Q) (g : RandomState) :
  advanced 0 g (snd (train_test_split X y t g)).
Proof.
  unfold train_test_split, shuffle_split, permutation, shuffle, bind, ret.
  pose proof (shuffle_from_reads O (length (seq 0 (length X)) - 1)
                (seq 0 (length X)) g) as Hs.
  destruct (shuffle_from O _ _ g) as [perm g1]. exact Hs.
Qed.

(** The initial values are the variates the stream delivers after the
    noise of the dataset. *)
Lemma cell4_reads (X : matrix) (g : RandomState) :
  ncols X = 2 ->
  fst (cell4 floatX X g)
  = (astype_floatX floatX (tape_block g (normal_pos g) 2 5),
     astype_floatX floatX (tape_block g (normal_pos g + 10) 5 5),
     map floatX (map (normal_tape g) (seq (normal_pos g + 35) 5))).
Proof.
  intros Hc. unfold cell4, n_hidden, bind, ret. rewrite Hc.
  destruct (randn2_reads 2 5 g) as [E1 [T1 P1]].
  destruct (randn2 2 5 g) as [i1 g1]. cbn [fst snd] in *.
  destruct (randn2_reads 5 5 g1) as [E2 [T2 P2]].
  destruct (randn2 5 5 g1) as [i2 g2]. cbn [fst snd] in *.
  destruct (randn_reads 5 g2) as [E3 _].
  destruct (randn 5 g2) as [io g3]. cbn [fst snd] in *.
  rewrite E1, E2, E3. unfold tape_block.
  rewrite T2, T1, P2, P1.
  replace (normal_pos g + 2 * 5 + 5 * 5) with (normal_pos g + 35) by lia.
  replace (normal_pos g + 2 * 5) with (normal_pos g + 10) by lia.
  reflexivity.
Qed.

Lemma cell2_reads (g : RandomState) :
  advanced 2000 g (snd (cell2 cos_f sin_f sqrt_f pi_f g)).
Proof.
  unfold cell2, bind, ret.
  pose proof (make_moons_reads 1000 (1#5) g) as H.
  destruct (make_moons cos_f sin_f pi_f 1000 (1#5) g) as [Xy g1]. exact H.
Qed.

Lemma cell3_reads (X : matrix) (y : list Z) (g : RandomState) :
  advanced 0 g (snd (cell3 floatX X y g)).
Proof.
  unfold cell3, bind, ret.
  pose proof (train_test_split_reads (astype_floatX floatX X)
                (map (fun v => floatX (inject_Z v)) y) (3#10) g) as H.
  destruct (train_test_split _ _ (3#10) g) as [s g1]. exact H.
Qed.

Variable Approx : Type.
Variable fit : Model -> env Q -> N -> Rand Approx.

(** The initial values of a run: the 40 variates the stream delivers
    after the 2000 that make the noise of the dataset, cast to floatX. *)
Lemma draw_inputs_inits (g : RandomState) :
  let i := fst (draw_inputs cos_f sin_f sqrt_f floatX pi_f fit g) in
  in_init_1 i = astype_floatX floatX (tape_block g (normal_pos g + 2000) 2 5) /\
  in_init_2 i = astype_floatX floatX (tape_block g (normal_pos g + 2010) 5 5) /\
  in_init_out i = map floatX (map (normal_tape g) (seq (normal_pos g + 2035) 5)).
Proof.
  cbv zeta.
  pose proof (draw_inputs_stages cos_f sin_f sqrt_f floatX pi_f fit g) as H.
  cbv zeta in H. destruct H as (EX & _ & _ & _ & E1 & E2 & E3 & _).
  pose proof (draw_inputs_shapes cos_f sin_f sqrt_f floatX pi_f fit g) as Hs.
  cbv zeta in Hs. destruct Hs as (HX & _). rewrite EX in HX.
  set (c2 := cell2 cos_f sin_f sqrt_f pi_f g) in *.
  set (c3 := cell3 floatX (fst (fst c2)) (snd (fst c2)) (snd c2)) in *.
  assert (Hc : ncols (fst (fst (fst c3))) = 2)
    by (apply (ncols_shape HX); apply Nat.lt_0_succ).
  pose proof (cell4_reads (fst (fst (fst c3))) (snd c3) Hc) as H4.
  pose proof (cell2_reads g) as [T2 P2]. fold c2 in T2, P2.
  pose proof (cell3_reads (fst (fst c2)) (snd (fst c2)) (snd c2)) as [T3 P3].
  fold c3 in T3, P3.
  rewrite E1, E2, E3, H4. cbn [fst snd]. unfold tape_block.
  rewrite T3, T2, P3, P2, Nat.add_0_r.
  replace (normal_pos g + 2000 + 10) with (normal_pos g + 2010) by lia.
  replace (normal_pos g + 2000 + 35) with (normal_pos g + 2035) by lia.
  repeat split.
Qed.

Lemma cell4_advanced (X : matrix) (g : RandomState) :
  ncols X = 2 -> advanced 40 g (snd (cell4 floatX X g)).
Proof.
  intros Hc. unfold cell4, n_hidden, bind, ret. rewrite Hc.
  destruct (randn2_reads 2 5 g) as [_ A1].
  destruct (randn2 2 5 g) as [i1 g1]. cbn [fst snd] in *.
  destruct (randn2_reads 5 5 g1) as [_ A2].
  destruct (randn2 5 5 g1) as [i2 g2]. cbn [fst snd] in *.
  destruct (randn_reads 5 g2) as [_ A3].
  destruct (randn 5 g2) as [io g3]. cbn [fst snd] in *.
  exact (advanced_trans _ _ _ _ _ (advanced_trans _ _ _ _ _ A1 A2) A3).
Qed.

(** Cells 2 to 4 read 2040 normal variates: 2000 for the noise of the
    dataset and 40 for the initial values. *)
Lemma draw_data_reads (g : RandomState) :
  advanced 2040 g (snd (draw_data cos_f sin_f sqrt_f floatX pi_f g)).
Proof.
  pose proof (draw_inputs_shapes cos_f sin_f sqrt_f floatX pi_f fit g) as Hs.
  pose proof (draw_inputs_stages cos_f sin_f sqrt_f floatX pi_f fit g) as H.
  cbv zeta in Hs, H. destruct Hs as (HX & _). destruct H as (EX & _).
  rewrite EX in HX. unfold draw_data, bind, ret.
  pose proof (cell2_reads g) as A2.
  set (c2 := cell2 cos_f sin_f sqrt_f pi_f g) in *.
  destruct c2 as [Xy g2] eqn:E2. cbn [fst snd] in *.
  pose proof (cell3_reads (fst Xy) (snd Xy) g2) as A3.
  destruct (cell3 floatX (fst Xy) (snd Xy) g2) as [Xys g3]. cbn [fst snd] in *.
  assert (Hc : ncols (fst (fst Xys)) = 2)
    by (apply (ncols_shape HX); apply Nat.lt_0_succ).
  pose proof (cell4_advanced (fst (fst Xys)) g3 Hc) as A4.
  destruct (cell4 floatX (fst (fst Xys)) g3) as [inits g4]. cbn [fst snd] in *.
  exact (advanced_trans _ _ _ _ _ (advanced_trans _ _ _ _ _ A2 A3) A4).
Qed.

(** The kernel after the fit, from what cells 2 to 4 drew and the stream
    they left. *)
Lemma draw_inputs_from_data (g : RandomState) :
  let d := fst (draw_data cos_f sin_f sqrt_f floatX pi_f g) in
  let g4 := snd (draw_data cos_f sin_f sqrt_f floatX pi_f g) in
  let Xy := fst (fst d) in
  let Xys := snd (fst d) in
  let inits := snd d in
  let model := neural_network (fst (fst Xys)) (y_train (snd Xys))
                 (fst (fst inits)) (snd (fst inits)) (snd inits) in
  let fitted := fit model (shared_store (snd Xys)) 30000%N g4 in
  draw_inputs cos_f sin_f sqrt_f floatX pi_f fit g
  = (mkInputs (fst Xy) (fst (fst Xys)) (snd Xy) (snd (fst Xys)) (snd Xys)
       (fst (fst inits)) (snd (fst inits)) (snd inits) model (fst fitted),
     snd fitted).
Proof.
  cbv zeta. unfold draw_inputs, draw_data, bind, ret.
  destruct (cell2 cos_f sin_f sqrt_f pi_f g) as [Xy g2].
  destruct (cell3 floatX (fst Xy) (snd Xy) g2) as [Xys g3].
  destruct (cell4 floatX (fst (fst Xys)) g3) as [inits g4]. cbn [fst snd].
  destruct (fit _ _ 30000%N g4) as [approx g5]. reflexivity.
Qed.

Section Fit.

Hypothesis library_fit : fit_contract fit.

(** The fit leaves the stream where cell 4 left it. *)
Lemma fit_reads_nothing (g : RandomState) :
  snd (draw_inputs cos_f sin_f sqrt_f floatX pi_f fit g)
  = snd (draw_data cos_f sin_f sqrt_f floatX pi_f g).
Proof.
  pose proof (draw_inputs_from_data g) as H. cbv zeta in H. rewrite H.
  cbn [snd]. exact (proj1 (library_fit _ _ _ _ g)).
Qed.

(** Two streams from which cells 2 to 4 draw the same leave the same
    kernel after the fit. *)
Lemma draw_inputs_data (g g' : RandomState) :
  fst (draw_data cos_f sin_f sqrt_f floatX pi_f g)
  = fst (draw_data cos_f sin_f sqrt_f floatX pi_f g') ->
  fst (draw_inputs cos_f sin_f sqrt_f floatX pi_f fit g)
  = fst (draw_inputs cos_f sin_f sqrt_f floatX pi_f fit g').
Proof.
  intros E.
  pose proof (draw_inputs_from_data g) as H. cbv zeta in H.
  pose proof (draw_inputs_from_data g') as H'. cbv zeta in H'.
  rewrite H, H'. cbn [fst]. rewrite <- E. f_equal. exact (proj2 (library_fit _ _ _ _ _)).
Qed.

End Fit.

End Cells.

End StreamFacts.

Module SeedFacts.

Import State Arrays ArraysFacts NumpyRandom RandomFacts Sklearn SklearnFacts.
Import Theano PyMC Notebook NotebookFacts ModelFacts PipelineFacts StreamFacts Examples.
Open Scope nat_scope.
Open Scope string_scope.

Lemma no_seeding_call :
  Forall (fun k => Source.seeds k = false) (Source.all_calls (concat Source.notebook)).
Proof.
  apply Forall_forall. intros k Hk.
  vm_compute in Hk.
  repeat (destruct Hk as [Hk|Hk]; [subst k; reflexivity|]).
  contradiction.
Qed.

Lemma first_label_zero : first_label stream_zero = 0%Z.
Proof. vm_compute. reflexivity. Qed.

Lemma first_label_count : first_label stream_count = 1%Z.
Proof. vm_compute. reflexivity. Qed.

(** The labels are those of the two half-moons, in the order the shuffle
    gives. *)
Lemma make_moons_labels (cos_f sin_f : Q -> Q) (pi_f : Q)
    (n : nat) (noise : Q) (g : RandomState) :
  snd (fst (make_moons cos_f sin_f pi_f n noise g)) = shuffled_labels n g.
Proof.
  unfold make_moons, shuffled_labels, bind, ret.
  destruct (shuffle O (seq 0 n) g) as [indices g1].
  destruct (normal noise _ 2 g1) as [e g2]. reflexivity.
Qed.

Lemma cell2_labels (cos_f sin_f sqrt_f : Q -> Q) (pi_f : Q) (g : RandomState) :
  snd (fst (cell2 cos_f sin_f sqrt_f pi_f g)) = shuffled_labels 1000 g.
Proof.
  unfold cell2, bind, ret.
  rewrite <- (make_moons_labels cos_f sin_f pi_f 1000 (1#5) g).
  destruct (make_moons cos_f sin_f pi_f 1000 (1#5) g) as [Xy g1]. reflexivity.
Qed.

Lemma draw_inputs_labels (cos_f sin_f sqrt_f floatX : Q -> Q) (pi_f : Q)
    (Approx : Type) (fit : Model -> env Q -> N -> Rand Approx) (g : RandomState) :
  in_y_int (fst (draw_inputs cos_f sin_f sqrt_f floatX pi_f fit g))
  = shuffled_labels 1000 g.
Proof.
  pose proof (draw_inputs_stages cos_f sin_f sqrt_f floatX pi_f fit g) as H.
  cbv zeta in H. destruct H as (_ & E & _).
  rewrite E. apply cell2_labels.
Qed.

#[local] Unset Implicit Arguments.

Lemma datasets_differ (cos_f sin_f sqrt_f floatX : Q -> Q) (pi_f : Q)
    (Approx : Type) (fit : Model -> env Q -> N -> Rand Approx)
    (g1 g2 : RandomState) :
  first_label g1 <> first_label g2 ->
  in_y_int (fst (draw_inputs cos_f sin_f sqrt_f floatX pi_f fit g1))
  <> in_y_int (fst (draw_inputs cos_f sin_f sqrt_f floatX pi_f fit g2)).
Proof.
  intros Hfirst. rewrite !draw_inputs_labels. intros H.
  apply Hfirst. unfold first_label. rewrite H. reflexivity.
Qed.

Lemma example_streams_differ : first_label stream_zero <> first_label stream_count.
Proof.
  rewrite first_label_zero, first_label_count. discriminate.
Qed.

Lemma fit_unit_contract : fit_contract fit_unit.
Proof. intros m shared n g g'. split; reflexivity. Qed.



End SeedFacts.

Module ExceptionFacts.

Import Source Exceptions.
Open Scope nat_scope.
Open Scope list_scope.

Section Run.

Variables St Exn : Type.
Variable exec_simple : simple -> St -> St * option Exn.
Variable ctx_exit : simple -> St -> St.

#[local] Abbreviation completes := (completes exec_simple).
#[local] Abbreviation raises := (raises exec_simple).
#[local] Abbreviation trace_of := (trace_of exec_simple).
#[local] Abbreviation run_block := (run_block exec_simple).
#[local] Abbreviation run_stmt := (run_stmt exec_simple ctx_exit).
#[local] Abbreviation run_stmts := (run_stmts exec_simple ctx_exit).

Lemma trace_of_nil : trace_of [] [] None.
Proof. split; [constructor | reflexivity]. Qed.

(** A completed block followed by another block. *)
Lemma trace_of_app (b1 b2 : list simple) (evs1 evs2 : list (event St))
    (r : option Exn) :
  trace_of b1 evs1 None -> trace_of b2 evs2 r ->
  trace_of (b1 ++ b2) (evs1 ++ evs2) r.
Proof.
  intros [H1 E1] H2. destruct r as [e|]; simpl in *.
  - destruct H2 as (before & ev & rest & E & Hc & Hr & Eb).
    exists (evs1 ++ before), ev, rest. subst evs2 b1 b2.
    split; [apply app_assoc|]. split; [apply Forall_app; split; assumption|].
    split; [assumption | rewrite map_app, <- app_assoc; reflexivity].
  - destruct H2 as [H2 E2]. split.
    + apply Forall_app. split; assumption.
    + subst b1 b2. apply map_app.
Qed.

(** What follows a block that raised does not run. *)
Lemma trace_of_raised (b b' : list simple) (evs : list (event St)) (e : Exn) :
  trace_of b evs (Some e) -> trace_of (b ++ b') evs (Some e).
Proof.
  intros (before & ev & rest & E & Hc & Hr & Eb).
  exists before, ev, (rest ++ b'). subst b.
  rewrite <- app_assoc. repeat split; assumption.
Qed.

Lemma run_block_trace (b : list simple) :
  forall (log : list (event St)) (st : St),
  exists evs,
    executed (run_block b log st) = log ++ evs /\
    trace_of b evs (raised (run_block b log st)).
Proof.
  induction b as [|s b IH]; intros log st; simpl.
  - exists []. rewrite app_nil_r. split; [reflexivity | apply trace_of_nil].
  - destruct (exec_simple s st) as [st' [e|]] eqn:E.
    + exists [(s, st)]. split; [reflexivity|].
      exists [], (s, st), b. repeat split; try constructor.
      unfold Exceptions.raises. simpl. rewrite E. reflexivity.
    + destruct (IH (log ++ [(s, st)]) st') as (evs & Ex & Ht).
      exists ((s, st) :: evs). split.
      * rewrite Ex, <- app_assoc. reflexivity.
      * apply (@trace_of_app [s] b [(s, st)] evs); [|exact Ht].
        split; [|reflexivity]. constructor; [|constructor].
        unfold Exceptions.completes. simpl. rewrite E. reflexivity.
Qed.

Lemma run_stmt_trace (s : stmt) (log : list (event St)) (st : St) :
  handler_free s = true ->
  exists evs,
    executed (run_stmt s log st) = log ++ evs /\
    trace_of (flatten s) evs (raised (run_stmt s log st)).
Proof.
  intros Hfree. destruct s as [s|h body|body handler].
  - apply (run_block_trace [s]).
  - unfold Exceptions.run_stmt, flatten.
    destruct (run_block_trace [h] log st) as (evs1 & E1 & H1).
    destruct (raised (run_block [h] log st)) as [e|] eqn:Er.
    + exists evs1. rewrite Er. split; [exact E1|].
      apply (@trace_of_raised [h] body). exact H1.
    + destruct (run_block_trace body (executed (run_block [h] log st))
                  (final (run_block [h] log st))) as (evs2 & E2 & H2).
      exists (evs1 ++ evs2). cbn [executed raised]. split.
      * rewrite E2, E1, <- app_assoc. reflexivity.
      * apply (@trace_of_app [h] body); assumption.
  - discriminate Hfree.
Qed.

Lemma run_stmts_trace (p : list stmt) :
  forallb handler_free p = true ->
  forall (log : list (event St)) (st : St),
  exists evs,
    executed (run_stmts p log st) = log ++ evs /\
    trace_of (statements p) evs (raised (run_stmts p log st)).
Proof.
  induction p as [|s p IH]; intros Hfree log st.
  - exists []. simpl. rewrite app_nil_r. split; [reflexivity | apply trace_of_nil].
  - simpl in Hfree. apply andb_true_iff in Hfree. destruct Hfree as [Hs Hp].
    cbn [Exceptions.run_stmts]. unfold statements. cbn [flat_map].
    destruct (run_stmt_trace s log st Hs) as (evs1 & E1 & H1).
    destruct (raised (run_stmt s log st)) as [e|] eqn:Er.
    + exists evs1. rewrite Er. split; [exact E1|]. apply trace_of_raised. exact H1.
    + destruct (IH Hp (executed (run_stmt s log st)) (final (run_stmt s log st)))
        as (evs2 & E2 & H2).
      exists (evs1 ++ evs2). split.
      * rewrite E2, E1, <- app_assoc. reflexivity.
      * apply trace_of_app; assumption.
Qed.

(** In a trace, a statement that raised is the last one, and what it
    raised is the outcome. *)
Lemma trace_of_raiser (b : list simple) (evs : list (event St)) (r : option Exn)
    (ev : event St) (e : Exn) :
  trace_of b evs r -> In ev evs -> raises ev e ->
  r = Some e /\
  exists before rest,
    evs = before ++ [ev] /\ Forall completes before /\
    b = map fst before ++ fst ev :: rest.
Proof.
  intros Ht Hin Hr. destruct r as [e'|]; simpl in Ht.
  - destruct Ht as (before & ev' & rest & E & Hc & Hr' & Eb). subst evs.
    apply in_app_or in Hin. destruct Hin as [Hin|[Hin|[]]].
    + rewrite Forall_forall in Hc. specialize (Hc ev Hin).
      unfold Exceptions.completes in Hc. unfold Exceptions.raises in Hr.
      congruence.
    + subst ev'. unfold Exceptions.raises in Hr, Hr'.
      split; [congruence|]. exists before, rest. repeat split; assumption.
  - destruct Ht as [Hc _]. rewrite Forall_forall in Hc. specialize (Hc ev Hin).
    unfold Exceptions.completes in Hc. unfold Exceptions.raises in Hr.
    congruence.
Qed.

(** The same for the cells of a handler-free notebook. *)
Lemma run_cells_raiser (nb : list cell) (st : St) (ev : event St) (e : Exn) :
  forallb handler_free (concat nb) = true ->
  In ev (executed (run_cells exec_simple ctx_exit nb st)) -> raises ev e ->
  raised (run_cells exec_simple ctx_exit nb st) = Some e /\
  exists before rest,
    executed (run_cells exec_simple ctx_exit nb st) = before ++ [ev] /\
    Forall completes before /\
    statements (concat nb) = map fst before ++ fst ev :: rest.
Proof.
  unfold run_cells. generalize (concat nb). intros p Hfree Hin Hr.
  destruct (run_stmts_trace p Hfree [] st) as (evs & E & Ht).
  change ([] ++ evs) with evs in E. rewrite E in Hin. rewrite E.
  eapply trace_of_raiser; eassumption.
Qed.

Lemma notebook_handler_free : forallb handler_free (concat notebook) = true.
Proof. reflexivity. Qed.

(** C6.  The notebook contains no handler, and in a run of all cells from
    any state, under any behaviour of the library calls: if a statement
    that was started raises, the run ends with exactly that exception,
    that statement is the last one started, every statement before it
    completed, and the statements started are a prefix of the notebook's
    statements in order, so nothing after the raising statement runs. *)
Theorem errors_propagate (st : St) (ev : event St) (e : Exn) :
  In ev (executed (run_cells exec_simple ctx_exit notebook st)) ->
  raises ev e ->
  forallb handler_free (concat notebook) = true /\
  raised (run_cells exec_simple ctx_exit notebook st) = Some e /\
  exists before rest,
    executed (run_cells exec_simple ctx_exit notebook st) = before ++ [ev] /\
    Forall completes before /\
    statements (concat notebook) = map fst before ++ fst ev :: rest.
Proof.
  intros Hin Hr. split; [exact notebook_handler_free|].
  exact (@run_cells_raiser notebook st ev e notebook_handler_free Hin Hr).
Qed.

End Run.

Import Examples.

(** A handler does catch: the handler-free condition is what the result
    rests on. *)
Remark try_except_catches :
  raised (Exceptions.run_stmts exec_fit_fails exit_keeps
            [TryExcept [fit_statement] []] [] 0%nat) = None.
Proof. reflexivity. Qed.

Lemma errors_propagate_witness :
  raised (run_cells exec_fit_fails exit_keeps notebook 0%nat)
  = Some "FloatingPointError"%string.
Proof.
  refine (proj1 (proj2 (@errors_propagate nat string exec_fit_fails exit_keeps
                          0%nat (fit_statement, 43%nat) "FloatingPointError"%string _ _))).
  - vm_compute. repeat (first [left; reflexivity | right]).
  - reflexivity.
Defined.

End ExceptionFacts.

Module EnvironmentFacts.

Import Source Names TheanoConfig.
Open Scope nat_scope.
Open Scope string_scope.
Open Scope list_scope.

#[local] Unset Implicit Arguments.

(** Every name a statement calls, reads or subscripts starts from a name
    the notebook itself bound, and none is an interface to the command
    line, the environment or the file system. *)
Lemma names_bound_inside :
  Forall (fun s => bound (root s) = true /\ outside s = false) names.
Proof.
  assert (H : forallb (fun s => bound (root s) && negb (outside s)) names = true)
    by (vm_compute; reflexivity).
  apply Forall_forall. intros s Hs.
  pose proof (proj1 (forallb_forall _ _) H s Hs) as E.
  apply andb_true_iff in E. destruct E as [E1 E2].
  apply negb_true_iff in E2. split; assumption.
Qed.

Lemma calls_inside :
  Forall (fun k => outside_call k = false) (all_calls (concat notebook)).
Proof.
  assert (H : forallb (fun k => negb (outside_call k)) (all_calls (concat notebook))
              = true)
    by (vm_compute; reflexivity).
  apply Forall_forall. intros k Hk.
  pose proof (proj1 (forallb_forall _ _) H k Hk) as E.
  apply negb_true_iff in E. exact E.
Qed.

Lemma magics_inside :
  Forall (fun m => mem_string (snd m) outside_magics = false) magics.
Proof. repeat constructor. Qed.

Lemma imports_inside :
  Forall (fun i => mem_string (root (snd (fst i))) outside_modules = false) imports.
Proof.
  assert (H : forallb (fun i => negb (mem_string (root (snd (fst i))) outside_modules))
                      imports = true)
    by (vm_compute; reflexivity).
  apply Forall_forall. intros i Hi.
  pose proof (proj1 (forallb_forall _ _) H i Hi) as E.
  apply negb_true_iff in E. exact E.
Qed.

Section Config.

Variable global_options : string -> list (string * string).

(** What [floatX] is after the import depends on the flags variable, on
    the variable naming the configuration file and on that file. *)
Lemma floatX_of_reads (environ files environ' files' : list (string * string)) :
  lookup "THEANO_FLAGS" environ = lookup "THEANO_FLAGS" environ' ->
  lookup "THEANORC" environ = lookup "THEANORC" environ' ->
  lookup (rc_path environ) files = lookup (rc_path environ') files' ->
  floatX_of global_options environ files = floatX_of global_options environ' files'.
Proof.
  intros Hflags Hrc Hfile. unfold floatX_of, env_flags, rc_flags.
  rewrite Hflags, Hfile. reflexivity.
Qed.

Lemma floatX_default : floatX_of global_options [] [] = "float64".
Proof. reflexivity. Qed.

Lemma floatX_from_flags (files : list (string * string)) :
  floatX_of global_options [("THEANO_FLAGS", "floatX=float32")] files = "float32".
Proof. reflexivity. Qed.

End Config.



End EnvironmentFacts.

Module InstanceFacts.

Import State Arrays NumpyRandom Sklearn Theano PyMC Notebook Examples.
Open Scope nat_scope.
Open Scope string_scope.
Open Scope list_scope.

Lemma zero_draws_contract : sampler_contract zero_draws.
Proof.
  intros a n. unfold zero_draws. cbn [fst]. split.
  - apply repeat_length.
  - apply Forall_forall. intros d Hd. apply repeat_spec in Hd. subst d.
    exists (repeat (repeat 0%Q 5) 2), (repeat (repeat 0%Q 5) 5), (repeat 0%Q 5).
    split; [reflexivity|]. split; [split; [reflexivity | repeat constructor]|].
    split; [reflexivity|]. split; [split; [reflexivity | repeat constructor]|].
    split; reflexivity.
Qed.

Lemma all_cells_run_witness :
  exists i o,
    run_all exact exact exact exact exact exact 3%Q fit_unit zero_draws stream_zero
    = Some (i, o) /\
    (exists G0 G1, grid exact = [G0; G1]
                   /\ has_shape 100 100 G0 /\ has_shape 100 100 G1) /\
    has_shape (100 * 100) 2 (out_grid_2d o) /\
    has_shape 500 (100 * 100) (out_ppc o) /\
    has_shape 100 100 (out_mean_surface o) /\
    has_shape 100 100 (out_std_surface o) /\
    length (out_pred o) = 300 /\
    nrows (X_test (in_split i)) = 300 /\
    length (y_test (in_split i)) = 300.
Proof.
  exact (@PipelineFacts.all_cells_run exact exact exact exact exact exact 3%Q
           unit fit_unit zero_draws zero_draws_contract stream_zero).
Defined.


End InstanceFacts.

Module ScatterFacts.

Import State Arrays ArraysFacts NumpyRandom RandomFacts Sklearn SklearnFacts.
Import Notebook NotebookFacts PipelineFacts Measures Examples.
Open Scope nat_scope.
Open Scope list_scope.

#[local] Unset Implicit Arguments.

Lemma count_true_cons (b : bool) (mask : list bool) :
  count_true (b :: mask) = (if b then 1 else 0) + count_true mask.
Proof. unfold count_true. simpl. destruct b; reflexivity. Qed.

Lemma length_filter_mask (a : matrix) :
  forall mask : list bool,
    length mask = length a ->
    length (filter (fun rm : list Q * bool => snd rm) (combine a mask))
    = count_true mask.
Proof.
  induction a as [|row a IH]; intros [|b mask] Hlen; simpl in Hlen;
    try discriminate; try reflexivity.
  rewrite count_true_cons. simpl. destruct b; simpl; rewrite IH by lia; reflexivity.
Qed.

(** A boolean mask selects as many values as it has entries set. *)
Lemma mask_index_length (mask : list bool) (j : nat) (a : matrix) (v : vector) :
  mask_index mask j a = Some v -> length v = count_true mask.
Proof.
  unfold mask_index.
  destruct (Nat.eqb (length mask) (nrows a)) eqn:E; [|discriminate].
  destruct (forallb _ a); [|discriminate].
  simpl. intros H. injection H as H. subst v.
  rewrite length_map. apply length_filter_mask.
  apply Nat.eqb_eq in E. exact E.
Qed.

Lemma scatter_classes_lengths (X : matrix) (c0 c1 : list bool) (r : nat) :
  has_shape r 2 X -> length c0 = r -> length c1 = r ->
  exists x0 y0 x1 y1,
    scatter_classes X c0 c1 = Some [x0; y0; x1; y1] /\
    length x0 = count_true c0 /\ length y0 = count_true c0 /\
    length x1 = count_true c1 /\ length y1 = count_true c1.
Proof.
  intros [Hr Hc] H0 H1. unfold scatter_classes.
  destruct (@mask_index_ok c0 0 2 X) as [a Ea]; [unfold nrows; lia | exact Hc | lia |].
  destruct (@mask_index_ok c0 1 2 X) as [b Eb]; [unfold nrows; lia | exact Hc | lia |].
  destruct (@mask_index_ok c1 0 2 X) as [c Ec]; [unfold nrows; lia | exact Hc | lia |].
  destruct (@mask_index_ok c1 1 2 X) as [d Ed]; [unfold nrows; lia | exact Hc | lia |].
  rewrite Ea, Eb, Ec, Ed. exists a, b, c, d.
  split; [reflexivity|].
  split; [exact (mask_index_length _ _ _ _ Ea)|].
  split; [exact (mask_index_length _ _ _ _ Eb)|].
  split; [exact (mask_index_length _ _ _ _ Ec) | exact (mask_index_length _ _ _ _ Ed)].
Qed.

(** The two masks [p == 0] and [p == 1] of a bool array are complementary. *)
Lemma count_true_pred (p : list bool) :
  count_true (eq_bool_int p 0) + count_true (eq_bool_int p 1) = length p /\
  count_true (eq_bool_int p 1) = count_true p.
Proof.
  induction p as [|b p [IH1 IH2]]; [split; reflexivity|].
  unfold eq_bool_int in *. simpl map. rewrite !count_true_cons. simpl length.
  destruct b; simpl; lia.
Qed.

Lemma count_true_eq_int_perm (k : Z) (l l' : list Z) :
  Permutation l l' -> count_true (eq_int l k) = count_true (eq_int l' k).
Proof.
  intros H. induction H as [|v l l' H IH|u v l|l1 l2 l3 H1 IH1 H2 IH2].
  - reflexivity.
  - unfold eq_int in *. simpl map. rewrite !count_true_cons, IH. reflexivity.
  - unfold eq_int. simpl map. rewrite !count_true_cons. lia.
  - congruence.
Qed.

Lemma count_true_eq_int_app (k : Z) (l l' : list Z) :
  count_true (eq_int (l ++ l') k) = count_true (eq_int l k) + count_true (eq_int l' k).
Proof.
  unfold count_true, eq_int. rewrite map_app, filter_app, length_app. reflexivity.
Qed.

Lemma count_true_eq_int_repeat (k v : Z) (n : nat) :
  count_true (eq_int (repeat v n) k) = if Z.eqb v k then n else 0.
Proof.
  induction n as [|n IH]; simpl repeat.
  - destruct (Z.eqb v k); reflexivity.
  - unfold eq_int in *. simpl map. rewrite count_true_cons, IH.
    destruct (Z.eqb v k); reflexivity.
Qed.

(** Whatever the shuffle, half of the labels are 0 and the rest 1. *)
Lemma shuffled_labels_counts (n : nat) (g : RandomState) :
  count_true (eq_int (shuffled_labels n g) 0) = n / 2 /\
  count_true (eq_int (shuffled_labels n g) 1) = n - n / 2.
Proof.
  unfold shuffled_labels.
  assert (Hle : n / 2 <= n) by (apply Nat.Div0.div_le_upper_bound; lia).
  assert (Hperm : Permutation (repeat 0%Z (n / 2) ++ repeat 1%Z (n - n / 2))
                    (take 0%Z (repeat 0%Z (n / 2) ++ repeat 1%Z (n - n / 2))
                          (fst (shuffle 0 (seq 0 n) g)))).
  { apply take_permutation.
    rewrite length_app, !repeat_length.
    replace (n / 2 + (n - n / 2)) with n by lia.
    apply shuffle_permutation. }
  rewrite <- !(count_true_eq_int_perm _ _ _ Hperm).
  rewrite !count_true_eq_int_app, !count_true_eq_int_repeat. simpl. lia.
Qed.

End ScatterFacts.

Module ScatterTheorems.

Import State Arrays ArraysFacts NumpyRandom RandomFacts Sklearn SklearnFacts.
Import Theano PyMC Notebook NotebookFacts ModelFacts PipelineFacts.
Import Measures ScatterFacts Examples.
Open Scope nat_scope.
Open Scope list_scope.

#[local] Unset Implicit Arguments.

(** X1.  On every stream the dataset of cell 2 has exactly 500 labels 0
    and 500 labels 1, and the two scatter calls of that cell each get 500
    points: the four coordinate arrays exist and have length 500. *)
Theorem classes_are_balanced (cos_f sin_f sqrt_f : Q -> Q) (pi_f : Q)
    (g : RandomState) :
  let Xy := fst (cell2 cos_f sin_f sqrt_f pi_f g) in
  count_true (eq_int (snd Xy) 0) = 500 /\
  count_true (eq_int (snd Xy) 1) = 500 /\
  exists x0 y0 x1 y1,
    cell2_scatter (fst Xy) (snd Xy) = Some [x0; y0; x1; y1] /\
    length x0 = 500 /\ length y0 = 500 /\ length x1 = 500 /\ length y1 = 500.
Proof.
  cbv zeta.
  pose proof (SeedFacts.cell2_labels cos_f sin_f sqrt_f pi_f g) as El.
  pose proof (shuffled_labels_counts 1000 g) as [C0 C1].
  change (1000 / 2) with 500 in C0. change (1000 - 1000 / 2) with 500 in C1.
  rewrite <- El in C0, C1.
  pose proof (@cell2_shape cos_f sin_f sqrt_f pi_f g) as (HX & Hy & _).
  split; [exact C0|]. split; [exact C1|].
  destruct (scatter_classes_lengths _ (eq_int (snd (fst (cell2 cos_f sin_f sqrt_f pi_f g))) 0)
              (eq_int (snd (fst (cell2 cos_f sin_f sqrt_f pi_f g))) 1) 1000 HX)
    as (x0 & y0 & x1 & y1 & E & L0 & L1 & L2 & L3);
    try (unfold eq_int; rewrite length_map; exact Hy).
  exists x0, y0, x1, y1. unfold cell2_scatter.
  split; [exact E|]. rewrite L0, L1, L2, L3, C0, C1. repeat split.
Qed.

Lemma mask_index_value (mask : list bool) (j : nat) (a : matrix) (v : vector) :
  mask_index mask j a = Some v ->
  length mask = length a /\
  v = map (fun row => nth j row 0%Q)
          (map fst (filter (fun rm : list Q * bool => snd rm) (combine a mask))).
Proof.
  unfold mask_index.
  destruct (Nat.eqb (length mask) (nrows a)) eqn:E; [|discriminate].
  destruct (forallb _ a); [|discriminate].
  simpl. intros H. injection H as H. subst v.
  apply Nat.eqb_eq in E. split; [exact E|]. rewrite map_map. reflexivity.
Qed.

Lemma combine_columns (rows : matrix) :
  combine (map (fun row => nth 0 row 0%Q) rows) (map (fun row => nth 1 row 0%Q) rows)
  = map point rows.
Proof.
  induction rows as [|row rows IH]; [reflexivity|].
  simpl. rewrite IH. reflexivity.
Qed.

(** The rows a mask [p == k] selects are the rows whose prediction is
    [k]. *)
Lemma selected_by_prediction (b : bool) :
  forall (a : matrix) (p : list bool),
    length p = length a ->
    map point (map fst (filter (fun rm : list Q * bool => snd rm)
                               (combine a (eq_bool_int p (if b then 1 else 0)%Z))))
    = map snd (filter (fun bp : bool * (Q * Q) => Bool.eqb (fst bp) b)
                      (combine p (map point a))).
Proof.
  induction a as [|row a IH]; intros [|q p] Hlen; simpl in Hlen;
    try discriminate; try reflexivity.
  unfold eq_bool_int in *. simpl.
  destruct q, b; simpl; rewrite IH by lia; reflexivity.
Qed.

Lemma map_snd_combine {A B} :
  forall (l : list A) (l' : list B),
    length l = length l' -> map snd (combine l l') = l'.
Proof.
  induction l as [|x l IH]; intros [|y l'] Hlen; simpl in Hlen;
    try discriminate; try reflexivity.
  simpl. rewrite IH by lia. reflexivity.
Qed.

(** Splitting a list by a boolean label rearranges it. *)
Lemma split_by_label {A} (l : list (bool * A)) :
  Permutation (map snd (filter (fun bp : bool * A => Bool.eqb (fst bp) false) l)
               ++ map snd (filter (fun bp : bool * A => Bool.eqb (fst bp) true) l))
              (map snd l).
Proof.
  induction l as [|[b x] l IH]; [constructor|].
  destruct b; simpl.
  - apply Permutation_sym, Permutation_cons_app, Permutation_sym. exact IH.
  - apply perm_skip. exact IH.
Qed.

Section Cells.

Variables cos_f sin_f sqrt_f tanh_f sigmoid_f floatX : Q -> Q.
Variable pi_f : Q.
Variable Approx : Type.
Variable fit : Model -> env Q -> N -> Rand Approx.
Variable posterior_draws : Approx -> nat -> list (env Q) * Approx.

(** What a completed run of the cells after the fit computed, cell by
    cell. *)
Lemma predict_and_plot_steps (i : Inputs Approx) (o : Outputs Approx) :
  predict_and_plot sqrt_f tanh_f sigmoid_f floatX posterior_draws i = Some o ->
  cell2_scatter (in_X_scaled i) (in_y_int i) = Some (out_scatter_data o) /\
  out_pred o = pred_of floatX (out_proba o) /\
  out_accuracy o = accuracy (y_test (in_split i)) (out_pred o) /\
  scatter_classes (X_test (in_split i)) (eq_bool_int (out_pred o) 0)
                  (eq_bool_int (out_pred o) 1) = Some (out_scatter_pred o) /\
  grid_2d floatX = Some (out_grid_2d o) /\
  mean_surface (out_ppc o) = Some (out_mean_surface o) /\
  std_surface sqrt_f (out_ppc o) = Some (out_std_surface o) /\
  exists nd a1 a2 a3,
    _sample_proba (in_neural_network i) = Some nd /\
    a1 = snd (posterior_draws (in_approx i) 5000) /\
    sample_proba tanh_f sigmoid_f posterior_draws nd (shared_store (in_split i))
                 a1 (X_test (in_split i)) 500 = (Some (out_proba o), a2) /\
    sample_proba tanh_f sigmoid_f posterior_draws nd (shared_store (in_split i))
                 a2 (out_grid_2d o) 500 = (Some (out_ppc o), a3).
Proof.
  unfold predict_and_plot.
  destruct (cell2_scatter (in_X_scaled i) (in_y_int i)) as [sd|]; [|discriminate].
  destruct (posterior_draws (in_approx i) 5000) as [trace approx1].
  destruct (_sample_proba (in_neural_network i)) as [nd|]; [|discriminate].
  destruct (sample_proba tanh_f sigmoid_f posterior_draws nd _ approx1
              (X_test (in_split i)) 500) as [[proba|] approx2] eqn:E1; [|discriminate].
  destruct (scatter_classes (X_test (in_split i)) _ _) as [sp|] eqn:Esp; [|discriminate].
  destruct (grid_2d floatX) as [g2|]; [|discriminate].
  destruct (sample_proba tanh_f sigmoid_f posterior_draws nd _ approx2 g2 500)
    as [[ppc|] approx3] eqn:E2; [|discriminate].
  destruct (mean_surface ppc) as [ms|] eqn:Ems; [|discriminate].
  destruct (std_surface sqrt_f ppc) as [ss|] eqn:Ess; [|discriminate].
  intros H. injection H as H. subst o. cbn.
  repeat (split; [first [reflexivity | assumption]|]).
  exists nd, approx1, approx2, approx3. repeat split; assumption.
Qed.

Hypothesis sampler : sampler_contract posterior_draws.

(** A run of all cells is the run of the cells after the fit on the
    kernel the earlier cells leave. *)
Lemma run_all_steps (g : RandomState) :
  exists o,
    predict_and_plot sqrt_f tanh_f sigmoid_f floatX posterior_draws
      (fst (draw_inputs cos_f sin_f sqrt_f floatX pi_f fit g)) = Some o /\
    run_all cos_f sin_f sqrt_f tanh_f sigmoid_f floatX pi_f fit posterior_draws g
    = Some (fst (draw_inputs cos_f sin_f sqrt_f floatX pi_f fit g), o) /\
    has_shape 500 300 (out_proba o) /\
    length (out_pred o) = 300 /\
    has_shape (100 * 100) 2 (out_grid_2d o) /\
    has_shape 500 (100 * 100) (out_ppc o) /\
    has_shape 100 100 (out_mean_surface o) /\
    has_shape 100 100 (out_std_surface o).
Proof.
  unfold run_all.
  pose proof (draw_inputs_stages cos_f sin_f sqrt_f floatX pi_f fit g) as Hs.
  pose proof (draw_inputs_shapes cos_f sin_f sqrt_f floatX pi_f fit g) as Hsh.
  cbv zeta in Hs, Hsh.
  destruct Hs as (_ & _ & _ & _ & _ & _ & _ & Em).
  destruct Hsh as (_ & Hy & _ & _ & Ht & _).
  pose proof (draw_inputs_scaled_shape cos_f sin_f sqrt_f floatX pi_f fit g) as HX.
  destruct (@predict_and_plot_ok sqrt_f tanh_f sigmoid_f floatX Approx
              posterior_draws sampler _ 1000 300 HX Hy Ht Em)
    as (o & Eo & HP & _ & Hp & _ & Hg & HC & Hms & Hss).
  exists o. split; [exact Eo|]. rewrite Eo. unfold option_map.
  split; [reflexivity|].
  split; [exact HP|]. split; [exact Hp|]. split; [exact Hg|].
  split; [exact HC|]. split; [exact Hms | exact Hss].
Qed.

(** X2.  In a run of all cells, the two scatter calls of cell 12 get
    the test points predicted 0 and the test points predicted 1, each
    coordinate pair a row of the test set, in the order of the test set;
    the two groups together are a rearrangement of the 300 test points,
    and the second has as many points as the prediction vector has
    entries set. *)
Theorem predicted_classes_cover_test_set (g : RandomState) :
  exists i o x0 y0 x1 y1,
    run_all cos_f sin_f sqrt_f tanh_f sigmoid_f floatX pi_f fit posterior_draws g
    = Some (i, o) /\
    out_scatter_pred o = [x0; y0; x1; y1] /\
    let points := map point (X_test (in_split i)) in
    let labelled := combine (out_pred o) points in
    length points = 300 /\ length (out_pred o) = 300 /\
    length y0 = length x0 /\ length y1 = length x1 /\
    combine x0 y0
    = map snd (filter (fun bp : bool * (Q * Q) => Bool.eqb (fst bp) false) labelled) /\
    combine x1 y1
    = map snd (filter (fun bp : bool * (Q * Q) => Bool.eqb (fst bp) true) labelled) /\
    Permutation (combine x0 y0 ++ combine x1 y1) points /\
    length x0 + length x1 = 300 /\
    length x1 = count_true (out_pred o).
Proof.
  destruct (run_all_steps g) as (o & Eo & E & _ & Hp & _).
  set (i := fst (draw_inputs cos_f sin_f sqrt_f floatX pi_f fit g)) in *.
  destruct (predict_and_plot_steps i o Eo) as (_ & _ & _ & Esp & _).
  pose proof (draw_inputs_shapes cos_f sin_f sqrt_f floatX pi_f fit g) as Hsh.
  cbv zeta in Hsh. fold i in Hsh. destruct Hsh as (_ & _ & _ & _ & Ht & _).
  destruct (scatter_classes_lengths (X_test (in_split i))
              (eq_bool_int (out_pred o) 0) (eq_bool_int (out_pred o) 1) 300 Ht)
    as (x0 & y0 & x1 & y1 & E' & L0 & L1 & L2 & L3);
    try (unfold eq_bool_int; rewrite length_map; exact Hp).
  pose proof E' as Ev. unfold scatter_classes in Ev.
  destruct (mask_index (eq_bool_int (out_pred o) 0) 0 _) as [a0|] eqn:M0; [|discriminate].
  destruct (mask_index (eq_bool_int (out_pred o) 0) 1 _) as [b0|] eqn:M1; [|discriminate].
  destruct (mask_index (eq_bool_int (out_pred o) 1) 0 _) as [a1|] eqn:M2; [|discriminate].
  destruct (mask_index (eq_bool_int (out_pred o) 1) 1 _) as [b1|] eqn:M3; [|discriminate].
  injection Ev as -> -> -> ->.
  apply mask_index_value in M0, M1, M2, M3.
  destruct M0 as [_ M0], M1 as [_ M1], M2 as [_ M2], M3 as [_ M3].
  rewrite Esp in E'. injection E' as E'.
  destruct (count_true_pred (out_pred o)) as [Hsum Hones].
  destruct Ht as [Htr Htc].
  assert (Hlen : length (out_pred o) = length (X_test (in_split i)))
    by (rewrite Hp, Htr; reflexivity).
  assert (C0 : combine x0 y0
               = map snd (filter (fun bp : bool * (Q * Q) => Bool.eqb (fst bp) false)
                                 (combine (out_pred o)
                                          (map point (X_test (in_split i)))))).
  { rewrite M0, M1, combine_columns.
    exact (selected_by_prediction false _ _ Hlen). }
  assert (C1 : combine x1 y1
               = map snd (filter (fun bp : bool * (Q * Q) => Bool.eqb (fst bp) true)
                                 (combine (out_pred o)
                                          (map point (X_test (in_split i)))))).
  { rewrite M2, M3, combine_columns.
    exact (selected_by_prediction true _ _ Hlen). }
  exists i, o, x0, y0, x1, y1.
  split; [exact E|]. split; [exact E'|]. cbv zeta.
  split; [rewrite length_map; exact Htr|]. split; [exact Hp|].
  split; [rewrite L0, L1; reflexivity|]. split; [rewrite L2, L3; reflexivity|].
  split; [exact C0|]. split; [exact C1|].
  split.
  { rewrite C0, C1.
    eapply Permutation_trans; [apply split_by_label|].
    rewrite map_snd_combine by (rewrite length_map; exact Hlen).
    apply Permutation_refl. }
  rewrite L0, L2, Hones. split; [rewrite <- Hones, Hsum; exact Hp | reflexivity].
Qed.

End Cells.

Lemma predicted_classes_cover_test_set_witness :
  exists i o x0 y0 x1 y1,
    run_all exact exact exact exact exact exact 3%Q fit_unit zero_draws stream_zero
    = Some (i, o) /\
    out_scatter_pred o = [x0; y0; x1; y1] /\
    let points := map point (X_test (in_split i)) in
    let labelled := combine (out_pred o) points in
    length points = 300 /\ length (out_pred o) = 300 /\
    length y0 = length x0 /\ length y1 = length x1 /\
    combine x0 y0
    = map snd (filter (fun bp : bool * (Q * Q) => Bool.eqb (fst bp) false) labelled) /\
    combine x1 y1
    = map snd (filter (fun bp : bool * (Q * Q) => Bool.eqb (fst bp) true) labelled) /\
    Permutation (combine x0 y0 ++ combine x1 y1) points /\
    length x0 + length x1 = 300 /\
    length x1 = count_true (out_pred o).
Proof.
  exact (predicted_classes_cover_test_set exact exact exact exact exact exact 3%Q
           unit fit_unit zero_draws InstanceFacts.zero_draws_contract stream_zero).
Defined.

End ScatterTheorems.

Module InitialPointFacts.

Import State Arrays ArraysFacts NumpyRandom RandomFacts Sklearn SklearnFacts.
Import Theano TheanoFacts PyMC Notebook NotebookFacts ModelFacts StreamFacts.
Import Measures ModelNotions.
Open Scope nat_scope.
Open Scope string_scope.
Open Scope list_scope.

#[local] Unset Implicit Arguments.

Lemma tape_block_shape (g : RandomState) (start r c : nat) :
  has_shape r c (tape_block g start r c).
Proof.
  unfold tape_block. split.
  - rewrite length_map. apply length_seq.
  - apply Forall_map. apply Forall_forall. intros k _.
    rewrite length_map. apply length_seq.
Qed.

Lemma neural_network_testvals (X : matrix) (y_train : vector)
    (init_1 init_2 : matrix) (init_out : vector) :
  has_shape (ncols X) 5 init_1 -> has_shape 5 5 init_2 -> length init_out = 5 ->
  Forall testval_fits (free_RVs (neural_network X y_train init_1 init_2 init_out)).
Proof.
  intros H1 H2 H3.
  change (free_RVs (neural_network X y_train init_1 init_2 init_out))
    with [ mkRV "w_in_1" (NormalDist 0 1) [ncols X; 5] (Some (Mat init_1)) None None;
           mkRV "w_1_2" (NormalDist 0 1) [5; 5] (Some (Mat init_2)) None None;
           mkRV "w_2_out" (NormalDist 0 1) [5] (Some (Vec init_out)) None None ].
  apply Forall_cons; [exact H1|]. apply Forall_cons; [exact H2|].
  apply Forall_cons; [exact H3 | apply Forall_nil].
Qed.

(** At the initial values the likelihood parameter evaluates, on the
    training inputs held by the shared variable, to one number per
    training row. *)
Lemma likelihood_at_test_point (tanh_f sigmoid_f : Q -> Q) (X : matrix) (s : Split)
    (init_1 init_2 : matrix) (init_out : vector) (n : nat) :
  has_shape n 2 (X_train s) ->
  has_shape 2 5 init_1 -> has_shape 5 5 init_2 -> length init_out = 5 ->
  exists v,
    eval 0%Q Qplus Qmult tanh_f sigmoid_f (shared_store s)
         (test_point (neural_network X (y_train s) init_1 init_2 init_out))
         (act_out (RandomVar "w_in_1") (RandomVar "w_1_2") (RandomVar "w_2_out"))
    = Some (Vec v) /\ length v = n.
Proof.
  intros HX H1 H2 H3.
  destruct (@eval_layers Q 0%Q Qplus Qmult tanh_f sigmoid_f
              (fun _ => True) (fun _ => True)
              (shared_store s)
              (test_point (neural_network X (y_train s) init_1 init_2 init_out))
              ann_input (RandomVar "w_in_1") (RandomVar "w_1_2") (RandomVar "w_2_out")
              (X_train s) init_1 init_2 init_out n 2 5)
    as (A1 & A2 & p & _ & _ & _ & _ & _ & _ & Ep & Hp & _);
    try assumption; try reflexivity; try lia; try (intros; exact I).
  exists p. split; [exact Ep | exact Hp].
Qed.

Section Cells.

Variables cos_f sin_f sqrt_f tanh_f sigmoid_f floatX : Q -> Q.
Variable pi_f : Q.
Variable Approx : Type.
Variable fit : Model -> env Q -> N -> Rand Approx.

Lemma draw_inputs_init_shapes (g : RandomState) :
  let i := fst (draw_inputs cos_f sin_f sqrt_f floatX pi_f fit g) in
  has_shape 2 5 (in_init_1 i) /\ has_shape 5 5 (in_init_2 i) /\
  length (in_init_out i) = 5.
Proof.
  cbv zeta.
  pose proof (draw_inputs_inits cos_f sin_f sqrt_f floatX pi_f Approx fit g) as H.
  cbv zeta in H. destruct H as (E1 & E2 & E3).
  rewrite E1, E2, E3.
  split; [apply astype_floatX_shape; apply tape_block_shape|].
  split; [apply astype_floatX_shape; apply tape_block_shape|].
  rewrite !length_map. apply length_seq.
Qed.

(** X4.  On every stream, the initial value given as [testval] to each
    of the three weights has exactly the shape declared for that weight. *)
Theorem initial_values_fit_declared_shapes (g : RandomState) :
  Forall testval_fits
    (free_RVs (in_neural_network
                 (fst (draw_inputs cos_f sin_f sqrt_f floatX pi_f fit g)))).
Proof.
  pose proof (draw_inputs_stages cos_f sin_f sqrt_f floatX pi_f fit g) as H.
  cbv zeta in H. destruct H as (_ & _ & _ & _ & _ & _ & _ & Em).
  pose proof (draw_inputs_shapes cos_f sin_f sqrt_f floatX pi_f fit g) as Hs.
  cbv zeta in Hs. destruct Hs as (HX & _).
  pose proof (draw_inputs_init_shapes g) as (H1 & H2 & H3). cbv zeta in H1, H2, H3.
  rewrite Em. apply neural_network_testvals; try assumption.
  rewrite (ncols_shape HX) by apply Nat.lt_0_succ. exact H1.
Qed.

(** X5.  On every stream, the model of cell 5 is consistent at its
    initial point: the parameter of the Bernoulli likelihood, evaluated
    on the training inputs at the initial weights, is a vector of 700
    numbers, as many as the observed training labels held by
    [ann_output], and [total_size] is that same 700. *)
Theorem likelihood_matches_observed (g : RandomState) :
  let i := fst (draw_inputs cos_f sin_f sqrt_f floatX pi_f fit g) in
  let m := in_neural_network i in
  exists (p : tensor) (v : vector),
    map rv_distribution (observed_RVs m) = [BernoulliDist p] /\
    eval 0%Q Qplus Qmult tanh_f sigmoid_f (shared_store (in_split i))
         (test_point m) p = Some (Vec v) /\
    length v = 700 /\
    map rv_observed (observed_RVs m) = [Some ann_output] /\
    shared_store (in_split i) "ann_output" = Some (Vec (y_train (in_split i))) /\
    length (y_train (in_split i)) = 700 /\
    map rv_total_size (observed_RVs m) = [Some 700].
Proof.
  cbv zeta.
  pose proof (draw_inputs_stages cos_f sin_f sqrt_f floatX pi_f fit g) as H.
  cbv zeta in H. destruct H as (_ & _ & _ & _ & _ & _ & _ & Em).
  pose proof (draw_inputs_shapes cos_f sin_f sqrt_f floatX pi_f fit g) as Hs.
  cbv zeta in Hs. destruct Hs as (_ & _ & _ & _ & _ & _ & Htr & Hytr).
  pose proof (draw_inputs_init_shapes g) as (H1 & H2 & H3). cbv zeta in H1, H2, H3.
  rewrite Em.
  set (i := fst (draw_inputs cos_f sin_f sqrt_f floatX pi_f fit g)) in *.
  destruct (likelihood_at_test_point tanh_f sigmoid_f (in_X i) (in_split i)
              (in_init_1 i) (in_init_2 i) (in_init_out i) 700 Htr H1 H2 H3)
    as (v & Ev & Hv).
  exists (act_out (RandomVar "w_in_1") (RandomVar "w_1_2") (RandomVar "w_2_out")), v.
  split; [reflexivity|]. split; [exact Ev|]. split; [exact Hv|].
  split; [reflexivity|]. split; [reflexivity|]. split; [exact Hytr|].
  change (map rv_total_size
            (observed_RVs (neural_network (in_X i) (y_train (in_split i))
                             (in_init_1 i) (in_init_2 i) (in_init_out i))))
    with [Some (length (y_train (in_split i)))].
  rewrite Hytr. reflexivity.
Qed.

End Cells.

End InitialPointFacts.

Module ForwardFacts.

Import State Arrays ArraysFacts NumpyRandom Sklearn.
Import Theano TheanoFacts PyMC Notebook NotebookFacts PipelineFacts.
Import Measures ForwardNotions.
Open Scope nat_scope.
Open Scope string_scope.
Open Scope list_scope.

#[local] Unset Implicit Arguments.

Lemma dot_mat_mat_value (n k c : nat) (A B : matrix) :
  shaped n k A -> shaped k c B -> 0 < k ->
  dot 0%Q Qplus Qmult (Mat A) (Mat B)
  = Some (Mat (map (fun r => map (dotv 0%Q Qplus Qmult r) (columns 0%Q B)) A)).
Proof.
  intros HA HB Hk. cbn [dot].
  rewrite (rectangular_shaped HB Hk).
  destruct HA as [HAr HAc]. destruct HB as [HBr HBc].
  rewrite HBr, (forallb_length HAc). reflexivity.
Qed.

Lemma dot_mat_vec_value (n k : nat) (A : matrix) (v : vector) :
  shaped n k A -> length v = k ->
  dot 0%Q Qplus Qmult (Mat A) (Vec v)
  = Some (Vec (map (fun r => dotv 0%Q Qplus Qmult r v) A)).
Proof.
  intros [HAr HAc] Hv. cbn [dot]. rewrite Hv, (forallb_length HAc). reflexivity.
Qed.

Lemma layer_shape (tanh_f : Q -> Q) (n k c : nat) (A B : matrix) :
  shaped n k A -> shaped k c B -> 0 < k ->
  shaped n c (map (map tanh_f)
                  (map (fun r => map (dotv 0%Q Qplus Qmult r) (columns 0%Q B)) A)).
Proof.
  intros HA HB Hk. apply map_map_shaped. destruct HA as [HAr HAc]. split.
  - rewrite length_map. exact HAr.
  - apply Forall_map. apply Forall_forall. intros row _.
    rewrite length_map, length_columns. apply (width_shaped HB Hk).
Qed.

Section Graph.

Variables tanh_f sigmoid_f : Q -> Q.

(** For weights of the declared shapes the compiled graph applies the
    network to each row of its argument. *)
Lemma eval_node_forward (shared rvs : env Q) (X W1 W2 : matrix) (w : vector) (r : nat) :
  rvs "w_in_1" = Some (Mat W1) -> shaped 2 5 W1 ->
  rvs "w_1_2" = Some (Mat W2) -> shaped 5 5 W2 ->
  rvs "w_2_out" = Some (Vec w) -> length w = 5 ->
  has_shape r 2 X ->
  eval 0%Q Qplus Qmult tanh_f sigmoid_f (bind_var "X" (Mat X) shared) rvs node
  = Some (Vec (map (forward tanh_f sigmoid_f W1 W2 w) X)).
Proof.
  intros E1 H1 E2 H2 E3 H3 HX. unfold node, x. cbn [eval].
  rewrite E1, E2, E3.
  change (bind_var "X" (Mat X) shared "X") with (Some (Mat X)).
  cbv beta iota.
  rewrite (dot_mat_mat_value r 2 5 X W1 HX H1) by lia. cbn [option_map elementwise].
  pose proof (layer_shape tanh_f r 2 5 X W1 HX H1 (Nat.lt_0_succ 1)) as HA1.
  rewrite (dot_mat_mat_value r 5 5 _ W2 HA1 H2) by lia. cbn [option_map elementwise].
  pose proof (layer_shape tanh_f r 5 5 _ W2 HA1 H2 (Nat.lt_0_succ 4)) as HA2.
  rewrite (dot_mat_vec_value r 5 _ w HA2 H3). cbn [option_map elementwise].
  rewrite !map_map. reflexivity.
Qed.

(** On rows that do not have two entries the first product fails. *)
Lemma eval_node_wrong_width (shared rvs : env Q) (X : matrix) (r k : nat) :
  well_shaped_draw rvs -> has_shape r k X -> 0 < r -> k <> 2 ->
  eval 0%Q Qplus Qmult tanh_f sigmoid_f (bind_var "X" (Mat X) shared) rvs node = None.
Proof.
  intros (W1 & W2 & w & E1 & H1 & E2 & H2 & E3 & H3) [Hr Hc] Hpos Hk.
  unfold node, x. cbn [eval]. rewrite E1, E2, E3.
  change (bind_var "X" (Mat X) shared "X") with (Some (Mat X)).
  cbv beta iota.
  assert (Hdot : dot 0%Q Qplus Qmult (Mat X) (Mat W1) = None).
  { cbn [dot]. destruct H1 as [H1r H1c]. rewrite H1r.
    destruct X as [|row X']; [simpl in Hr; lia|].
    assert (Hrow : length row = k) by (apply (Forall_inv Hc)).
    cbn [forallb]. rewrite Hrow.
    assert (E : Nat.eqb k 2 = false) by (apply Nat.eqb_neq; exact Hk).
    rewrite E. rewrite andb_false_l, andb_false_r. reflexivity. }
  rewrite Hdot. reflexivity.
Qed.

Variable Approx : Type.
Variable posterior_draws : Approx -> nat -> list (env Q) * Approx.

Hypothesis sampler : sampler_contract posterior_draws.

(** X7.  Given a non-empty matrix whose rows do not have exactly two
    entries, and asked for at least one sample, the compiled function
    fails with the shape error of the first product. *)
Theorem sample_proba_rejects_other_widths (shared : env Q) (approx : Approx)
    (X : matrix) (r k n : nat) :
  has_shape r k X -> 0 < r -> k <> 2 -> 0 < n ->
  fst (sample_proba tanh_f sigmoid_f posterior_draws node shared approx X n) = None.
Proof.
  intros HX Hr Hk Hn. unfold sample_proba.
  destruct n as [|m]; [inversion Hn|]. remember (S m) as n eqn:En.
  destruct (sampler approx n) as [Hlen Hd].
  destruct (posterior_draws approx n) as [draws approx']. cbn [fst snd] in *.
  destruct draws as [|d draws]; [simpl in Hlen; lia|].
  apply Forall_cons_iff in Hd. destruct Hd as [Hd _].
  cbn [map]. rewrite (eval_node_wrong_width shared d X r k Hd HX Hr Hk).
  reflexivity.
Qed.

End Graph.

Lemma sample_proba_rejects_other_widths_witness :
  has_shape 1 3 [[1; 2; 3]]%Q /\ 0 < 1 /\ 3 <> 2 /\ 0 < 4 /\
  fst (sample_proba Examples.exact Examples.exact Examples.zero_draws node
                    (@empty_env Q) tt [[1; 2; 3]]%Q 4) = None.
Proof.
  assert (H : has_shape 1 3 [[1; 2; 3]]%Q)
    by (split; [reflexivity | repeat constructor]).
  split; [exact H|]. split; [lia|]. split; [lia|]. split; [lia|].
  apply (sample_proba_rejects_other_widths Examples.exact Examples.exact unit
           Examples.zero_draws InstanceFacts.zero_draws_contract
           (@empty_env Q) tt [[1; 2; 3]]%Q 1 3 4 H); lia.
Defined.

End ForwardFacts.

Module SurfaceFacts.

Import State Arrays ArraysFacts NumpyRandom RandomFacts Sklearn SklearnFacts.
Import Theano PyMC Notebook NotebookFacts ModelFacts PipelineFacts.
Import Measures ScatterTheorems.
Open Scope nat_scope.
Open Scope list_scope.

#[local] Unset Implicit Arguments.

Lemma nth_skipn_add {A} (k b : nat) (d : A) :
  forall l : list A, nth b (skipn k l) d = nth (k + b) l d.
Proof.
  induction k as [|k IH]; intros l; [reflexivity|].
  destruct l as [|h l]; [destruct b; reflexivity|]. apply IH.
Qed.

Lemma nth_firstn_lt {A} (c b : nat) (d : A) :
  forall l : list A, b < c -> nth b (firstn c l) d = nth b l d.
Proof.
  revert b. induction c as [|c IH]; intros b l Hb; [lia|].
  destruct l as [|h l]; [destruct b; reflexivity|].
  destruct b as [|b]; [reflexivity|]. cbn [firstn nth]. apply IH. lia.
Qed.

Lemma nth_chunks (r c a : nat) :
  forall flat : vector,
    a < r -> nth a (chunks r c flat) [] = firstn c (skipn (a * c) flat).
Proof.
  revert a. induction r as [|r IH]; intros a flat Ha; [lia|].
  destruct a as [|a]; [reflexivity|].
  cbn [chunks nth]. rewrite IH by lia. rewrite skipn_skipn.
  f_equal. f_equal. simpl. lia.
Qed.

(** Row-major order: entry [(a, b)] of a reshaped vector is its element
    [a * c + b]. *)
Lemma entry_chunks (r c a b : nat) (flat : vector) :
  a < r -> b < c -> entry a b (chunks r c flat) = nth (a * c + b) flat 0%Q.
Proof.
  intros Ha Hb. unfold entry. rewrite nth_chunks by exact Ha.
  rewrite nth_firstn_lt by exact Hb. apply nth_skipn_add.
Qed.

Lemma nth_concat_shape (r c : nat) :
  forall (G : matrix) (a b : nat),
    has_shape r c G -> a < r -> b < c ->
    nth (a * c + b) (concat G) 0%Q = entry a b G.
Proof.
  induction r as [|r IH]; intros G a b [Hr Hc] Ha Hb; [lia|].
  destruct G as [|row G]; [discriminate Hr|].
  apply Forall_cons_iff in Hc. destruct Hc as [Hrow Hc].
  cbn [concat]. destruct a as [|a].
  - rewrite app_nth1 by (simpl; lia). reflexivity.
  - rewrite app_nth2 by (simpl; lia).
    replace (S a * c + b - length row) with (a * c + b) by (simpl; lia).
    rewrite IH; [reflexivity | | lia | exact Hb].
    split; [simpl in Hr; lia | exact Hc].
Qed.

Lemma reshape_infer_value (r c : nat) (flat : vector) :
  0 < r -> length flat = r * c -> reshape_infer r flat = Some (chunks r c flat).
Proof.
  intros Hr Hlen. unfold reshape_infer.
  assert (E0 : Nat.eqb r 0 = false) by (apply Nat.eqb_neq; lia).
  assert (Emod : length flat mod r = 0)
    by (rewrite Hlen, Nat.mul_comm; apply Nat.Div0.mod_mul).
  assert (Ediv : length flat / r = c)
    by (rewrite Hlen, Nat.mul_comm; apply Nat.div_mul; lia).
  rewrite E0, Emod, Ediv. cbn [orb negb Nat.eqb]. unfold reshape.
  rewrite (proj2 (Nat.eqb_eq _ _) Hlen). reflexivity.
Qed.

Lemma firstn_app_left {A} (l1 l2 : list A) (n : nat) :
  length l1 = n -> firstn n (l1 ++ l2) = l1.
Proof.
  intros H. subst n. rewrite firstn_app, Nat.sub_diag, firstn_all.
  cbn [firstn]. apply app_nil_r.
Qed.

Lemma skipn_app_left {A} (l1 l2 : list A) (n : nat) :
  length l1 = n -> skipn n (l1 ++ l2) = l2.
Proof.
  intros H. subst n. rewrite skipn_app, Nat.sub_diag, skipn_all.
  reflexivity.
Qed.

(** Two blocks of [n] elements reshaped to two rows and transposed: row
    [k] pairs the [k]-th elements of the blocks. *)
Lemma nth_transpose_pair (u v : vector) (n k : nat) :
  length u = n -> length v = n -> k < n ->
  nth k (transpose [u; v]) [] = [nth k u 0%Q; nth k v 0%Q].
Proof.
  intros Hu Hv Hk. unfold transpose, ncols.
  transitivity (column (nth k (seq 0 (length u)) 0) [u; v]).
  - apply (@nth_map_lt _ _ (fun j => column j [u; v]) _ _ _ 0).
    rewrite length_seq. lia.
  - rewrite seq_nth by lia. reflexivity.
Qed.

Section Grid.

Variable floatX : Q -> Q.

Lemma entry_mgrid (s e : Q) (n a b : nat) :
  a < n -> b < n ->
  entry a b (astype_floatX floatX (nth 0 (mgrid s e n) []))
  = floatX (nth a (mgrid_axis s e n) 0%Q) /\
  entry a b (astype_floatX floatX (nth 1 (mgrid s e n) []))
  = floatX (nth b (mgrid_axis s e n) 0%Q).
Proof.
  intros Ha Hb. unfold mgrid, entry, astype_floatX. cbn [nth].
  pose proof (length_mgrid_axis s e n) as Hl.
  split.
  - rewrite map_map.
    rewrite (@nth_map_lt _ _ (fun v => map floatX (repeat v n)) (mgrid_axis s e n)
               a [] 0%Q) by lia.
    rewrite (@nth_map_lt _ _ floatX (repeat (nth a (mgrid_axis s e n) 0%Q) n)
               b 0%Q 0%Q) by (rewrite repeat_length; exact Hb).
    rewrite nth_repeat_lt by exact Hb. reflexivity.
  - rewrite (@nth_map_lt _ _ (map floatX) (repeat (mgrid_axis s e n) n) a [] [])
      by (rewrite repeat_length; exact Ha).
    rewrite nth_repeat_lt by exact Ha.
    rewrite (@nth_map_lt _ _ floatX (mgrid_axis s e n) b 0%Q 0%Q) by lia.
    reflexivity.
Qed.

(** Row [a * 100 + b] of [grid_2d] is the grid point [(a, b)]. *)
Lemma grid_2d_rows (g2 : matrix) (a b : nat) :
  grid_2d floatX = Some g2 -> a < 100 -> b < 100 ->
  nth (a * 100 + b) g2 []
  = [entry a b (nth 0 (grid floatX) []); entry a b (nth 1 (grid floatX) [])].
Proof.
  intros Eg Ha Hb. unfold grid_2d in Eg.
  destruct (grid_blocks floatX) as (G0 & G1 & EG & H0 & H1).
  rewrite EG in Eg |- *. cbn [nth].
  cbn [concat] in Eg. rewrite app_nil_r, concat_app in Eg.
  pose proof (length_concat_shape H0) as L0.
  pose proof (length_concat_shape H1) as L1.
  rewrite (reshape_infer_value 2 (100 * 100) (concat G0 ++ concat G1)) in Eg
    by (try rewrite length_app; lia).
  cbn [option_map chunks] in Eg.
  rewrite (firstn_app_left _ _ _ L0), (skipn_app_left _ _ _ L0) in Eg.
  rewrite (@firstn_all2 _ (100 * 100) (concat G1)) in Eg
    by (rewrite L1; apply Nat.le_refl).
  injection Eg as Eg. subst g2.
  assert (Hk : a * 100 + b < 100 * 100) by nia.
  rewrite <- (nth_concat_shape 100 100 G0 a b H0 Ha Hb).
  rewrite <- (nth_concat_shape 100 100 G1 a b H1 Ha Hb).
  exact (nth_transpose_pair (concat G0) (concat G1) (100 * 100) _ L0 L1 Hk).
Qed.

End Grid.

Lemma reshape_value (r c : nat) (flat : vector) (m : matrix) :
  reshape r c flat = Some m -> m = chunks r c flat.
Proof.
  unfold reshape. destruct (Nat.eqb (length flat) (r * c)); [|discriminate].
  intros H. injection H as H. symmetry. exact H.
Qed.

(** The axis values, as [np.mgrid] computes them: the index times the
    step plus the start, every operation rounded to double precision. *)
Lemma nth_mgrid_axis (s e : Q) (n k : nat) :
  k < n ->
  nth k (mgrid_axis s e n) 0%Q
  = Float.binary64
      (Float.binary64 (of_nat k * Float.binary64 ((e - s) / of_nat (n - 1))) + s)%Q.
Proof.
  intros Hk. unfold mgrid_axis.
  rewrite (@nth_map_lt _ _ _ (seq 0 n) k 0%Q 0) by (rewrite length_seq; exact Hk).
  rewrite seq_nth by exact Hk. reflexivity.
Qed.

Section Cells.

Variables cos_f sin_f sqrt_f tanh_f sigmoid_f floatX : Q -> Q.
Variable pi_f : Q.
Variable Approx : Type.
Variable fit : Model -> env Q -> N -> Rand Approx.
Variable posterior_draws : Approx -> nat -> list (env Q) * Approx.
Hypothesis sampler : sampler_contract posterior_draws.


End Cells.


End SurfaceFacts.

Module RangeFacts.

Import State Arrays ArraysFacts NumpyRandom RandomFacts Sklearn SklearnFacts.
Import Theano TheanoFacts PyMC Notebook NotebookFacts ModelFacts PipelineFacts.
Import Measures ForwardNotions ForwardFacts ScatterTheorems SurfaceFacts Instances.
Open Scope nat_scope.
Open Scope list_scope.

#[local] Unset Implicit Arguments.

Lemma Qsum_bounds (v : vector) :
  Forall in_unit v -> (0 <= Qsum v /\ Qsum v <= of_nat (length v))%Q.
Proof.
  induction v as [|p v IH]; intros H.
  - unfold of_nat. simpl. split; apply Qle_refl.
  - apply Forall_cons_iff in H. destruct H as [[Hp0 Hp1] Hv].
    destruct (IH Hv) as [H0 H1]. cbn [Qsum fold_right length].
    fold (Qsum v). unfold of_nat in *.
    rewrite Nat2Z.inj_succ, <- Z.add_1_l, inject_Z_plus.
    change (inject_Z 1) with 1%Q. split; Lqa.lra.
Qed.

(** The mean of probabilities is a probability; an empty mean is 0. *)
Lemma mean_in_unit (v : vector) : Forall in_unit v -> in_unit (mean v).
Proof.
  intros H. destruct (Qsum_bounds v H) as [H0 H1]. unfold mean, in_unit.
  fold (of_nat (length v)) in *.
  destruct v as [|p v].
  - split; vm_compute; discriminate.
  - assert (Hpos : (0 < of_nat (length (p :: v)))%Q)
      by (apply of_nat_pos; simpl; lia).
    split.
    + apply Qle_shift_div_l; [exact Hpos|]. Lqa.lra.
    + apply Qle_shift_div_r; [exact Hpos|]. Lqa.lra.
Qed.

Lemma column_all (P : Q -> Prop) (k : nat) (m : matrix) :
  P 0%Q -> all_in P m -> Forall P (column k m).
Proof.
  intros H0 H. unfold column. apply Forall_map.
  apply Forall_forall. intros row Hrow.
  unfold all_in in H. rewrite Forall_forall in H. specialize (H row Hrow).
  destruct (Nat.lt_ge_cases k (length row)) as [Hk|Hk].
  - rewrite Forall_forall in H. apply H. apply nth_In. exact Hk.
  - rewrite nth_overflow by exact Hk. exact H0.
Qed.

Lemma Forall_firstn_skipn (P : Q -> Prop) (c : nat) :
  forall l : vector, Forall P l -> Forall P (firstn c l) /\ Forall P (skipn c l).
Proof.
  induction c as [|c IH]; intros l H.
  - split; [constructor | exact H].
  - destruct l as [|h l]; [split; constructor|].
    apply Forall_cons_iff in H. destruct H as [Hh Hl].
    destruct (IH l Hl) as [H1 H2]. split; [constructor; assumption | exact H2].
Qed.

Lemma chunks_all (P : Q -> Prop) (r c : nat) :
  forall flat : vector, Forall P flat -> all_in P (chunks r c flat).
Proof.
  induction r as [|r IH]; intros flat H; cbn [chunks]; [constructor|].
  constructor.
  - apply (Forall_firstn_skipn P c flat H).
  - apply IH. apply (Forall_firstn_skipn P c flat H).
Qed.

Lemma reshape_all (P : Q -> Prop) (r c : nat) (flat : vector) (m : matrix) :
  Forall P flat -> reshape r c flat = Some m -> all_in P m.
Proof.
  intros H E. apply reshape_value in E. subst m. apply chunks_all. exact H.
Qed.

Section Graph.

Variables tanh_f sigmoid_f : Q -> Q.
Hypothesis sigmoid_range : forall v, in_unit (sigmoid_f v).

Lemma stack_in_unit (shared : env Q) (X : matrix) (r : nat) (draws : list (env Q)) :
  has_shape r 2 X -> Forall well_shaped_draw draws ->
  forall M,
    stack (map (fun rvs => eval 0%Q Qplus Qmult tanh_f sigmoid_f
                             (bind_var "X" (Mat X) shared) rvs node) draws)
    = Some M ->
    all_in in_unit M.
Proof.
  intros HX. induction draws as [|d draws IH]; intros Hd M E.
  - injection E as E. subst M. constructor.
  - apply Forall_cons_iff in Hd. destruct Hd as [Hd Hds].
    destruct Hd as (W1 & W2 & w & E1 & H1 & E2 & H2 & E3 & H3).
    cbn [map] in E.
    rewrite (eval_node_forward tanh_f sigmoid_f shared d X W1 W2 w r
               E1 H1 E2 H2 E3 H3 HX) in E.
    cbn [stack] in E.
    destruct (stack _) as [M'|]; [|discriminate E].
    injection E as E. subst M. constructor.
    + apply Forall_map. apply Forall_forall. intros row _.
      unfold forward. apply sigmoid_range.
    + apply (IH Hds). reflexivity.
Qed.

Variable Approx : Type.
Variable posterior_draws : Approx -> nat -> list (env Q) * Approx.
Hypothesis sampler : sampler_contract posterior_draws.

Lemma sample_proba_in_unit (shared : env Q) (approx approx' : Approx)
    (X M : matrix) (r n : nat) :
  has_shape r 2 X ->
  sample_proba tanh_f sigmoid_f posterior_draws node shared approx X n
  = (Some M, approx') ->
  all_in in_unit M.
Proof.
  intros HX E. unfold sample_proba in E.
  destruct n as [|m]; [discriminate E|]. remember (S m) as n eqn:En.
  destruct (sampler approx n) as [_ Hd].
  destruct (posterior_draws approx n) as [draws a']. cbn [fst] in Hd.
  injection E as E _.
  exact (stack_in_unit shared X r draws HX Hd M E).
Qed.

End Graph.

Section Cells.

Variables cos_f sin_f sqrt_f tanh_f sigmoid_f floatX : Q -> Q.
Variable pi_f : Q.
Variable Approx : Type.
Variable fit : Model -> env Q -> N -> Rand Approx.
Variable posterior_draws : Approx -> nat -> list (env Q) * Approx.
Hypothesis sampler : sampler_contract posterior_draws.

(** X9.  When the float sigmoid has its values in the unit interval and
    the float square root has none below zero, then in a run every
    sampled probability, for the test set and for the grid, lies in the
    unit interval, so does every value of the mean surface of cell 15, and
    no value of the surface of cell 16 is negative. *)
Theorem plotted_values_in_range (g : RandomState) :
  (forall v, in_unit (sigmoid_f v)) -> (forall v, (0 <= sqrt_f v)%Q) ->
  exists i o,
    run_all cos_f sin_f sqrt_f tanh_f sigmoid_f floatX pi_f fit posterior_draws g
    = Some (i, o) /\
    all_in in_unit (out_proba o) /\
    all_in in_unit (out_ppc o) /\
    all_in in_unit (out_mean_surface o) /\
    all_in (fun s => (0 <= s)%Q) (out_std_surface o).
Proof.
  intros Hsig Hsqrt.
  destruct (run_all_steps cos_f sin_f sqrt_f tanh_f sigmoid_f floatX pi_f
              Approx fit posterior_draws sampler g)
    as (o & Eo & E & _ & _ & Hg & _ & _ & _).
  set (i := fst (draw_inputs cos_f sin_f sqrt_f floatX pi_f fit g)) in *.
  destruct (predict_and_plot_steps sqrt_f tanh_f sigmoid_f floatX Approx
              posterior_draws i o Eo)
    as (_ & _ & _ & _ & _ & Ems & Ess & nd & a1 & a2 & a3 & End & _ & Ep & Ec).
  pose proof (draw_inputs_stages cos_f sin_f sqrt_f floatX pi_f fit g) as Hs.
  pose proof (draw_inputs_shapes cos_f sin_f sqrt_f floatX pi_f fit g) as Hsh.
  cbv zeta in Hs, Hsh. fold i in Hs, Hsh.
  destruct Hs as (_ & _ & _ & _ & _ & _ & _ & Em).
  destruct Hsh as (_ & _ & _ & _ & Ht & _).
  rewrite Em, sample_proba_node in End. injection End as End. subst nd.
  pose proof (sample_proba_in_unit tanh_f sigmoid_f Hsig Approx posterior_draws
                sampler _ a1 a2 _ (out_proba o) 300 500 Ht Ep) as Hp.
  pose proof (sample_proba_in_unit tanh_f sigmoid_f Hsig Approx posterior_draws
                sampler _ a2 a3 _ (out_ppc o) (100 * 100) 500 Hg Ec) as Hc.
  assert (H0 : in_unit 0%Q) by (split; vm_compute; discriminate).
  exists i, o. split; [exact E|]. split; [exact Hp|]. split; [exact Hc|]. split.
  - unfold mean_surface in Ems.
    apply (reshape_all in_unit 100 100 _ _) with (2 := Ems).
    unfold mean_axis0. apply Forall_map. apply Forall_forall. intros k _.
    apply mean_in_unit. apply column_all; assumption.
  - unfold std_surface in Ess.
    apply (reshape_all (fun s => (0 <= s)%Q) 100 100 _ _) with (2 := Ess).
    unfold std_axis0. apply Forall_map. apply Forall_forall. intros k _.
    apply Hsqrt.
Qed.

End Cells.

Lemma clip_in_unit (v : Q) : in_unit (clip v).
Proof.
  unfold clip, in_unit.
  destruct (Qle_bool v 0) eqn:E0; [split; vm_compute; discriminate|].
  destruct (Qle_bool 1 v) eqn:E1; [split; vm_compute; discriminate|].
  split; apply Qlt_le_weak; apply Qnot_le_lt; intros H;
    apply Qle_bool_iff in H; congruence.
Qed.

Lemma plotted_values_in_range_witness :
  (forall v, in_unit (clip v)) /\ (forall v, (0 <= Qabs.Qabs v)%Q) /\
  exists i o,
    run_all Examples.exact Examples.exact Qabs.Qabs Examples.exact clip
            Examples.exact 3%Q Examples.fit_unit Examples.zero_draws
            Examples.stream_zero
    = Some (i, o) /\
    all_in in_unit (out_proba o) /\
    all_in in_unit (out_ppc o) /\
    all_in in_unit (out_mean_surface o) /\
    all_in (fun s => (0 <= s)%Q) (out_std_surface o).
Proof.
  split; [exact clip_in_unit|]. split; [exact Qabs.Qabs_nonneg|].
  exact (plotted_values_in_range Examples.exact Examples.exact Qabs.Qabs
           Examples.exact clip Examples.exact 3%Q unit Examples.fit_unit
           Examples.zero_draws InstanceFacts.zero_draws_contract
           Examples.stream_zero clip_in_unit Qabs.Qabs_nonneg).
Defined.

End RangeFacts.

Module CleanRunFacts.

Import Source Exceptions ExceptionFacts Instances.
Open Scope nat_scope.
Open Scope list_scope.

#[local] Unset Implicit Arguments.

Section Run.

Variables St Exn : Type.
Variable exec_simple : simple -> St -> St * option Exn.
Variable ctx_exit : simple -> St -> St.

Lemma run_cells_clean (nb : list cell) (st : St) :
  forallb handler_free (concat nb) = true ->
  raised (run_cells exec_simple ctx_exit nb st) = None ->
  map fst (executed (run_cells exec_simple ctx_exit nb st))
  = statements (concat nb) /\
  Forall (completes exec_simple) (executed (run_cells exec_simple ctx_exit nb st)).
Proof.
  unfold run_cells. generalize (concat nb). intros p Hfree Hr.
  destruct (@run_stmts_trace St Exn exec_simple ctx_exit p Hfree [] st)
    as (evs & E & Ht).
  change ([] ++ evs) with evs in E. rewrite E. rewrite Hr in Ht.
  destruct Ht as [Hc Em]. split; [exact Em | exact Hc].
Qed.

(** X10.  A run of all cells that ends without an exception started
    every statement of the notebook exactly once, in source order, the
    bodies of the two [with] blocks included, and each of them
    completed. *)
Theorem clean_run_is_complete (st : St) :
  raised (run_cells exec_simple ctx_exit notebook st) = None ->
  map fst (executed (run_cells exec_simple ctx_exit notebook st))
  = statements (concat notebook) /\
  Forall (completes exec_simple)
         (executed (run_cells exec_simple ctx_exit notebook st)).
Proof.
  exact (run_cells_clean notebook st notebook_handler_free).
Qed.

End Run.

Lemma clean_run_is_complete_witness :
  raised (run_cells exec_counts Examples.exit_keeps notebook 0) = None /\
  map fst (executed (run_cells exec_counts Examples.exit_keeps notebook 0))
  = statements (concat notebook) /\
  Forall (completes exec_counts)
         (executed (run_cells exec_counts Examples.exit_keeps notebook 0)).
Proof.
  assert (H : raised (run_cells exec_counts Examples.exit_keeps notebook 0) = None)
    by (vm_compute; reflexivity).
  split; [exact H|].
  exact (clean_run_is_complete nat string exec_counts Examples.exit_keeps 0 H).
Defined.

End CleanRunFacts.

(** ** The definitions on small inputs *)

Module Checks.

Import Float State Arrays NumpyRandom Sklearn Theano PyMC Notebook Examples.
Import Names TheanoConfig FloatNetwork.
Open Scope Q_scope.
Open Scope string_scope.
Open Scope list_scope.

(** Double precision: one tenth, and the product [0.07 * 100], which is
    above 7. *)
Example binary64_tenth : binary64 (1#10) == 3602879701896397 # 36028797018963968.
Proof. vm_compute. reflexivity. Qed.

Example binary64_product : 7 < binary64 (binary64 (7#100) * 100).
Proof. vm_compute. reflexivity. Qed.

Example n_test_rounds_up : n_test_of (7#100) 100 = 8%nat.
Proof. vm_compute. reflexivity. Qed.

Example n_test_of_notebook : n_test_of (3#10) 1000 = 300%nat.
Proof. vm_compute. reflexivity. Qed.

Example pred_of_small :
  pred_of binary64 [[3#4; 1#4; 1#2]; [3#4; 1#4; 1#2]] = [true; false; false].
Proof. vm_compute. reflexivity. Qed.

(** 499 samples of one half and one sample just above: the exact mean is
    above one half, the mean numpy computes is one half, and the label
    is 0. *)
Example pred_of_rounded_mean :
  1#2 < mean (column 0 (repeat [1#2; 3#4] 499 ++ [[(1#2) + 1 / 2 ^ 53; 3#4]])) /\
  fmean binary64 (column 0 (repeat [1#2; 3#4] 499 ++ [[(1#2) + 1 / 2 ^ 53; 3#4]]))
  == 1#2 /\
  pred_of binary64 (repeat [1#2; 3#4] 499 ++ [[(1#2) + 1 / 2 ^ 53; 3#4]])
  = [false; true].
Proof. split; [|split]; vm_compute; reflexivity. Qed.

Example accuracy_small :
  format_0_1f (accuracy [1; 0; 1] [true; false; false]) = 667%Z.
Proof. vm_compute. reflexivity. Qed.

(** 23 of 80 labels right: the product with 100 falls just below 28.75
    and is shown as 28.7. *)
Example accuracy_23_of_80 :
  accuracy (repeat 1 23 ++ repeat 0 57) (repeat true 80) < 2875 # 100 /\
  format_0_1f (accuracy (repeat 1 23 ++ repeat 0 57) (repeat true 80)) = 287%Z.
Proof. split; vm_compute; reflexivity. Qed.

Example format_rounds_to_nearest : format_0_1f (200#3) = 667%Z.
Proof. reflexivity. Qed.

Example format_rounds_ties_to_even : format_0_1f (1905#20) = 952%Z.
Proof. reflexivity. Qed.

Example permutation_small : fst (permutation 5 stream_count) = [4; 3; 2; 1; 0]%nat.
Proof. reflexivity. Qed.

Example reshape_wrong_size : reshape 2 2 [1; 2; 3] = None.
Proof. reflexivity. Qed.

Example reshape_right_size : reshape 2 2 [1; 2; 3; 4] = Some [[1; 2]; [3; 4]].
Proof. reflexivity. Qed.

Example mask_of_wrong_length : mask_index [true] 0 [[1; 2]; [3; 4]] = None.
Proof. reflexivity. Qed.

Example mask_selects_rows : mask_index [true; false] 1 [[1; 2]; [3; 4]] = Some [2].
Proof. reflexivity. Qed.

Example dot_shape_mismatch :
  dot 0 Qplus Qmult (Mat [[1; 2]]) (Mat [[1; 2; 3]]) = None.
Proof. reflexivity. Qed.

Example dot_small :
  dot 0 Qplus Qmult (Mat [[1; 2]]) (Mat [[1; 2; 3]; [4; 5; 6]])
  = Some (Mat [[9; 12; 15]]).
Proof. reflexivity. Qed.

(** The axis of the grid: the value of index 11 is the double nearest
    to [11 * step - 3], which is not the double nearest to -7/3; the last
    value is 3. *)
Example mgrid_axis_11 :
  nth 11 (mgrid_axis (-3) 3 100) 0 == - (2627099782632789 # 1125899906842624) /\
  ~ nth 11 (mgrid_axis (-3) 3 100) 0 == binary64 (- (7#3)) /\
  nth 99 (mgrid_axis (-3) 3 100) 0 == 3.
Proof.
  split; [vm_compute; reflexivity|].
  split; [intros H; vm_compute in H; discriminate H | vm_compute; reflexivity].
Qed.

Example grid_2d_small :
  option_map (map (map Qred))
             (option_map transpose (reshape_infer 2 (concat (concat (mgrid 0 1 2)))))
  = Some [[0; 0]; [0; 1]; [1; 0]; [1; 1]].
Proof. vm_compute. reflexivity. Qed.

Example scale_small :
  map (map Qred) (scale exact [[1; 10]; [3; 10]]) = [[-1; 0]; [1; 0]].
Proof. vm_compute. reflexivity. Qed.

(** Asked for no sample, the compiled function raises. *)
Example sample_proba_no_sample :
  fst (sample_proba exact exact zero_draws node (@empty_env Q) tt [[1; 2]] 0) = None.
Proof. reflexivity. Qed.

Example sample_proba_small :
  fst (sample_proba exact exact zero_draws node (@empty_env Q) tt [[1; 2]] 2)
  = Some [[0]; [0]].
Proof. vm_compute. reflexivity. Qed.

(** The activations saturate. *)
Example sigmoid_float_saturates : forall mid, sigmoid_float mid 40 = 1.
Proof. reflexivity. Qed.

Example tanh_float_saturates : forall mid, tanh_float mid 22 = 1.
Proof. reflexivity. Qed.

(** A name that reads the environment by subscript is caught, and so is
    a module that is not imported. *)
Example environ_is_outside : outside "os.environ" = true /\ bound (root "os.environ") = false.
Proof. split; reflexivity. Qed.

Example open_is_outside : outside "open" = true.
Proof. reflexivity. Qed.

Example library_io_is_outside :
  outside "np.fromfile" = true /\ outside "pd.read_json" = true /\
  outside ".to_csv" = true /\ outside "fig.savefig" = true /\
  outside "datasets.fetch_openml" = true /\ outside "ax.set_ylabel" = false.
Proof. repeat split; reflexivity. Qed.

Example last_part_of_dotted : last_part "cbar.ax.set_ylabel" = "set_ylabel".
Proof. reflexivity. Qed.

Example root_of_dotted : root "theano.config.floatX" = "theano".
Proof. reflexivity. Qed.

Example flags_small :
  flags "floatX=float32,device=cpu" = [("floatX", "float32"); ("device", "cpu")].
Proof. reflexivity. Qed.

Example flags_override_file :
  floatX_of (fun _ => [("floatX", "float32")])
            [("THEANO_FLAGS", "floatX=float64")]
            [("~/.theanorc", "[global] floatX = float32")] = "float64".
Proof. reflexivity. Qed.

End Checks.
